(** * StockTradebyZ: the concurrent task-execution core

    A shallow embedding of the task queue, the two rate limiters, the
    batch writer and the batch sync manager of [backend/app/services],
    followed by the properties of the specification that were settled
    against them.

    Conventions of the embedding.
    - Python [float] values are idealised as exact rationals ([Q]);
      [int] values are [Z].
    - [datetime.now()], [time.time()] and the event-loop clock are
      explicit arguments: the functions below are pure in the readings
      they are given.
    - A Python [dict] keyed by strings is a [gmap string _].
    - An [async] method is the state transformer it performs between two
      suspension points; where it can block, the result says so. *)

From Stdlib Require Import ZArith QArith Qminmax Qround String List Lia Lqa.
From Stdlib Require Import DecimalString Sorting.Sorted Sorting.Permutation.
From stdpp Require Import gmap strings list fin_maps.

Open Scope string_scope.

(* ===================================================================== *)
(** * Part I: definitions                                                 *)
(* ===================================================================== *)

(** ** Python exceptions, as far as the handlers tell them apart

    [ExcCancelled] is [asyncio.CancelledError]; [ExcException cls text] is
    any instance of [Exception] (this includes [asyncio.TimeoutError],
    [ValueError], ...), with its class name and [str(e)];
    [ExcBaseOnly text] is a [BaseException] that is neither
    ([KeyboardInterrupt], [SystemExit]). *)
Inductive PyExc : Type :=
  | ExcCancelled
  | ExcException (cls : string) (text : string)
  | ExcBaseOnly (text : string).

(** [str(e)] *)
Definition str_of_exc (e : PyExc) : string :=
  match e with
  | ExcCancelled => ""
  | ExcException _ text => text
  | ExcBaseOnly text => text
  end.

(** [str(n)] for a Python int. *)
Definition str_of_Z (n : Z) : string := NilZero.string_of_int (Z.to_int n).

(** ** improved_task_queue.py *)
Module ImprovedTaskQueue.

Inductive TaskStatus : Type :=
  | PENDING
  | RUNNING
  | PAUSED
  | SUCCESS
  | FAILED
  | CANCELLED.

#[export] Instance TaskStatus_eq_dec : EqDecision TaskStatus.
Proof. solve_decision. Defined.

(** [class CancellableTask]; [_pause_event] is the [asyncio.Event]'s
    internal flag. *)
Record CancellableTask : Type := mkCancellableTask {
  ct_task_id : string;
  _should_cancel : bool;
  _is_paused : bool;
  _pause_event : bool
}.

Definition CancellableTask_init (task_id : string) : CancellableTask :=
  {| ct_task_id := task_id;
     _should_cancel := false;
     _is_paused := false;
     _pause_event := true |}.

Definition check_cancelled (c : CancellableTask) : bool := _should_cancel c.

Definition request_cancel (c : CancellableTask) : CancellableTask :=
  {| ct_task_id := ct_task_id c;
     _should_cancel := true;
     _is_paused := _is_paused c;
     _pause_event := _pause_event c |}.

Definition is_paused (c : CancellableTask) : bool := _is_paused c.

Definition pause (c : CancellableTask) : CancellableTask :=
  {| ct_task_id := ct_task_id c;
     _should_cancel := _should_cancel c;
     _is_paused := true;
     _pause_event := false |}.

Definition resume (c : CancellableTask) : CancellableTask :=
  {| ct_task_id := ct_task_id c;
     _should_cancel := _should_cancel c;
     _is_paused := false;
     _pause_event := true |}.

(** [class TaskInfo]. Timestamps are clock readings; [params],
    [result] and [details] are string-keyed dictionaries. *)
Record TaskInfo : Type := mkTaskInfo {
  task_id : string;
  task_type : string;
  params : gmap string string;
  status : TaskStatus;
  progress : Q;
  message : string;
  result : option (gmap string string);
  error : option string;
  created_at : Z;
  started_at : option Z;
  completed_at : option Z;
  controller : option CancellableTask;
  details : gmap string string
}.

Definition set_status (s : TaskStatus) (t : TaskInfo) : TaskInfo :=
  mkTaskInfo (task_id t) (task_type t) (params t) s (progress t) (message t)
             (result t) (error t) (created_at t) (started_at t)
             (completed_at t) (controller t) (details t).

Definition set_progress (p : Q) (t : TaskInfo) : TaskInfo :=
  mkTaskInfo (task_id t) (task_type t) (params t) (status t) p (message t)
             (result t) (error t) (created_at t) (started_at t)
             (completed_at t) (controller t) (details t).

Definition set_message (m : string) (t : TaskInfo) : TaskInfo :=
  mkTaskInfo (task_id t) (task_type t) (params t) (status t) (progress t) m
             (result t) (error t) (created_at t) (started_at t)
             (completed_at t) (controller t) (details t).

Definition set_error (e : option string) (t : TaskInfo) : TaskInfo :=
  mkTaskInfo (task_id t) (task_type t) (params t) (status t) (progress t)
             (message t) (result t) e (created_at t) (started_at t)
             (completed_at t) (controller t) (details t).

Definition set_started_at (d : option Z) (t : TaskInfo) : TaskInfo :=
  mkTaskInfo (task_id t) (task_type t) (params t) (status t) (progress t)
             (message t) (result t) (error t) (created_at t) d
             (completed_at t) (controller t) (details t).

Definition set_completed_at (d : option Z) (t : TaskInfo) : TaskInfo :=
  mkTaskInfo (task_id t) (task_type t) (params t) (status t) (progress t)
             (message t) (result t) (error t) (created_at t) (started_at t)
             d (controller t) (details t).

Definition set_controller (c : option CancellableTask) (t : TaskInfo)
  : TaskInfo :=
  mkTaskInfo (task_id t) (task_type t) (params t) (status t) (progress t)
             (message t) (result t) (error t) (created_at t) (started_at t)
             (completed_at t) c (details t).

(** [TaskInfo.update_progress(progress, message, **details)] *)
Definition update_progress (p : Q) (msg : string) (ds : gmap string string)
           (t : TaskInfo) : TaskInfo :=
  let t1 := set_progress p t in
  let t2 := if String.eqb msg "" then t1 else set_message msg t1 in
  mkTaskInfo (task_id t2) (task_type t2) (params t2) (status t2)
             (progress t2) (message t2) (result t2) (error t2)
             (created_at t2) (started_at t2) (completed_at t2)
             (controller t2) (ds ∪ details t2).

(** What [await executor(task, task.controller)] did. *)
Inductive Outcome : Type :=
  | Returns
  | Raises (e : PyExc).

(** An executor closure: everything that happens to the task object
    (and to the controller it owns) from the call of the executor until
    it returns or raises, including what cancel, pause and resume
    requests arriving meanwhile did to it. *)
Definition Executor : Type := TaskInfo -> TaskInfo * Outcome.

(** [class ImprovedTaskQueue]. [queue] is the [asyncio.Queue] (head
    first); [current_tasks] keeps the keys of the dictionary only;
    [exec_log] is instrumentation that is not in the source: the ids of
    the tasks whose executor has been called, oldest first. *)
Record Queue : Type := mkQueue {
  queue : list (string * Executor);
  tasks : gmap string TaskInfo;
  is_running : bool;
  max_workers : nat;
  current_tasks : gset string;
  exec_log : list string
}.

Definition Queue_init (max_workers : nat) : Queue :=
  {| queue := [];
     tasks := ∅;
     is_running := false;
     max_workers := max_workers;
     current_tasks := ∅;
     exec_log := [] |}.

Definition with_tasks (m : gmap string TaskInfo) (q : Queue) : Queue :=
  mkQueue (queue q) m (is_running q) (max_workers q) (current_tasks q)
          (exec_log q).

Definition with_queue (l : list (string * Executor)) (q : Queue) : Queue :=
  mkQueue l (tasks q) (is_running q) (max_workers q) (current_tasks q)
          (exec_log q).

Definition with_current (c : gset string) (q : Queue) : Queue :=
  mkQueue (queue q) (tasks q) (is_running q) (max_workers q) c (exec_log q).

Definition with_log (l : list string) (q : Queue) : Queue :=
  mkQueue (queue q) (tasks q) (is_running q) (max_workers q)
          (current_tasks q) l.

Definition with_running (b : bool) (q : Queue) : Queue :=
  mkQueue (queue q) (tasks q) b (max_workers q) (current_tasks q)
          (exec_log q).

(** [has_running_task_of_type] *)
Definition has_running_task_of_type (ty : string) (q : Queue) : bool :=
  existsb
    (fun kv : string * TaskInfo =>
       String.eqb (task_type kv.2) ty
       && (bool_decide (status kv.2 = PENDING)
           || bool_decide (status kv.2 = RUNNING)
           || bool_decide (status kv.2 = PAUSED)))
    (map_to_list (tasks q)).

(** [submit]; the fresh [uuid4] and the creation time are arguments.
    [start()] only flips [is_running] here: the workers are the
    iterations scheduled below. *)
Definition submit (new_id : string) (now : Z) (ty : string)
           (ps : gmap string string) (executor : Executor) (q : Queue)
  : Queue * string :=
  let task :=
    {| task_id := new_id; task_type := ty; params := ps;
       status := PENDING; progress := 0;
       message := "任务已加入队列，等待执行";
       result := None; error := None; created_at := now;
       started_at := None; completed_at := None;
       controller := Some (CancellableTask_init new_id);
       details := ∅ |} in
  let q1 := with_tasks (<[new_id := task]> (tasks q)) q in
  let q2 := with_queue (queue q1 ++ [(new_id, executor)]) q1 in
  (with_running true q2, new_id).

(** How one pass through the body of [while self.is_running] ends. *)
Inductive LoopCtl : Type :=
  | Continue
  | Break
  | Crash (e : PyExc).

(** The text of the [AttributeError] raised by
    [task.controller.check_cancelled()] when the controller is [None]. *)
Definition none_controller_error : string :=
  "'NoneType' object has no attribute 'check_cancelled'".

(** The part of [_worker] after [await executor(...)]: the
    [try]/[except]/[finally] around the call. *)
Definition after_executor (now : Z) (task : TaskInfo) (out : Outcome)
  : TaskInfo * LoopCtl :=
  let failed (text : string) :=
    set_message ("任务执行失败: " ++ text)
      (set_error (Some text)
         (set_completed_at (Some now) (set_status FAILED task))) in
  match out with
  | Returns =>
      match controller task with
      | None => (failed none_controller_error, Continue)
      | Some c =>
          if negb (check_cancelled c) then
            (set_message "任务执行成功"
               (set_progress 100
                  (set_completed_at (Some now) (set_status SUCCESS task))),
             Continue)
          else
            (set_message "任务已被取消"
               (set_completed_at (Some now) (set_status CANCELLED task)),
             Continue)
      end
  | Raises ExcCancelled =>
      (set_message "任务被系统中断"
         (set_completed_at (Some now) (set_status CANCELLED task)),
       Continue)
  | Raises (ExcException cls text) => (failed text, Continue)
  | Raises (ExcBaseOnly text) => (task, Crash (ExcBaseOnly text))
  end.

(** The worker's update of a dequeued task before it calls the
    executor. *)
Definition mark_running (now : Z) (task : TaskInfo) : TaskInfo :=
  set_progress 0
    (set_message "任务正在执行..."
       (set_started_at (Some now) (set_status RUNNING task))).

(** One pass through the body of the loop of [_worker]. An empty queue
    is the [asyncio.TimeoutError] of [wait_for], which continues. *)
Definition worker_iteration (now : Z) (q : Queue) : Queue * LoopCtl :=
  match queue q with
  | [] => (q, Continue)
  | (tid, executor) :: rest =>
      let q1 := with_queue rest q in
      match tasks q1 !! tid with
      | None => (q1, Continue)
      | Some task =>
          match controller task with
          | None => (q1, Continue)
          | Some c =>
              if check_cancelled c then
                let task' :=
                  set_message "任务在执行前被取消"
                    (set_status CANCELLED task) in
                (with_tasks (<[tid := task']> (tasks q1)) q1, Continue)
              else
                let task1 := mark_running now task in
                let q2 := with_current ({[tid]} ∪ current_tasks q1) q1 in
                let '(task2, out) := executor task1 in
                let '(task3, ctl) := after_executor now task2 out in
                (with_log (exec_log q2 ++ [tid])
                   (with_current (current_tasks q2 ∖ {[tid]})
                      (with_tasks (<[tid := task3]> (tasks q2)) q2)),
                 ctl)
          end
      end
  end.

(** How a run of [_worker] ends; [StillRunning] is the model running out
    of clock readings. *)
Inductive WorkerExit : Type :=
  | Exited
  | Crashed (e : PyExc)
  | StillRunning.

(** [_worker]: one clock reading per pass. *)
Fixpoint _worker (clock : list Z) (q : Queue) : Queue * WorkerExit :=
  match clock with
  | [] => (q, StillRunning)
  | now :: clock' =>
      if is_running q then
        match worker_iteration now q with
        | (q', Continue) => _worker clock' q'
        | (q', Break) => (q', Exited)
        | (q', Crash e) => (q', Crashed e)
        end
      else (q, Exited)
  end.

Definition get_task (tid : string) (q : Queue) : option TaskInfo :=
  tasks q !! tid.

(** [cancel_task] *)
Definition cancel_task (tid : string) (q : Queue) : Queue * bool :=
  match tasks q !! tid with
  | None => (q, false)
  | Some task =>
      if bool_decide (status task = PENDING) then
        let task' :=
          set_message "任务已被取消（未开始执行）"
            (set_status CANCELLED task) in
        (with_tasks (<[tid := task']> (tasks q)) q, true)
      else
        match bool_decide (status task = RUNNING), controller task with
        | true, Some c =>
            let task' :=
              set_message "正在取消任务..."
                (set_controller (Some (request_cancel c)) task) in
            (with_tasks (<[tid := task']> (tasks q)) q, true)
        | _, _ => (q, false)
        end
  end.

(** [pause_task] *)
Definition pause_task (tid : string) (q : Queue) : Queue * bool :=
  match tasks q !! tid with
  | Some task =>
      match controller task, bool_decide (status task = RUNNING) with
      | Some c, true =>
          let task' :=
            set_message "任务已暂停"
              (set_status PAUSED
                 (set_controller (Some (pause c)) task)) in
          (with_tasks (<[tid := task']> (tasks q)) q, true)
      | _, _ => (q, false)
      end
  | None => (q, false)
  end.

(** [resume_task] *)
Definition resume_task (tid : string) (q : Queue) : Queue * bool :=
  match tasks q !! tid with
  | Some task =>
      match controller task, bool_decide (status task = PAUSED) with
      | Some c, true =>
          let task' :=
            set_message "任务已恢复"
              (set_status RUNNING
                 (set_controller (Some (resume c)) task)) in
          (with_tasks (<[tid := task']> (tasks q)) q, true)
      | _, _ => (q, false)
      end
  | None => (q, false)
  end.

(** *** Vocabulary of the statements about the queue *)

(** How often the executor of [tid] has been called. *)
Definition invocations (tid : string) (q : Queue) : nat :=
  count_occ string_dec (exec_log q) tid.

(** How many entries of the queue carry [tid]. *)
Definition queued (tid : string) (q : Queue) : nat :=
  count_occ string_dec (List.map fst (queue q)) tid.

Definition returning_executor : Executor := fun t => (t, Returns).

(** An executor that is interrupted: [asyncio.CancelledError] comes out
    of it. *)
Definition interrupted_executor : Executor :=
  fun t => (t, Raises ExcCancelled).

Definition failing_executor : Executor :=
  fun t => (t, Raises (ExcException "ValueError" "boom")).

Definition demo_queue (executor : Executor) : Queue :=
  (submit "t1" 0 "sync_kline" ∅ executor (Queue_init 2)).1.

Definition demo_pending_task : TaskInfo :=
  {| task_id := "t1"; task_type := "sync_kline"; params := ∅;
     status := PENDING; progress := 0;
     message := "任务已加入队列，等待执行";
     result := None; error := None; created_at := 0;
     started_at := None; completed_at := None;
     controller := Some (CancellableTask_init "t1");
     details := ∅ |}.

Definition demo_running_task : TaskInfo := mark_running 1 demo_pending_task.

Definition demo_running_queue : Queue :=
  let q := demo_queue returning_executor in
  with_tasks (alter (mark_running 1) "t1" (tasks q)) q.

End ImprovedTaskQueue.

(** ** api/v1/task_management.py: the endpoints over the queue *)
Module TaskManagementApi.

Import ImprovedTaskQueue.

(** [TaskStatus.value] *)
Definition status_value (s : TaskStatus) : string :=
  match s with
  | PENDING => "pending"
  | RUNNING => "running"
  | PAUSED => "paused"
  | SUCCESS => "success"
  | FAILED => "failed"
  | CANCELLED => "cancelled"
  end.

(** What an endpoint answers: the [HTTPException(404)] it raises for an
    unknown task, or an [ApiResponse] with its code and message. *)
Inductive Answer : Type :=
  | NotFound
  | Response (code : Z) (message : string).

(** [status.value in ["success", "failed", "cancelled"]] *)
Definition is_finished (s : TaskStatus) : bool :=
  existsb (String.eqb (status_value s)) ["success"; "failed"; "cancelled"].

(** [POST /tasks/{task_id}/cancel] *)
Definition cancel_task (tid : string) (q : Queue) : Queue * Answer :=
  match get_task tid q with
  | None => (q, NotFound)
  | Some task =>
      if is_finished (status task) then
        (q, Response 400
              ("任务已" ++ status_value (status task) ++ "，无法取消"))
      else
        let '(q', success) := ImprovedTaskQueue.cancel_task tid q in
        if success then (q', Response 200 "任务取消成功")
        else (q', Response 400 "任务无法取消")
  end.

(** [POST /tasks/{task_id}/pause] *)
Definition pause_task (tid : string) (q : Queue) : Queue * Answer :=
  match get_task tid q with
  | None => (q, NotFound)
  | Some task =>
      if negb (String.eqb (status_value (status task)) "running") then
        (q, Response 400 "只能暂停正在执行的任务")
      else
        let '(q', success) := ImprovedTaskQueue.pause_task tid q in
        if success then (q', Response 200 "任务暂停成功")
        else (q', Response 400 "任务无法暂停")
  end.

(** [POST /tasks/{task_id}/resume] *)
Definition resume_task (tid : string) (q : Queue) : Queue * Answer :=
  match get_task tid q with
  | None => (q, NotFound)
  | Some task =>
      if negb (String.eqb (status_value (status task)) "paused") then
        (q, Response 400 "只能恢复已暂停的任务")
      else
        let '(q', success) := ImprovedTaskQueue.resume_task tid q in
        if success then (q', Response 200 "任务恢复成功")
        else (q', Response 400 "任务无法恢复")
  end.

(** [DELETE /tasks/{task_id}] *)
Definition delete_task (tid : string) (q : Queue) : Queue * Answer :=
  match get_task tid q with
  | None => (q, NotFound)
  | Some task =>
      if String.eqb (status_value (status task)) "running" then
        (q, Response 400 "无法删除正在执行的任务")
      else
        (with_tasks (delete tid (tasks q)) q, Response 200 "任务记录已删除")
  end.

(** A task is waiting, running or paused. *)
Definition is_live (s : TaskStatus) : Prop :=
  s = PENDING \/ s = RUNNING \/ s = PAUSED.

(** A status no worker changes any more. *)
Definition is_terminal (s : TaskStatus) : Prop :=
  s = SUCCESS \/ s = FAILED \/ s = CANCELLED.

(** An executor that never lets a bare [BaseException] out. *)
Definition well_behaved (executor : Executor) : Prop :=
  forall t text, (executor t).2 <> Raises (ExcBaseOnly text).

(** An executor that is hit by a [KeyboardInterrupt]. *)
Definition killed_executor : Executor :=
  fun t => (t, Raises (ExcBaseOnly "KeyboardInterrupt")).

End TaskManagementApi.

(** ** task_queue.py: [class RateLimiter] *)
Module TokenBucket.

Local Open Scope Q_scope.

(** [a < b] on Python numbers. *)
Definition Qltb (a b : Q) : bool := negb (Qle_bool b a).

Record RateLimiter : Type := mkRateLimiter {
  requests_per_second : Q;
  burst_size : Z;
  tokens : Q;
  last_update : Q
}.

(** [__init__]; [now] is the reading of [time.time()]. *)
Definition RateLimiter_init (requests_per_second : Q) (burst_size : Z)
           (now : Q) : RateLimiter :=
  {| requests_per_second := requests_per_second;
     burst_size := burst_size;
     tokens := inject_Z burst_size;
     last_update := now |}.

(** The four lines that both touches of the limiter share:
    [now = time.time(); elapsed = now - self.last_update;
     self.last_update = now; self.tokens = min(burst, tokens + elapsed * rate)]. *)
Definition refill (now : Q) (rl : RateLimiter) : RateLimiter :=
  let elapsed := now - last_update rl in
  {| requests_per_second := requests_per_second rl;
     burst_size := burst_size rl;
     tokens := Qmin (inject_Z (burst_size rl))
                    (tokens rl + elapsed * requests_per_second rl);
     last_update := now |}.

(** [self.tokens -= tokens] *)
Definition consume (n : Z) (rl : RateLimiter) : RateLimiter :=
  {| requests_per_second := requests_per_second rl;
     burst_size := burst_size rl;
     tokens := tokens rl - inject_Z n;
     last_update := last_update rl |}.

(** The argument of [asyncio.sleep] in the waiting loop. *)
Definition wait_time (n : Z) (rl : RateLimiter) : Q :=
  let needed := inject_Z n - tokens rl in
  Qmin (needed / requests_per_second rl) 1.

(** What [acquire] did, in order: a refill (the clock reading, the
    elapsed time it used and the token count it stored), a sleep (its
    argument), the final deduction (the token count it stored). *)
Inductive Event : Type :=
  | EvRefill (now elapsed tokens_after : Q)
  | EvSleep (seconds : Q)
  | EvDeduct (tokens_after : Q).

(** How a call of [acquire] stands when the clock readings given to the
    model are used up: returned, raised [ZeroDivisionError] (the
    division by a zero rate), or still inside the loop. *)
Inductive AcquireResult : Type :=
  | Acquired (rl : RateLimiter)
  | ZeroDivision (rl : RateLimiter)
  | Waiting (rl : RateLimiter).

Definition refill_event (now : Q) (rl : RateLimiter) : Event :=
  EvRefill now (now - last_update rl) (tokens (refill now rl)).

(** The [while self.tokens < tokens] loop and the deduction after it;
    [clock] holds the readings of [time.time()] after each sleep. *)
Fixpoint wait_loop (n : Z) (clock : list Q) (rl : RateLimiter)
  : AcquireResult * list Event :=
  if Qltb (tokens rl) (inject_Z n) then
    if Qeq_bool (requests_per_second rl) 0 then (ZeroDivision rl, [])
    else
      match clock with
      | [] => (Waiting rl, [EvSleep (wait_time n rl)])
      | now :: clock' =>
          let '(r, tr) := wait_loop n clock' (refill now rl) in
          (r, EvSleep (wait_time n rl) :: refill_event now rl :: tr)
      end
  else (Acquired (consume n rl), [EvDeduct (tokens (consume n rl))]).

(** [acquire(tokens=n)]; [clock] holds the readings of [time.time()]
    the call sees, the first one on entry. *)
Definition acquire (n : Z) (clock : list Q) (rl : RateLimiter)
  : AcquireResult * list Event :=
  match clock with
  | [] => (Waiting rl, [])
  | now :: clock' =>
      let '(r, tr) := wait_loop n clock' (refill now rl) in
      (r, refill_event now rl :: tr)
  end.

(** A sequence of calls on one limiter, each with the number of tokens
    it asks for and the clock readings it sees; it stops at the first
    call that does not return. *)
Fixpoint acquire_all (calls : list (Z * list Q)) (rl : RateLimiter)
  : AcquireResult * list Event :=
  match calls with
  | [] => (Acquired rl, [])
  | (n, clock) :: calls' =>
      match acquire n clock rl with
      | (Acquired rl', tr) =>
          let '(r, tr') := acquire_all calls' rl' in (r, (tr ++ tr')%list)
      | (r, tr) => (r, tr)
      end
  end.

(** *** Vocabulary of the statements about the limiter *)

(** The token count is within [0, burst_size]. *)
Definition in_range (rl : RateLimiter) : Prop :=
  0 <= tokens rl /\ tokens rl <= inject_Z (burst_size rl).

(** The token count an event stores is within [0, B]. *)
Definition event_in_range (B : Z) (ev : Event) : Prop :=
  match ev with
  | EvRefill _ _ tk => 0 <= tk /\ tk <= inject_Z B
  | EvSleep _ => True
  | EvDeduct tk => 0 <= tk /\ tk <= inject_Z B
  end.

(** Wall-clock time does not go back: every reading is at least the
    one before it, starting from [t]. *)
Fixpoint nondecreasing_from (t : Q) (clock : list Q) : Prop :=
  match clock with
  | [] => True
  | now :: clock' => t <= now /\ nondecreasing_from now clock'
  end.

(** [asyncio.sleep(d)] lasts at least [d]: the reading taken after a
    sleep of the waiting loop is at least that much later than the one
    taken before it. *)
Fixpoint sleeps_honoured (n : Z) (clock : list Q) (rl : RateLimiter)
  : Prop :=
  match clock with
  | [] => True
  | now :: clock' =>
      if Qltb (tokens rl) (inject_Z n) then
        last_update rl + wait_time n rl <= now
        /\ sleeps_honoured n clock' (refill now rl)
      else True
  end.

(** The arguments of the sleeps of a trace, in order. *)
Fixpoint sleeps (tr : list Event) : list Q :=
  match tr with
  | [] => []
  | EvSleep d :: tr' => d :: sleeps tr'
  | _ :: tr' => sleeps tr'
  end.

(** The clock readings of the refills of a trace, in order. *)
Fixpoint refill_readings (tr : list Event) : list Q :=
  match tr with
  | [] => []
  | EvRefill now _ _ :: tr' => now :: refill_readings tr'
  | _ :: tr' => refill_readings tr'
  end.

(** The discipline the specification asks of a call that wants [n]
    tokens from a bucket of rate [r] and capacity [B], read off a
    trace that starts with [tk] tokens last updated at [last]:
    - a refill uses the time elapsed since the last update and stores
      [min(B, tokens + elapsed * r)];
    - a sleep happens only while the tokens are short, lasts
      [min(deficit / r, 1)], at most one second, and the next thing
      the call does is a refill;
    - the deduction happens once the tokens suffice, takes exactly [n]
      and ends the call. *)
Fixpoint chunked_trace (n : Z) (r : Q) (B : Z) (tk last : Q)
         (tr : list Event) : Prop :=
  match tr with
  | [] => True
  | EvRefill now elapsed tk' :: tr' =>
      elapsed == now - last
      /\ tk' == Qmin (inject_Z B) (tk + elapsed * r)
      /\ chunked_trace n r B tk' now tr'
  | EvSleep d :: tr' =>
      tk < inject_Z n
      /\ d == Qmin ((inject_Z n - tk) / r) 1
      /\ d <= 1
      /\ match tr' with
         | [] | EvRefill _ _ _ :: _ => True
         | _ => False
         end
      /\ chunked_trace n r B tk last tr'
  | EvDeduct tk' :: tr' =>
      inject_Z n <= tk
      /\ tk' == tk - inject_Z n
      /\ tr' = []
  end.

(** The limiter a call left behind. *)
Definition state_of (r : AcquireResult) : RateLimiter :=
  match r with
  | Acquired rl => rl
  | ZeroDivision rl => rl
  | Waiting rl => rl
  end.

(** Time does not go back before the call reads the clock on entry,
    and every sleep of the call is honoured. *)
Definition acquire_sleeps_honoured (n : Z) (clock : list Q)
           (rl : RateLimiter) : Prop :=
  match clock with
  | [] => True
  | now :: clock' =>
      last_update rl <= now /\ sleeps_honoured n clock' (refill now rl)
  end.

(** Enough clock readings for a call that wants [n] tokens at rate [r]:
    the one on entry and one per second of [n / r]. *)
Definition enough_readings (n : Z) (r : Q) : nat :=
  S (Z.to_nat (Qceiling (inject_Z n / r))).

(** Two calls on the default limiter of the queue (0.2 requests per
    second, burst 3): the first takes the whole burst at once, the
    second has to wait five seconds for its token. *)
Definition demo_calls : list (Z * list Q) :=
  [(3%Z, [0]); (1%Z, [0; 1; 2; 3; 4; 5])].

(** The tokens a sequence of calls asks for in total. *)
Definition requested (calls : list (Z * list Q)) : Z :=
  fold_right Z.add 0%Z (List.map fst calls).

(** The default limiter of the queue with its burst used up. *)
Definition demo_drained : RateLimiter :=
  {| requests_per_second := 1 # 5; burst_size := 3;
     tokens := 0; last_update := 0 |}.

Definition demo_clock : list Q := [0; 1; 2; 3; 4; 5].

End TokenBucket.

(** ** high_performance_sync.py: [class ConcurrentRateLimiter] *)
Module DualLimiter.

Local Open Scope Q_scope.

(** [semaphore] is the counter of the [asyncio.Semaphore]: the number
    of free slots. *)
Record ConcurrentRateLimiter : Type := mkConcurrentRateLimiter {
  max_concurrent : Z;
  semaphore : Z;
  rate_per_second : Q;
  last_request_time : Q
}.

(** [__init__]; [asyncio.Semaphore] refuses a negative initial value
    with a [ValueError]. *)
Definition ConcurrentRateLimiter_init (max_concurrent : Z)
           (rate_per_second : Q) : option ConcurrentRateLimiter :=
  if (max_concurrent <? 0)%Z then None
  else Some {| max_concurrent := max_concurrent;
               semaphore := max_concurrent;
               rate_per_second := rate_per_second;
               last_request_time := 0 |}.

(** What [acquire] did, in order. *)
Inductive Event : Type :=
  | EvSlot
  | EvSleep (seconds : Q)
  | EvStamp (now : Q).

(** How a call of [acquire] stands: returned, parked on the semaphore,
    or raised [ZeroDivisionError] computing [1.0 / rate]. *)
Inductive AcquireResult : Type :=
  | Granted
  | Blocked
  | ZeroDivision.

Definition take_slot (s : ConcurrentRateLimiter) : ConcurrentRateLimiter :=
  {| max_concurrent := max_concurrent s;
     semaphore := (semaphore s - 1)%Z;
     rate_per_second := rate_per_second s;
     last_request_time := last_request_time s |}.

Definition stamp (now : Q) (s : ConcurrentRateLimiter)
  : ConcurrentRateLimiter :=
  {| max_concurrent := max_concurrent s;
     semaphore := semaphore s;
     rate_per_second := rate_per_second s;
     last_request_time := now |}.

(** [acquire]; [now] is the reading of the loop clock under the lock,
    [now'] the one taken for the new timestamp. A call that finds no
    free slot stays parked and has changed nothing. *)
Definition acquire (now now' : Q) (s : ConcurrentRateLimiter)
  : AcquireResult * ConcurrentRateLimiter * list Event :=
  if (semaphore s =? 0)%Z then (Blocked, s, [])
  else
    let s1 := take_slot s in
    let time_since_last := now - last_request_time s1 in
    if Qeq_bool (rate_per_second s1) 0 then (ZeroDivision, s1, [EvSlot])
    else
      let min_interval := 1 / rate_per_second s1 in
      if TokenBucket.Qltb time_since_last min_interval then
        (Granted, stamp now' s1,
         [EvSlot; EvSleep (min_interval - time_since_last); EvStamp now'])
      else (Granted, stamp now' s1, [EvSlot; EvStamp now']).

(** [release] *)
Definition release (s : ConcurrentRateLimiter) : ConcurrentRateLimiter :=
  {| max_concurrent := max_concurrent s;
     semaphore := (semaphore s + 1)%Z;
     rate_per_second := rate_per_second s;
     last_request_time := last_request_time s |}.

(** Slots currently held. *)
Definition in_flight (s : ConcurrentRateLimiter) : Z :=
  (max_concurrent s - semaphore s)%Z.

(** The argument of the [asyncio.sleep] of [acquire], zero when it does
    not sleep. *)
Definition slept (now : Q) (s : ConcurrentRateLimiter) : Q :=
  let time_since_last := now - last_request_time s in
  let min_interval := 1 / rate_per_second s in
  if TokenBucket.Qltb time_since_last min_interval
  then min_interval - time_since_last else 0.

(** Calls of [acquire] one after the other, whatever their outcome, each
    with its two clock readings. *)
Fixpoint acquire_each (readings : list (Q * Q)) (s : ConcurrentRateLimiter)
  : ConcurrentRateLimiter :=
  match readings with
  | [] => s
  | (now, now') :: readings' =>
      acquire_each readings' (acquire now now' s).1.2
  end.

Definition stalled_limiter : ConcurrentRateLimiter :=
  {| max_concurrent := 2; semaphore := 2;
     rate_per_second := 0; last_request_time := 0 |}.

Definition demo_limiter : ConcurrentRateLimiter :=
  {| max_concurrent := 5; semaphore := 5;
     rate_per_second := 1 # 2; last_request_time := 100 |}.

End DualLimiter.

(** ** high_performance_sync.py: [class BatchWriter] *)
Module BatchWriter.

Local Open Scope Q_scope.

Section Writer.
(** The buffered items ([Dict] in the source). *)
Context {Item : Type}.

Record BatchWriter : Type := mkBatchWriter {
  batch_size : Z;
  flush_interval : Q;
  buffer : list Item;
  last_flush : Q
}.

(** [__init__]; [now] is the reading of the loop clock. *)
Definition BatchWriter_init (batch_size : Z) (flush_interval : Q)
           (now : Q) : BatchWriter :=
  {| batch_size := batch_size;
     flush_interval := flush_interval;
     buffer := [];
     last_flush := now |}.

(** [add]; [now] is the reading of the loop clock. *)
Definition add (item : Item) (now : Q) (w : BatchWriter)
  : BatchWriter * bool :=
  let buffer' := (buffer w ++ [item])%list in
  let should_flush :=
    (batch_size w <=? Z.of_nat (length buffer'))%Z
    || Qle_bool (flush_interval w) (now - last_flush w) in
  ({| batch_size := batch_size w;
      flush_interval := flush_interval w;
      buffer := buffer';
      last_flush := if should_flush then now else last_flush w |},
   should_flush).

(** [get_batch] *)
Definition get_batch (w : BatchWriter) : BatchWriter * list Item :=
  let batch := buffer w in
  ({| batch_size := batch_size w;
      flush_interval := flush_interval w;
      buffer := [];
      last_flush := last_flush w |},
   batch).

(** Items added one after the other, each with the clock reading of
    its call, and no [get_batch] in between. *)
Fixpoint add_all (items : list (Item * Q)) (w : BatchWriter)
  : BatchWriter :=
  match items with
  | [] => w
  | (item, now) :: items' => add_all items' (add item now w).1
  end.

End Writer.

Arguments BatchWriter Item : clear implicits.

Section WriterUse.
Context {Item : Type}.

(** What a caller does with the writer. *)
Inductive Op : Type :=
  | OpAdd (item : Item) (now : Q)
  | OpGetBatch.

(** A sequence of calls on one writer; the batches [get_batch] handed
    out are collected in order. *)
Fixpoint run_ops (ops : list Op) (w : BatchWriter Item)
  : BatchWriter Item * list (list Item) :=
  match ops with
  | [] => (w, [])
  | OpAdd item now :: ops' => run_ops ops' (add item now w).1
  | OpGetBatch :: ops' =>
      let '(w', batch) := get_batch w in
      let '(w'', batches) := run_ops ops' w' in
      (w'', batch :: batches)
  end.

(** The items a sequence of calls adds, in order. *)
Fixpoint added (ops : list Op) : list Item :=
  match ops with
  | [] => []
  | OpAdd item _ :: ops' => item :: added ops'
  | OpGetBatch :: ops' => added ops'
  end.

(** What [_sync_single_stock] does with a fetched result:
    [should_flush = await batch_writer.add(...)] and, if it is set,
    [batch = await batch_writer.get_batch()] followed by the flush of
    that batch. [flushed] collects the batches handed to
    [_flush_batch_to_db], oldest first. *)
Definition add_and_flush (item : Item) (now : Q)
           (st : BatchWriter Item * list (list Item))
  : BatchWriter Item * list (list Item) :=
  let '(w, flushed) := st in
  let '(w1, should_flush) := add item now w in
  if should_flush then
    let '(w2, batch) := get_batch w1 in (w2, (flushed ++ [batch])%list)
  else (w1, flushed).

(** The end of [sync_kline_high_performance]:
    [final_batch = await batch_writer.get_batch()], flushed if it is not
    empty. *)
Definition final_flush (st : BatchWriter Item * list (list Item))
  : BatchWriter Item * list (list Item) :=
  let '(w, flushed) := st in
  let '(w1, final_batch) := get_batch w in
  match final_batch with
  | [] => (w1, flushed)
  | _ :: _ => (w1, (flushed ++ [final_batch])%list)
  end.

(** The results of a whole sync, pushed one after the other, and the
    final flush. *)
Definition sync_all (items : list (Item * Q)) (w : BatchWriter Item)
  : BatchWriter Item * list (list Item) :=
  final_flush
    (fold_left (fun st x => add_and_flush x.1 x.2 st) items (w, [])).

End WriterUse.

Definition demo_writer : BatchWriter string := BatchWriter_init 2 3 0.

Definition demo_items : list (string * Q) := [("a", 0); ("b", 1)].

End BatchWriter.

(** ** high_performance_sync.py: the stock rows of [sync_stock_list]

    Strings are byte strings here and code points in Python; the code
    below only looks for ASCII characters, which no multi-byte UTF-8
    sequence contains, so that splitting and prefix tests agree. *)
Module StockList.
Import Stdlib.Strings.Ascii.

(** [s.split(sep)] for a separator of one character: never empty. *)
Fixpoint split (sep : Ascii.ascii) (s : string) : list string :=
  match s with
  | EmptyString => [EmptyString]
  | String c s' =>
      if Ascii.eqb c sep then EmptyString :: split sep s'
      else match split sep s' with
           | h :: t => String c h :: t
           | [] => [String c EmptyString]
           end
  end.

(** [sep in s] *)
Fixpoint contains_char (sep : Ascii.ascii) (s : string) : bool :=
  match s with
  | EmptyString => false
  | String c s' => Ascii.eqb c sep || contains_char sep s'
  end.

(** [s.split('.')[0]] and [s.split('.')[-1]] *)
Definition first_field (s : string) : string :=
  hd EmptyString (split "."%char s).

Definition last_field (s : string) : string :=
  List.last (split "."%char s) EmptyString.

(** [s.startswith(p)] *)
Definition startswith (s p : string) : bool := String.prefix p s.

Definition _get_board_from_code (ts_code : string) : string :=
  let code := first_field ts_code in
  if startswith code "6" then "沪主板"
  else if startswith code "0" then "深主板"
  else if startswith code "30" then "创业板"
  else if startswith code "688" then "科创板"
  else if startswith code "8" then "北交所"
  else EmptyString.

Definition market_names : gmap string string :=
  <["SH" := "上海"]> (<["SZ" := "深圳"]> (<["BJ" := "北京"]> ∅)).

(** [names.get(market, market)] *)
Definition _get_market_name (market : string) : string :=
  default market (market_names !! market).

(** The suffix given to a code that comes without one. *)
Definition with_suffix (code : string) : string :=
  if negb (contains_char "."%char code)
  then if startswith code "6" then code ++ ".SH" else code ++ ".SZ"
  else code.

(** The dict [stock_data] built for a row of the provider's table. *)
Record StockData : Type := mkStockData {
  sd_ts_code : string;
  sd_symbol : string;
  sd_name : string;
  sd_market : string;
  sd_board : string;
  sd_market_name : string;
  sd_is_active : bool
}.

Definition stock_data (row_code row_name : string) : StockData :=
  let ts_code := with_suffix row_code in
  let board := _get_board_from_code ts_code in
  let market := last_field ts_code in
  {| sd_ts_code := ts_code;
     sd_symbol := first_field ts_code;
     sd_name := row_name;
     sd_market := market;
     sd_board := board;
     sd_market_name := _get_market_name market;
     sd_is_active := true |}.

End StockList.

(** ** batch_sync_manager.py: [class BatchSyncManager] *)
Module BatchSyncManager.

(** A [date], as its proleptic ordinal. *)
Definition date_min : Z := 1.

(** The columns of a [Stock] row the manager reads. *)
Record Stock : Type := mkStock {
  ts_code : string;
  name : string;
  is_active : bool
}.

(** The part of the database the manager reads: the rows of [Stock] in
    the order the query returns them, and for each code the latest
    [KlineDaily.trade_date], if any. *)
Record Session : Type := mkSession {
  stock_rows : list Stock;
  latest_kline : gmap string Z
}.

(** [AKShareService._get_latest_kline_date] *)
Definition _get_latest_kline_date (db : Session) (code : string)
  : option Z :=
  latest_kline db !! code.

(** [keyword in s] *)
Fixpoint contains (keyword s : string) : bool :=
  String.prefix keyword s
  || match s with
     | EmptyString => false
     | String _ s' => contains keyword s'
     end.

(** [any(keyword in s.name for keyword in ['ST', '*ST', '退'])] *)
Definition is_st (s : Stock) : bool :=
  existsb (fun keyword => contains keyword (name s)) ["ST"; "*ST"; "退"].

(** An entry of [stock_priority]. *)
Record PriorityItem : Type := mkPriorityItem {
  stock : Stock;
  latest_date : Z
}.

(** [list.sort(key=lambda x: x['latest_date'])]: the stable sort, as
    an insertion from the right that puts an item before the items
    that followed it and are not older. *)
Fixpoint insert_by_date (x : PriorityItem) (l : list PriorityItem)
  : list PriorityItem :=
  match l with
  | [] => [x]
  | y :: l' =>
      if (latest_date x <=? latest_date y)%Z then x :: y :: l'
      else y :: insert_by_date x l'
  end.

Definition sort_by_date (l : list PriorityItem) : list PriorityItem :=
  foldr insert_by_date [] l.

Record Batch : Type := mkBatch {
  batch_id : string;
  batch_index : Z;
  total_batches : Z;
  stocks : list PriorityItem;
  stock_count : Z;
  status : string;
  created_at : Z
}.

(** The two readings [create_batches] takes of the wall clock:
    [datetime.now().strftime('%Y%m%d_%H%M%S')] and [datetime.now()]. *)
Record Clock : Type := mkClock {
  strftime_now : string;
  datetime_now : Z
}.

(** What a call of [create_batches] gives back: the bare list of its
    early return, the pair of its normal return, or the [ValueError]
    of [range] with a zero step. *)
Inductive CreateResult : Type :=
  | RetList (batches : list Batch)
  | RetPair (batches : list Batch) (batch_id_prefix : string)
  | RaiseValueError.

(** Truth value of a Python string. *)
Definition truthy (s : string) : bool := negb (String.eqb s "").

(** [range(0, stop, step)] *)
Definition range0 (stop : nat) (step : Z) : option (list Z) :=
  if (step =? 0)%Z then None
  else if (step <? 0)%Z then Some []
  else Some (List.map (fun k : nat => (Z.of_nat k * step)%Z)
                      (seq 0 (Z.to_nat ((Z.of_nat stop + step - 1) / step)))).

(** [l[i:j]] for [0 <= i <= j] *)
Definition slice {A : Type} (l : list A) (i j : Z) : list A :=
  firstn (Z.to_nat j - Z.to_nat i) (skipn (Z.to_nat i) l).

(** The stocks [create_batches] keeps: active, not ST. *)
Definition sync_targets (db : Session) : list Stock :=
  List.filter (fun s => negb (is_st s))
              (List.filter (fun s => is_active s) (stock_rows db)).

(** [latest_date and latest_date >= latest_trade_date] *)
Definition is_fresh (db : Session) (latest_trade_date : Z) (s : Stock)
  : bool :=
  match _get_latest_kline_date db (ts_code s) with
  | Some d => (latest_trade_date <=? d)%Z
  | None => false
  end.

(** [stock_priority] before it is sorted. *)
Definition stock_priority (db : Session) (latest_trade_date : Z)
           (force_full_sync : bool) : list PriorityItem :=
  let stocks :=
    if negb force_full_sync then
      List.filter (fun s => negb (is_fresh db latest_trade_date s))
                  (sync_targets db)
    else sync_targets db in
  List.map (fun s =>
              {| stock := s;
                 latest_date :=
                   match _get_latest_kline_date db (ts_code s) with
                   | Some d => d
                   | None => date_min
                   end |})
           stocks.

(** The [batch_id] of the batch that starts at index [i]. *)
Definition batch_id_at (batch_size : Z) (clock : Clock)
           (batch_id_prefix : string) (i : Z) : string :=
  if truthy batch_id_prefix then
    batch_id_prefix ++ "_" ++ str_of_Z (i / batch_size + 1)
  else
    "batch_" ++ strftime_now clock ++ "_" ++ str_of_Z (i / batch_size + 1).

(** One pass through the body of the loop that creates the batches. *)
Definition append_batch (batch_size : Z) (clock : Clock)
           (batch_id_prefix : string) (sorted : list PriorityItem)
           (batches : list Batch) (i : Z) : list Batch :=
  let batch_stocks := slice sorted i (i + batch_size) in
  let batch_id := batch_id_at batch_size clock batch_id_prefix i in
  (batches
     ++ [{| batch_id := batch_id;
            batch_index := Z.of_nat (length batches) + 1;
            total_batches :=
              (Z.of_nat (length sorted) + batch_size - 1) / batch_size;
            stocks := batch_stocks;
            stock_count := Z.of_nat (length batch_stocks);
            status := "pending";
            created_at := datetime_now clock |}])%list.

(** [create_batches]; [batch_size] is [self.batch_size],
    [latest_trade_date] what [_get_latest_trade_date()] answers. *)
Definition create_batches (batch_size : Z) (clock : Clock)
           (latest_trade_date : Z) (db : Session) (force_full_sync : bool)
           (batch_id_prefix : option string) : CreateResult :=
  let batch_id_prefix :=
    match batch_id_prefix with
    | Some p => if truthy p then p else strftime_now clock
    | None => strftime_now clock
    end in
  match sync_targets db with
  | [] => RetList []
  | _ :: _ =>
      let sorted :=
        sort_by_date (stock_priority db latest_trade_date force_full_sync) in
      match range0 (length sorted) batch_size with
      | None => RaiseValueError
      | Some starts =>
          RetPair
            (fold_left (append_batch batch_size clock batch_id_prefix sorted)
                       starts [])
            batch_id_prefix
      end
  end.

(** What [batches, prefix = manager.create_batches(...)] binds: the
    two components of a pair, the two elements of a list of length
    two, and otherwise the [ValueError] of the unpacking. *)
Inductive Unpacked : Type :=
  | UnpackedPair (batches : list Batch) (batch_id_prefix : string)
  | UnpackedItems (first second : Batch)
  | UnpackValueError.

Definition unpack_pair (r : CreateResult) : option Unpacked :=
  match r with
  | RetPair batches p => Some (UnpackedPair batches p)
  | RetList [a; b] => Some (UnpackedItems a b)
  | RetList _ => Some UnpackValueError
  | RaiseValueError => None
  end.

(** A batch without the time it was created at. *)
Definition batch_plan (b : Batch)
  : string * Z * Z * list PriorityItem * Z * string :=
  (batch_id b, batch_index b, total_batches b, stocks b, stock_count b,
   status b).

(** A result without the times its batches were created at. *)
Definition result_plan (r : CreateResult)
  : option (list (string * Z * Z * list PriorityItem * Z * string)
            * option string) :=
  match r with
  | RetList batches => Some (List.map batch_plan batches, None)
  | RetPair batches p => Some (List.map batch_plan batches, Some p)
  | RaiseValueError => None
  end.

(** The id the specification gives the [k]-th batch of a plan:
    [{prefix}_{k}]. *)
Definition numbered_id (batch_id_prefix : string) (k : nat) : string :=
  batch_id_prefix ++ "_" ++ str_of_Z (Z.of_nat k).

(** The batch ids of a result, in order. *)
Definition batch_ids (r : CreateResult) : list string :=
  match r with
  | RetList batches => List.map batch_id batches
  | RetPair batches _ => List.map batch_id batches
  | RaiseValueError => []
  end.

(** The order of the sort key. *)
Definition date_le (a b : PriorityItem) : Prop :=
  (latest_date a <= latest_date b)%Z.

(** *** [execute_batch] *)

(** [round(x, 2)], on exact values: to the nearest hundredth, ties to
    the even one. *)
Definition round2 (x : Q) : Q :=
  let y := (x * 100)%Q in
  let f := Qfloor y in
  let d := (y - inject_Z f)%Q in
  let n :=
    if TokenBucket.Qltb d (1 # 2) then f
    else if TokenBucket.Qltb (1 # 2) d then (f + 1)%Z
    else if Z.even f then f else (f + 1)%Z in
  (inject_Z n / 100)%Q.

(** An entry of [_batch_progress_store]; [end_time] is absent until
    the batch has finished. *)
Record BatchProgress : Type := mkBatchProgress {
  bp_batch_id : string;
  bp_batch_index : Z;
  bp_total_batches : Z;
  bp_total_count : Z;
  bp_current_index : Z;
  bp_current_stock : option (string * string);
  bp_progress : Q;
  bp_status : string;
  bp_succeeded_count : Z;
  bp_failed_count : Z;
  bp_skipped_count : Z;
  bp_start_time : string;
  bp_message : string;
  bp_end_time : option string
}.

(** An entry of the [succeeded] list. *)
Record Succeeded : Type := mkSucceeded {
  s_ts_code : string;
  s_name : string;
  s_count : Z;
  s_sync_mode : string
}.

(** An entry of the [failed] list. *)
Record Failed : Type := mkFailed {
  f_ts_code : string;
  f_name : string;
  f_error : string
}.

(** The dictionary [execute_batch] returns. *)
Record BatchResult : Type := mkBatchResult {
  r_batch_id : string;
  r_batch_index : Z;
  r_total_batches : Z;
  r_success : bool;
  r_message : string;
  r_total : Z;
  r_skipped : Z;
  r_succeeded_count : Z;
  r_failed_count : Z;
  r_succeeded : list Succeeded;
  r_failed : list Failed
}.

(** What [sync_stock_kline_to_db] did: it returned its dictionary
    ([success], [message], [count], [sync_mode]) or raised. *)
Inductive SyncOutcome : Type :=
  | SyncReturns (success : bool) (message : string) (count : Z)
                (sync_mode : string)
  | SyncRaises (e : PyExc).

(** What [execute_batch] meets outside itself: the answer of the
    [i]-th call of [sync_stock_kline_to_db] (for a code and the flag),
    the progress callback (absent, or a function that returns or
    raises), [date.today()] and [datetime.now().isoformat()]. *)
Record Env : Type := mkEnv {
  sync_stock_kline_to_db : Z -> string -> bool -> SyncOutcome;
  progress_callback : option (Q -> string -> option PyExc);
  today : Z;
  isoformat_now : string
}.

(** The locals of the loop of [execute_batch] and the global store. *)
Record Loop : Type := mkLoop {
  store : gmap string BatchProgress;
  succeeded : list Succeeded;
  failed : list Failed;
  skipped : Z
}.

(** [f"[批次 {index}/{total_batches}] [{i}/{total_count}] 同步 {ts_code} {name}"] *)
Definition item_message (batch : Batch) (i total_count : Z) (s : Stock)
  : string :=
  "[批次 " ++ str_of_Z (batch_index batch) ++ "/"
    ++ str_of_Z (total_batches batch) ++ "] [" ++ str_of_Z i ++ "/"
    ++ str_of_Z total_count ++ "] 同步 " ++ ts_code s ++ " " ++ name s.

(** The [update] of the progress entry before an item is processed. *)
Definition item_update (i : Z) (s : Stock) (progress : Q) (msg : string)
           (p : BatchProgress) : BatchProgress :=
  mkBatchProgress (bp_batch_id p) (bp_batch_index p) (bp_total_batches p)
                  (bp_total_count p) i (Some (ts_code s, name s))
                  (round2 progress) (bp_status p) (bp_succeeded_count p)
                  (bp_failed_count p) (bp_skipped_count p)
                  (bp_start_time p) msg (bp_end_time p).

(** [not force_full_sync and latest_date and latest_date >= recent_threshold] *)
Definition skip_recent (env : Env) (force_full_sync : bool)
           (item : PriorityItem) : bool :=
  negb force_full_sync && (today env - 7 <=? latest_date item)%Z.

(** The handler [except Exception as e] of the loop body; what it does
    not take goes on to the caller. *)
Definition on_item_exception (s : Stock) (e : PyExc) (st : Loop)
  : Loop * option PyExc :=
  match e with
  | ExcException cls text =>
      (mkLoop (store st) (succeeded st)
              (failed st
                 ++ [{| f_ts_code := ts_code s; f_name := name s;
                        f_error := cls ++ ": " ++ text |}])%list
              (skipped st),
       None)
  | _ => (st, Some e)
  end.

(** One pass through the body of the loop, for item number [i]. *)
Definition process_item (env : Env) (batch : Batch) (total_count : Z)
           (force_full_sync : bool) (i : Z) (item : PriorityItem)
           (st : Loop) : Loop * option PyExc :=
  let s := stock item in
  let progress := (inject_Z (i - 1) / inject_Z total_count * 100)%Q in
  let msg := item_message batch i total_count s in
  match match progress_callback env with
        | Some cb => cb progress msg
        | None => None
        end with
  | Some e => on_item_exception s e st
  | None =>
      let st1 :=
        mkLoop (alter (item_update i s progress msg) (batch_id batch)
                      (store st))
               (succeeded st) (failed st) (skipped st) in
      if skip_recent env force_full_sync item then
        (mkLoop (store st1) (succeeded st1) (failed st1)
                (skipped st1 + 1)%Z,
         None)
      else
        match sync_stock_kline_to_db env i (ts_code s) force_full_sync with
        | SyncRaises e => on_item_exception s e st1
        | SyncReturns true _ count sync_mode =>
            (mkLoop (store st1)
                    (succeeded st1
                       ++ [{| s_ts_code := ts_code s; s_name := name s;
                              s_count := count;
                              s_sync_mode := sync_mode |}])%list
                    (failed st1) (skipped st1),
             None)
        | SyncReturns false message _ _ =>
            (mkLoop (store st1) (succeeded st1)
                    (failed st1
                       ++ [{| f_ts_code := ts_code s; f_name := name s;
                              f_error := message |}])%list
                    (skipped st1),
             None)
        end
  end.

(** [for i, item in enumerate(stocks, i):] *)
Fixpoint run_items (env : Env) (batch : Batch) (total_count : Z)
         (force_full_sync : bool) (i : Z) (items : list PriorityItem)
         (st : Loop) : Loop * option PyExc :=
  match items with
  | [] => (st, None)
  | item :: items' =>
      match process_item env batch total_count force_full_sync i item st
      with
      | (st', Some e) => (st', Some e)
      | (st', None) =>
          run_items env batch total_count force_full_sync (i + 1)%Z
                    items' st'
      end
  end.

(** The entry [execute_batch] publishes before it starts. *)
Definition initial_progress (env : Env) (batch : Batch) (total_count : Z)
  : BatchProgress :=
  {| bp_batch_id := batch_id batch;
     bp_batch_index := batch_index batch;
     bp_total_batches := total_batches batch;
     bp_total_count := total_count;
     bp_current_index := 0;
     bp_current_stock := None;
     bp_progress := 0;
     bp_status := "running";
     bp_succeeded_count := 0;
     bp_failed_count := 0;
     bp_skipped_count := 0;
     bp_start_time := isoformat_now env;
     bp_message := "准备执行批次 " ++ str_of_Z (batch_index batch) ++ "/"
                     ++ str_of_Z (total_batches batch);
     bp_end_time := None |}.

(** The [update] of the progress entry after the loop. *)
Definition final_update (env : Env) (batch : Batch) (total_count : Z)
           (st : Loop) (p : BatchProgress) : BatchProgress :=
  let ns := Z.of_nat (length (succeeded st)) in
  let nf := Z.of_nat (length (failed st)) in
  mkBatchProgress (bp_batch_id p) (bp_batch_index p) (bp_total_batches p)
                  (bp_total_count p) total_count (bp_current_stock p)
                  100
                  (if (nf =? 0)%Z then "completed"
                   else "completed_with_errors")
                  ns nf (skipped st) (bp_start_time p)
                  ("批次 " ++ str_of_Z (batch_index batch) ++ " 完成：成功 "
                     ++ str_of_Z ns ++ "，失败 " ++ str_of_Z nf ++ "，跳过 "
                     ++ str_of_Z (skipped st))
                  (Some (isoformat_now env)).

(** How a call of [execute_batch] ends. *)
Inductive ExecResult : Type :=
  | ExecReturned (result : BatchResult)
  | ExecRaised (e : PyExc).

(** [execute_batch]; the global [_batch_progress_store] goes in and
    comes out. *)
Definition execute_batch (env : Env)
           (progress_store : gmap string BatchProgress) (batch : Batch)
           (force_full_sync : bool)
  : ExecResult * gmap string BatchProgress :=
  let total_count := Z.of_nat (length (stocks batch)) in
  let store0 :=
    <[batch_id batch := initial_progress env batch total_count]>
      progress_store in
  match run_items env batch total_count force_full_sync 1 (stocks batch)
                  (mkLoop store0 [] [] 0) with
  | (st, Some e) => (ExecRaised e, store st)
  | (st, None) =>
      let ns := Z.of_nat (length (succeeded st)) in
      let nf := Z.of_nat (length (failed st)) in
      (ExecReturned
         {| r_batch_id := batch_id batch;
            r_batch_index := batch_index batch;
            r_total_batches := total_batches batch;
            r_success := (nf =? 0)%Z;
            r_message := "批次 " ++ str_of_Z (batch_index batch) ++ " 完成";
            r_total := total_count;
            r_skipped := skipped st;
            r_succeeded_count := ns;
            r_failed_count := nf;
            r_succeeded := succeeded st;
            r_failed := failed st |},
       alter (final_update env batch total_count st) (batch_id batch)
             (store st))
  end.

(** [get_batch_execution_progress] *)
Definition get_batch_execution_progress (batch_id : string)
           (progress_store : gmap string BatchProgress)
  : option BatchProgress :=
  progress_store !! batch_id.

(** [clear_batch_progress] *)
Definition clear_batch_progress (batch_id : string)
           (progress_store : gmap string BatchProgress)
  : gmap string BatchProgress :=
  delete batch_id progress_store.

(** The progress callback, if there is one, returns normally. *)
Definition callback_returns (env : Env) : Prop :=
  match progress_callback env with
  | Some cb => forall progress msg, cb progress msg = None
  | None => True
  end.

(** Item number [i] is not skipped and its sync returns success. *)
Definition item_succeeds (env : Env) (force_full_sync : bool) (i : Z)
           (item : PriorityItem) : Prop :=
  skip_recent env force_full_sync item = false
  /\ exists message count sync_mode,
       sync_stock_kline_to_db env i (ts_code (stock item)) force_full_sync
       = SyncReturns true message count sync_mode.

(** Item number [i] is not skipped and its sync raises the
    [Exception] of class [cls] with text [text]. *)
Definition item_raises (env : Env) (force_full_sync : bool) (i : Z)
           (item : PriorityItem) (cls text : string) : Prop :=
  skip_recent env force_full_sync item = false
  /\ sync_stock_kline_to_db env i (ts_code (stock item)) force_full_sync
     = SyncRaises (ExcException cls text).

(** *** [get_sync_progress] *)

(** An entry of [stock_status]. *)
Record StockStatus : Type := mkStockStatus {
  ss_ts_code : string;
  ss_name : string;
  ss_latest_date : option Z
}.

(** The dictionary [get_sync_progress] returns. *)
Record SyncProgress : Type := mkSyncProgress {
  sp_total_stocks : Z;
  sp_need_update : Z;
  sp_up_to_date : Z;
  sp_need_update_list : list StockStatus;
  sp_up_to_date_list : list StockStatus
}.

(** [s['latest_date'] is None or s['latest_date'] < latest_trade_date] *)
Definition needs_update (latest_trade_date : Z) (s : StockStatus) : bool :=
  match ss_latest_date s with
  | None => true
  | Some d => (d <? latest_trade_date)%Z
  end.

(** [s['latest_date'] and s['latest_date'] >= latest_trade_date] *)
Definition is_up_to_date (latest_trade_date : Z) (s : StockStatus) : bool :=
  match ss_latest_date s with
  | None => false
  | Some d => (latest_trade_date <=? d)%Z
  end.

(** [get_sync_progress]; [latest_trade_date] is what
    [_get_latest_trade_date()] answers. *)
Definition get_sync_progress (latest_trade_date : Z) (db : Session)
  : SyncProgress :=
  let valid_stocks := sync_targets db in
  let stock_status :=
    List.map (fun s =>
                {| ss_ts_code := ts_code s; ss_name := name s;
                   ss_latest_date := _get_latest_kline_date db (ts_code s) |})
             valid_stocks in
  let need_update := List.filter (needs_update latest_trade_date) stock_status in
  let up_to_date := List.filter (is_up_to_date latest_trade_date) stock_status in
  {| sp_total_stocks := Z.of_nat (length valid_stocks);
     sp_need_update := Z.of_nat (length need_update);
     sp_up_to_date := Z.of_nat (length up_to_date);
     sp_need_update_list := firstn 10 need_update;
     sp_up_to_date_list := firstn 10 up_to_date |}.

(** *** Vocabulary of the statements about the plan *)

(** The stocks a plan has to contain: the sync targets, without the
    fresh ones unless the sync is forced. *)
Definition selected (db : Session) (latest_trade_date : Z)
           (force_full_sync : bool) : list Stock :=
  List.filter (fun s => force_full_sync
                        || negb (is_fresh db latest_trade_date s))
              (sync_targets db).

(** The stocks of the batches of a plan, in order. *)
Definition planned (batches : list Batch) : list Stock :=
  List.map stock (concat (List.map stocks batches)).

(** The items the loop of [execute_batch] skips. *)
Definition recent_items (env : Env) (force_full_sync : bool)
           (items : list PriorityItem) : list PriorityItem :=
  List.filter (skip_recent env force_full_sync) items.


(** The three counters of the loop, added up. *)
Definition accounted (st : Loop) : Z :=
  (Z.of_nat (length (succeeded st)) + Z.of_nat (length (failed st))
   + skipped st)%Z.

(** The store has an entry for the batch that is marked as running and
    has no end time. *)
Definition entry_running (bid : string) (m : gmap string BatchProgress)
  : Prop :=
  exists p, m !! bid = Some p
            /\ bp_status p = "running"
            /\ bp_end_time p = None.

(** An environment in which the sync is interrupted at its second
    call. *)
Definition interrupted_env : Env :=
  {| sync_stock_kline_to_db :=
       fun i code force =>
         if (i =? 2)%Z
         then SyncRaises (ExcBaseOnly "KeyboardInterrupt")
         else SyncReturns true "同步成功" 20 "增量";
     progress_callback := None;
     today := 739100;
     isoformat_now := "2026-01-05T09:30:00" |}.

Definition demo_env : Env :=
  {| sync_stock_kline_to_db :=
       fun i code force =>
         if (i =? 3)%Z
         then SyncRaises (ExcException "ConnectionError" "timed out")
         else SyncReturns true "同步成功" 20 "增量";
     progress_callback := None;
     today := 739100;
     isoformat_now := "2026-01-05T09:30:00" |}.

Definition demo_item (code : string) : PriorityItem :=
  {| stock := {| ts_code := code; name := code; is_active := true |};
     latest_date := 739000 |}.

Definition demo_batch : Batch :=
  {| batch_id := "plan_1"; batch_index := 1; total_batches := 1;
     stocks := [demo_item "000001.SZ"; demo_item "000002.SZ";
                demo_item "000006.SZ"; demo_item "000007.SZ";
                demo_item "000008.SZ"];
     stock_count := 5; status := "pending"; created_at := 1000 |}.

Definition demo_db : Session :=
  {| stock_rows :=
       [ {| ts_code := "000001.SZ"; name := "平安银行"; is_active := true |};
         {| ts_code := "000002.SZ"; name := "万科A"; is_active := true |};
         {| ts_code := "000004.SZ"; name := "*ST国华"; is_active := true |};
         {| ts_code := "600000.SH"; name := "浦发银行"; is_active := true |} ];
     latest_kline := <["000001.SZ" := 739000%Z]> (<["600000.SH" := 738000%Z]> ∅) |}.

Definition empty_db : Session :=
  {| stock_rows :=
       [ {| ts_code := "000004.SZ"; name := "*ST国华"; is_active := true |};
         {| ts_code := "000005.SZ"; name := "世纪星源"; is_active := false |} ];
     latest_kline := ∅ |}.

Definition clock_a : Clock :=
  {| strftime_now := "20260101_093000"; datetime_now := 1000 |}.

Definition clock_b : Clock :=
  {| strftime_now := "20260101_093001"; datetime_now := 1001 |}.

End BatchSyncManager.

(* ===================================================================== *)
(** * Part II: properties                                                 *)
(* ===================================================================== *)

(** ** The task queue *)
Section TaskQueueProperties.
Import ImprovedTaskQueue.

Lemma count_occ_snoc (l : list string) (x y : string) :
  count_occ string_dec (l ++ [y]) x
  = (count_occ string_dec l x + (if string_dec y x then 1 else 0))%nat.
Proof.
  rewrite count_occ_app. simpl. destruct (string_dec y x); lia.
Qed.

(** A pass of the worker calls an executor only for the entry it
    dequeues: calls and queue entries of a task never add up to more
    than before, and the log only grows. *)
Lemma worker_iteration_budget now q tid :
  (invocations tid q <= invocations tid (worker_iteration now q).1)%nat
  /\ (invocations tid (worker_iteration now q).1
      + queued tid (worker_iteration now q).1
      <= invocations tid q + queued tid q)%nat.
Proof.
  unfold worker_iteration, invocations, queued.
  destruct (queue q) as [|[hd ex] rest] eqn:Hq; simpl.
  - rewrite Hq. simpl. lia.
  - destruct (tasks q !! hd) as [task|]; simpl;
      [|destruct (string_dec hd tid); lia].
    destruct (controller task) as [c|]; simpl;
      [|destruct (string_dec hd tid); lia].
    destruct (check_cancelled c); simpl;
      [destruct (string_dec hd tid); lia|].
    destruct (ex (mark_running now task)) as [task2 out].
    destruct (after_executor now task2 out) as [task3 ctl]. simpl.
    rewrite count_occ_snoc. destruct (string_dec hd tid); lia.
Qed.

Lemma worker_budget clock : forall q tid,
  (invocations tid q <= invocations tid (_worker clock q).1)%nat
  /\ (invocations tid (_worker clock q).1 + queued tid (_worker clock q).1
      <= invocations tid q + queued tid q)%nat.
Proof.
  induction clock as [|now clock IH]; intros q tid; simpl; [lia|].
  destruct (is_running q); simpl; [|lia].
  pose proof (worker_iteration_budget now q tid) as [Hlo Hhi].
  destruct (worker_iteration now q) as [q' [| |e]]; simpl in *; try lia.
  destruct (IH q' tid). lia.
Qed.

(** C9. [cancel_task] on a known task: a PENDING task becomes CANCELLED
    and the call returns true; a RUNNING task keeps its status, gets the
    cancellation flag of its controller set (nothing else of the
    controller changes, no other task changes) and the call returns
    true at once; a task that is SUCCESS, FAILED or CANCELLED is left
    alone and the call returns false. *)
Theorem cancel_task_cases (q : Queue) (tid : string) (t : TaskInfo) :
  tasks q !! tid = Some t ->
  (status t = PENDING ->
     (cancel_task tid q).2 = true
     /\ status <$> (tasks (cancel_task tid q).1 !! tid) = Some CANCELLED
     /\ controller <$> (tasks (cancel_task tid q).1 !! tid)
        = Some (controller t))
  /\ (forall c, status t = RUNNING -> controller t = Some c ->
        (cancel_task tid q).2 = true
        /\ status <$> (tasks (cancel_task tid q).1 !! tid) = Some RUNNING
        /\ controller <$> (tasks (cancel_task tid q).1 !! tid)
           = Some (Some (request_cancel c))
        /\ check_cancelled (request_cancel c) = true
        /\ is_paused (request_cancel c) = is_paused c
        /\ (forall other, other <> tid ->
              tasks (cancel_task tid q).1 !! other = tasks q !! other)
        /\ queue (cancel_task tid q).1 = queue q
        /\ exec_log (cancel_task tid q).1 = exec_log q)
  /\ (status t = SUCCESS \/ status t = FAILED \/ status t = CANCELLED ->
        cancel_task tid q = (q, false)).
Proof.
  intros Hlook. unfold cancel_task. rewrite Hlook.
  split; [|split].
  - intros Hs. rewrite Hs. simpl. rewrite lookup_insert_eq. simpl.
    tauto.
  - intros c Hs Hc. rewrite Hs, Hc. simpl. rewrite lookup_insert_eq. simpl.
    split_and!; try reflexivity.
    + by rewrite Hs.
    + intros other Hne. by rewrite lookup_insert_ne.
  - intros [Hs | [Hs | Hs]]; rewrite Hs; simpl; reflexivity.
Qed.

Lemma cancel_task_cases_witness :
  tasks demo_running_queue !! "t1" = Some demo_running_task
  /\ (cancel_task "t1" demo_running_queue).2 = true
  /\ status <$> (tasks (cancel_task "t1" demo_running_queue).1 !! "t1")
     = Some RUNNING.
Proof.
  assert (H : tasks demo_running_queue !! "t1" = Some demo_running_task)
    by (vm_compute; reflexivity).
  split; [exact H|].
  destruct (cancel_task_cases demo_running_queue "t1" demo_running_task H)
    as (_ & Hrun & _).
  destruct (Hrun (CancellableTask_init "t1") eq_refl eq_refl)
    as (Hret & Hst & _).
  split; [exact Hret | exact Hst].
Defined.

(** C1. What the code does when a task is cancelled while PENDING:
    [cancel_task] returns true and the task is CANCELLED, but the flag
    of its controller stays clear, and the flag is all the worker looks
    at when it dequeues the entry. The next pass of a worker therefore
    calls the executor of the cancelled task (and, when the executor
    returns, the task ends up SUCCESS). *)
Theorem cancel_pending_task_still_executed
        (mw : nat) (new_id ty : string) (ps : gmap string string)
        (now now' : Z) (executor : Executor) :
  let q1 := (submit new_id now ty ps executor (Queue_init mw)).1 in
  let q2 := (cancel_task new_id q1).1 in
  let q3 := (worker_iteration now' q2).1 in
  status <$> get_task new_id q1 = Some PENDING
  /\ (cancel_task new_id q1).2 = true
  /\ status <$> get_task new_id q2 = Some CANCELLED
  /\ (fun t => check_cancelled <$> controller t) <$> get_task new_id q2
     = Some (Some false)
  /\ invocations new_id q2 = 0%nat
  /\ invocations new_id q3 = 1%nat
  /\ status
       <$> get_task new_id
             (worker_iteration now'
                (cancel_task new_id
                   (submit new_id now ty ps returning_executor
                           (Queue_init mw)).1).1).1
     = Some SUCCESS.
Proof.
  simpl. unfold get_task, cancel_task, submit, invocations. simpl.
  rewrite !lookup_insert_eq. simpl. rewrite !lookup_insert_eq. simpl.
  split_and!; try reflexivity.
  - unfold worker_iteration. simpl. rewrite lookup_insert_eq. simpl.
    destruct (executor _) as [t2 out].
    destruct (after_executor now' t2 out) as [t3 ctl]. simpl.
    destruct (string_dec new_id new_id); [reflexivity | congruence].
  - unfold worker_iteration. simpl.
    rewrite lookup_insert_eq. simpl. rewrite lookup_insert_eq.
    reflexivity.
Qed.

(** C8, as stated, fails: an executor that raises
    [asyncio.CancelledError] leaves its task CANCELLED with no error
    text, not FAILED. *)
Lemma executor_cancelled_error_not_failed :
  let q' := (worker_iteration 1 (demo_queue interrupted_executor)).1 in
  invocations "t1" q' = 1%nat
  /\ status <$> get_task "t1" q' = Some CANCELLED
  /\ status <$> get_task "t1" q' <> Some FAILED
  /\ error <$> get_task "t1" q' = Some None.
Proof. vm_compute. split_and!; try reflexivity. discriminate. Qed.

(** C8, amended. When the executor of the dequeued task raises an
    [Exception] (anything the handler [except Exception] takes, which
    [asyncio.CancelledError] never reaches), the pass of the worker
    ends normally: the task is FAILED with [str(e)] in its error field,
    the entry is gone from the queue, the executor has been called
    exactly once more, the worker loop goes on with the rest of the
    queue, and no later pass calls the executor of that task again
    unless it was queued again. *)
Theorem executor_exception_marks_failed
        (now : Z) (q : Queue) (tid : string) (executor : Executor)
        (rest : list (string * Executor)) (t t2 : TaskInfo)
        (c : CancellableTask) (cls text : string) :
  queue q = (tid, executor) :: rest ->
  tasks q !! tid = Some t ->
  controller t = Some c ->
  check_cancelled c = false ->
  executor (mark_running now t) = (t2, Raises (ExcException cls text)) ->
  let q' := (worker_iteration now q).1 in
  (worker_iteration now q).2 = Continue
  /\ status <$> get_task tid q' = Some FAILED
  /\ error <$> get_task tid q' = Some (Some text)
  /\ queue q' = rest
  /\ exec_log q' = (exec_log q ++ [tid])%list
  /\ is_running q' = is_running q
  /\ (forall clock, is_running q = true ->
        _worker (now :: clock) q = _worker clock q')
  /\ (forall clock, tid ∉ List.map fst rest ->
        invocations tid (_worker clock q').1
        = (invocations tid q + 1)%nat).
Proof.
  intros Hq Ht Hc Hnc Hex.
  assert (Hstep : worker_iteration now q
                  = (with_log (exec_log q ++ [tid])%list
                       (with_current
                          (({[tid]} ∪ current_tasks q) ∖ {[tid]})
                          (with_tasks
                             (<[tid := (after_executor now t2
                                 (Raises (ExcException cls text))).1]>
                                (tasks q))
                             (with_queue rest q))),
                     Continue)).
  { unfold worker_iteration. rewrite Hq. simpl. rewrite Ht, Hc, Hnc, Hex.
    reflexivity. }
  simpl. rewrite Hstep. simpl. unfold get_task. simpl.
  rewrite lookup_insert_eq. simpl.
  split_and!; try reflexivity.
  - intros clock Hrun. rewrite Hrun. reflexivity.
  - intros clock Hnot.
    match goal with |- context [_worker clock ?q0] => set (q' := q0) end.
    pose proof (worker_budget clock q' tid) as [Hlo Hhi].
    assert (Hinv : invocations tid q' = (invocations tid q + 1)%nat).
    { unfold invocations, q'. simpl. rewrite count_occ_snoc.
      destruct (string_dec tid tid); [reflexivity | congruence]. }
    assert (Hqd : queued tid q' = 0%nat).
    { unfold queued, q'. simpl. apply count_occ_not_In.
      intros Hin. apply Hnot. by apply list_elem_of_In. }
    lia.
Qed.

Lemma executor_exception_marks_failed_witness :
  (worker_iteration 1 (demo_queue failing_executor)).2 = Continue
  /\ status <$> get_task "t1" (worker_iteration 1 (demo_queue failing_executor)).1
     = Some FAILED
  /\ error <$> get_task "t1" (worker_iteration 1 (demo_queue failing_executor)).1
     = Some (Some "boom").
Proof.
  destruct (executor_exception_marks_failed 1 (demo_queue failing_executor)
              "t1" failing_executor [] demo_pending_task
              (mark_running 1 demo_pending_task)
              (CancellableTask_init "t1") "ValueError" "boom"
              eq_refl ltac:(vm_compute; reflexivity) eq_refl eq_refl eq_refl)
    as (H1 & H2 & H3 & _).
  split_and!; [exact H1 | exact H2 | exact H3].
Defined.

End TaskQueueProperties.

(** ** The token bucket *)
Section TokenBucketProperties.
Import TokenBucket.
Local Open Scope Q_scope.

Lemma Qltb_true (a b : Q) : Qltb a b = true <-> a < b.
Proof.
  unfold Qltb. rewrite negb_true_iff.
  destruct (Qle_bool b a) eqn:E.
  - apply Qle_bool_iff in E. split; [discriminate | lra].
  - split; [intros _ | reflexivity].
    apply Qnot_le_lt. intros H. apply Qle_bool_iff in H. congruence.
Qed.

Lemma Qltb_false (a b : Q) : Qltb a b = false <-> b <= a.
Proof.
  unfold Qltb. rewrite negb_false_iff. apply Qle_bool_iff.
Qed.

Lemma wait_time_le_1 (n : Z) (rl : RateLimiter) : wait_time n rl <= 1.
Proof. unfold wait_time. apply Q.le_min_r. Qed.

Lemma wait_loop_chunked (n : Z) (clock : list Q) :
  forall rl,
    chunked_trace n (requests_per_second rl) (burst_size rl)
                  (tokens rl) (last_update rl) (wait_loop n clock rl).2
    /\ match (wait_loop n clock rl).2 with
       | EvRefill _ _ _ :: _ => False
       | _ => True
       end
    /\ exists k, refill_readings (wait_loop n clock rl).2 = firstn k clock.
Proof.
  induction clock as [|now clock IH]; intros rl; simpl.
  - destruct (Qltb (tokens rl) (inject_Z n)) eqn:E.
    + destruct (Qeq_bool (requests_per_second rl) 0); simpl.
      * split_and!; [exact I | exact I | by exists 0%nat].
      * apply Qltb_true in E.
        split_and!; try exact I; try reflexivity; try assumption.
        -- apply wait_time_le_1.
        -- by exists 0%nat.
    + apply Qltb_false in E. simpl.
      split_and!; try exact I; try reflexivity; try assumption.
      by exists 0%nat.
  - destruct (Qltb (tokens rl) (inject_Z n)) eqn:E.
    + destruct (Qeq_bool (requests_per_second rl) 0); simpl.
      * split_and!; [exact I | exact I | by exists 0%nat].
      * apply Qltb_true in E.
        destruct (IH (refill now rl)) as (Hch & Hhd & [k Hk]).
        destruct (wait_loop n clock (refill now rl)) as [res tr].
        simpl in *.
        split_and!; try exact I; try reflexivity; try assumption.
        -- apply wait_time_le_1.
        -- exists (S k). simpl. by rewrite Hk.
    + apply Qltb_false in E. simpl.
      split_and!; try exact I; try reflexivity; try assumption.
      by exists 0%nat.
Qed.

(** C3. Every call of [acquire] follows the chunked discipline: it
    refills on entry and again after every sleep, each time to
    [min(burst_size, tokens + elapsed * rate)] with the time elapsed
    since the last update (the refills read the clock in order, and
    nothing else changes the tokens); while tokens are short each sleep
    is [min(deficit / rate, 1)], hence at most one second, and is
    followed by a fresh refill from which the next deficit is
    computed. *)
Theorem acquire_refills_and_chunks (n : Z) (clock : list Q)
        (rl : RateLimiter) :
  chunked_trace n (requests_per_second rl) (burst_size rl)
                (tokens rl) (last_update rl) (acquire n clock rl).2
  /\ Forall (fun d => d <= 1) (sleeps (acquire n clock rl).2)
  /\ (exists k, refill_readings (acquire n clock rl).2 = firstn k clock)
  /\ (forall now clock', clock = now :: clock' ->
        acquire n clock rl
        = ((wait_loop n clock' (refill now rl)).1,
           refill_event now rl :: (wait_loop n clock' (refill now rl)).2))
  /\ (forall now clock', Qltb (tokens rl) (inject_Z n) = true ->
        Qeq_bool (requests_per_second rl) 0 = false ->
        wait_loop n (now :: clock') rl
        = ((wait_loop n clock' (refill now rl)).1,
           EvSleep (Qmin ((inject_Z n - tokens rl) / requests_per_second rl) 1)
             :: refill_event now rl
             :: (wait_loop n clock' (refill now rl)).2)).
Proof.
  assert (Hsl : forall c r0, Forall (fun d => d <= 1) (sleeps (wait_loop n c r0).2)).
  { induction c as [|now c IH]; intros r0; simpl.
    - destruct (Qltb _ _); [destruct (Qeq_bool _ _)|]; simpl;
        repeat constructor. apply wait_time_le_1.
    - destruct (Qltb _ _); [destruct (Qeq_bool _ _)|]; simpl;
        repeat constructor.
      specialize (IH (refill now r0)).
      destruct (wait_loop n c (refill now r0)) as [res tr]. simpl in *.
      constructor; [apply wait_time_le_1 | exact IH]. }
  split_and!.
  - destruct clock as [|now clock]; simpl; [exact I|].
    destruct (wait_loop_chunked n clock (refill now rl)) as (Hch & _ & _).
    destruct (wait_loop n clock (refill now rl)) as [res tr]. simpl in *.
    split_and!; try reflexivity. exact Hch.
  - destruct clock as [|now clock]; simpl; [constructor|].
    specialize (Hsl clock (refill now rl)).
    destruct (wait_loop n clock (refill now rl)) as [res tr]. exact Hsl.
  - destruct clock as [|now clock]; simpl; [by exists 0%nat|].
    destruct (wait_loop_chunked n clock (refill now rl)) as (_ & _ & [k Hk]).
    destruct (wait_loop n clock (refill now rl)) as [res tr]. simpl in *.
    exists (S k). simpl. by rewrite Hk.
  - intros now clock' ->. simpl.
    by destruct (wait_loop n clock' (refill now rl)).
  - intros now clock' Hlt Hr. simpl. rewrite Hlt, Hr.
    by destruct (wait_loop n clock' (refill now rl)).
Qed.

Lemma acquire_refills_and_chunks_witness :
  Forall (fun d => d <= 1) (sleeps (acquire 1 demo_clock demo_drained).2)
  /\ length (sleeps (acquire 1 demo_clock demo_drained).2) = 5%nat
  /\ wait_loop 1 (tl demo_clock) (refill 0 demo_drained)
     = ((wait_loop 1 (tl (tl demo_clock))
                   (refill 1 (refill 0 demo_drained))).1,
        EvSleep (Qmin ((inject_Z 1 - tokens (refill 0 demo_drained))
                       / requests_per_second (refill 0 demo_drained)) 1)
          :: refill_event 1 (refill 0 demo_drained)
          :: (wait_loop 1 (tl (tl demo_clock))
                        (refill 1 (refill 0 demo_drained))).2).
Proof.
  destruct (acquire_refills_and_chunks 1 demo_clock demo_drained)
    as (_ & Hs & _ & _ & _).
  destruct (acquire_refills_and_chunks 1 (tl demo_clock) (refill 0 demo_drained))
    as (_ & _ & _ & _ & Hloop).
  split; [exact Hs|]. split; [reflexivity|].
  apply (Hloop 1 (tl (tl demo_clock))); reflexivity.
Defined.

Lemma refill_in_range (now : Q) (rl : RateLimiter) :
  0 < requests_per_second rl -> in_range rl -> last_update rl <= now ->
  in_range (refill now rl).
Proof.
  intros Hr [Hlo Hhi] Hnow. unfold in_range, refill. simpl.
  split; [|apply Q.le_min_l].
  apply Q.min_glb; [lra|].
  assert (0 <= (now - last_update rl) * requests_per_second rl)
    by (apply Qmult_le_0_compat; lra).
  lra.
Qed.

Lemma nondecreasing_from_weaken (clock : list Q) :
  forall t t', t' <= t -> nondecreasing_from t clock ->
               nondecreasing_from t' clock.
Proof.
  destruct clock as [|x clock]; simpl; [tauto|].
  intros t t' Ht [H1 H2]. split; [lra | exact H2].
Qed.

Lemma nondecreasing_from_app_r (c1 : list Q) :
  forall t c2, nondecreasing_from t (c1 ++ c2) -> nondecreasing_from t c2.
Proof.
  induction c1 as [|x c1 IH]; intros t c2; simpl; [tauto|].
  intros [H1 H2]. apply (nondecreasing_from_weaken c2 x t H1).
  by apply IH.
Qed.

Lemma nondecreasing_from_app_l (c1 : list Q) :
  forall t c2, nondecreasing_from t (c1 ++ c2) -> nondecreasing_from t c1.
Proof.
  induction c1 as [|x c1 IH]; intros t c2; simpl; [tauto|].
  intros [H1 H2]. split; [exact H1 | by apply (IH x c2)].
Qed.

(** The waiting loop keeps the tokens in range, never divides by zero,
    and leaves the clock where later readings are still ahead. *)
Lemma wait_loop_in_range (n : Z) (c1 : list Q) :
  forall (rl : RateLimiter) (c2 : list Q),
    0 < requests_per_second rl ->
    (0 <= n)%Z ->
    in_range rl ->
    nondecreasing_from (last_update rl) (c1 ++ c2) ->
    Forall (event_in_range (burst_size rl)) (wait_loop n c1 rl).2
    /\ in_range (state_of (wait_loop n c1 rl).1)
    /\ (forall rl', (wait_loop n c1 rl).1 <> ZeroDivision rl')
    /\ requests_per_second (state_of (wait_loop n c1 rl).1)
       = requests_per_second rl
    /\ burst_size (state_of (wait_loop n c1 rl).1) = burst_size rl
    /\ nondecreasing_from (last_update (state_of (wait_loop n c1 rl).1)) c2.
Proof.
  assert (Hexit : forall (rl : RateLimiter),
             (0 <= n)%Z -> in_range rl ->
             Qltb (tokens rl) (inject_Z n) = false ->
             in_range (consume n rl)).
  { intros rl Hn [Hlo Hhi] E. apply Qltb_false in E.
    unfold in_range, consume. simpl.
    assert (0 <= inject_Z n)
      by (change (inject_Z 0 <= inject_Z n); rewrite <- Zle_Qle; exact Hn).
    split; lra. }
  induction c1 as [|now c1 IH]; intros rl c2 Hr Hn Hin Hclock; simpl.
  - destruct (Qltb (tokens rl) (inject_Z n)) eqn:E.
    + destruct (Qeq_bool (requests_per_second rl) 0) eqn:E0.
      { apply Qeq_bool_iff in E0. lra. }
      simpl. split_and!; try done. repeat constructor.
    + pose proof (Hexit rl Hn Hin E) as Hc. simpl.
      split_and!; try done. repeat constructor; apply Hc.
  - destruct (Qltb (tokens rl) (inject_Z n)) eqn:E.
    + destruct (Qeq_bool (requests_per_second rl) 0) eqn:E0.
      { apply Qeq_bool_iff in E0. lra. }
      simpl in Hclock. destruct Hclock as [Hnow Hclock].
      pose proof (refill_in_range now rl Hr Hin Hnow) as Hin'.
      destruct (IH (refill now rl) c2 Hr Hn Hin' Hclock)
        as (Hev & Hst & Hnz & Hrr & Hbb & Hcl).
      destruct (wait_loop n c1 (refill now rl)) as [res tr].
      simpl in *. split_and!; try done.
      constructor; [exact I|]. constructor; [exact Hin' | exact Hev].
    + pose proof (Hexit rl Hn Hin E) as Hc. simpl.
      split_and!; try done.
      * repeat constructor; apply Hc.
      * apply (nondecreasing_from_app_r (now :: c1)). exact Hclock.
Qed.

Lemma acquire_in_range (n : Z) (c1 c2 : list Q) (rl : RateLimiter) :
  0 < requests_per_second rl ->
  (0 <= n)%Z ->
  in_range rl ->
  nondecreasing_from (last_update rl) (c1 ++ c2) ->
  Forall (event_in_range (burst_size rl)) (acquire n c1 rl).2
  /\ in_range (state_of (acquire n c1 rl).1)
  /\ (forall rl', (acquire n c1 rl).1 <> ZeroDivision rl')
  /\ requests_per_second (state_of (acquire n c1 rl).1)
     = requests_per_second rl
  /\ burst_size (state_of (acquire n c1 rl).1) = burst_size rl
  /\ nondecreasing_from (last_update (state_of (acquire n c1 rl).1)) c2.
Proof.
  intros Hr Hn Hin Hclock. destruct c1 as [|now c1]; simpl.
  - split_and!; try done.
  - simpl in Hclock. destruct Hclock as [Hnow Hclock].
    pose proof (refill_in_range now rl Hr Hin Hnow) as Hin'.
    destruct (wait_loop_in_range n c1 (refill now rl) c2 Hr Hn Hin' Hclock)
      as (Hev & Hst & Hnz & Hrr & Hbb & Hcl).
    destruct (wait_loop n c1 (refill now rl)) as [res tr].
    simpl in *. split_and!; try done.
    constructor; [exact Hin' | exact Hev].
Qed.

Lemma acquire_all_in_range (calls : list (Z * list Q)) :
  forall rl : RateLimiter,
    0 < requests_per_second rl ->
    in_range rl ->
    Forall (fun c : Z * list Q => (0 <= c.1 <= burst_size rl)%Z) calls ->
    nondecreasing_from (last_update rl) (concat (List.map snd calls)) ->
    Forall (event_in_range (burst_size rl)) (acquire_all calls rl).2
    /\ in_range (state_of (acquire_all calls rl).1)
    /\ (forall rl', (acquire_all calls rl).1 <> ZeroDivision rl')
    /\ requests_per_second (state_of (acquire_all calls rl).1)
       = requests_per_second rl
    /\ burst_size (state_of (acquire_all calls rl).1) = burst_size rl.
Proof.
  induction calls as [|[n clock] calls IH]; intros rl Hr Hin Hcalls Hclock.
  - simpl. split_and!; try done.
  - simpl in Hclock. inversion Hcalls as [|? ? [Hn _] Hrest]; subst.
    simpl in Hn.
    destruct (acquire_in_range n clock (concat (List.map snd calls)) rl
                               Hr Hn Hin Hclock)
      as (Hev & Hst & Hnz & Hrr & Hbb & Hcl).
    simpl. destruct (acquire n clock rl) as [[rl'|rl'|rl'] tr];
      simpl in *; try (split_and!; done).
    rewrite <- Hrr in Hr. rewrite <- Hbb in Hrest.
    destruct (IH rl' Hr Hst Hrest Hcl) as (Hev' & Hst' & Hnz' & Hrr' & Hbb').
    destruct (acquire_all calls rl') as [res tr']. simpl in *.
    rewrite Hbb in Hev'.
    split_and!; try done; try congruence.
    apply Forall_app. split; assumption.
Qed.

(** With honoured sleeps the waiting loop ends: a deficit of at most
    [k * rate] tokens is made up within [k] sleeps. *)
Lemma wait_loop_finishes (n : Z) (k : nat) :
  forall (clock : list Q) (rl : RateLimiter),
    0 < requests_per_second rl ->
    (n <= burst_size rl)%Z ->
    in_range rl ->
    inject_Z n - tokens rl
      <= inject_Z (Z.of_nat k) * requests_per_second rl ->
    (k <= length clock)%nat ->
    sleeps_honoured n clock rl ->
    exists pre, (wait_loop n clock rl).1 = Acquired (consume n pre)
                /\ inject_Z n <= tokens pre
                /\ in_range pre
                /\ burst_size pre = burst_size rl.
Proof.
  induction k as [|k IH]; intros clock rl Hr HnB Hin Hdef Hlen Hhon.
  - assert (E : Qltb (tokens rl) (inject_Z n) = false).
    { apply Qltb_false. change (inject_Z (Z.of_nat 0)) with 0 in Hdef. lra. }
    exists rl. destruct clock; simpl; rewrite E; simpl;
      apply Qltb_false in E; done.
  - destruct (Qltb (tokens rl) (inject_Z n)) eqn:E.
    2:{ exists rl. destruct clock; simpl; rewrite E; simpl;
          apply Qltb_false in E; done. }
    destruct clock as [|now clock]; [simpl in Hlen; lia|].
    simpl in Hhon. rewrite E in Hhon. destruct Hhon as [Hnow Hhon].
    simpl. rewrite E.
    destruct (Qeq_bool (requests_per_second rl) 0) eqn:E0.
    { apply Qeq_bool_iff in E0. lra. }
    apply Qltb_true in E.
    set (r := requests_per_second rl) in *.
    assert (Hdiv : (inject_Z n - tokens rl) / r * r
                   == inject_Z n - tokens rl) by (field; lra).
    assert (Hw : 0 <= wait_time n rl).
    { unfold wait_time. fold r. apply Q.min_glb; [|lra].
      apply Qle_shift_div_l; lra. }
    assert (Hlast : last_update rl <= now) by lra.
    pose proof (refill_in_range now rl Hr Hin Hlast) as Hin'.
    assert (Hdef' : inject_Z n - tokens (refill now rl)
                    <= inject_Z (Z.of_nat k) * r).
    { unfold refill. simpl. fold r.
      set (el := now - last_update rl).
      assert (HB : inject_Z n <= inject_Z (burst_size rl))
        by (rewrite <- Zle_Qle; exact HnB).
      assert (Hk : 0 <= inject_Z (Z.of_nat k) * r).
      { apply Qmult_le_0_compat; [|lra].
        change (inject_Z 0 <= inject_Z (Z.of_nat k)).
        rewrite <- Zle_Qle. lia. }
      assert (HSk : inject_Z (Z.of_nat (S k)) * r
                    == inject_Z (Z.of_nat k) * r + r).
      { rewrite Nat2Z.inj_succ. unfold Z.succ. rewrite inject_Z_plus.
        change (inject_Z 1) with 1. ring. }
      assert (Hel : wait_time n rl <= el) by (unfold el; lra).
      assert (Hgain : wait_time n rl * r <= el * r)
        by (apply Qmult_le_compat_r; lra).
      unfold wait_time in Hgain. fold r in Hgain.
      destruct (Q.min_spec (inject_Z (burst_size rl)) (tokens rl + el * r))
        as [[_ ->] | [_ ->]]; [lra|].
      destruct (Q.min_spec ((inject_Z n - tokens rl) / r) 1)
        as [[Hlt Hm] | [Hge Hm]]; rewrite Hm in Hgain.
      - rewrite Hdiv in Hgain. lra.
      - lra. }
    simpl in Hlen.
    destruct (IH clock (refill now rl) Hr HnB Hin' Hdef' ltac:(lia) Hhon)
      as (pre & Hres & Hpre & Hinp & HB).
    destruct (wait_loop n clock (refill now rl)) as [res tr].
    simpl in *. exists pre. done.
Qed.

Lemma acquire_finishes (n : Z) (clock : list Q) (rl : RateLimiter) :
  0 < requests_per_second rl ->
  (0 <= n <= burst_size rl)%Z ->
  in_range rl ->
  (enough_readings n (requests_per_second rl) <= length clock)%nat ->
  acquire_sleeps_honoured n clock rl ->
  exists pre, (acquire n clock rl).1 = Acquired (consume n pre)
              /\ inject_Z n <= tokens pre
              /\ in_range pre.
Proof.
  intros Hr [Hn HnB] Hin Hlen Hhon. unfold enough_readings in Hlen.
  destruct clock as [|now clock]; [simpl in Hlen; lia|].
  simpl in Hhon. destruct Hhon as [Hnow Hhon].
  pose proof (refill_in_range now rl Hr Hin Hnow) as Hin'.
  simpl in Hlen.
  set (r := requests_per_second rl) in *.
  set (k := Z.to_nat (Qceiling (inject_Z n / r))) in *.
  assert (Hk : inject_Z n - tokens (refill now rl)
               <= inject_Z (Z.of_nat k) * r).
  { assert (H0 : 0 <= inject_Z n)
      by (change (inject_Z 0 <= inject_Z n); rewrite <- Zle_Qle; exact Hn).
    assert (Hq : 0 <= inject_Z n / r) by (apply Qle_shift_div_l; lra).
    assert (Hc : (0 <= Qceiling (inject_Z n / r))%Z).
    { change 0%Z with (Qceiling (inject_Z 0)) at 1.
      apply Qceiling_resp_le. exact Hq. }
    unfold k. rewrite Z2Nat.id by exact Hc.
    pose proof (Qle_ceiling (inject_Z n / r)) as Hce.
    assert (Hm : inject_Z n / r * r
                 <= inject_Z (Qceiling (inject_Z n / r)) * r)
      by (apply Qmult_le_compat_r; lra).
    assert (Hd : inject_Z n / r * r == inject_Z n) by (field; lra).
    rewrite Hd in Hm. destruct Hin' as [Hlo _]. lra. }
  destruct (wait_loop_finishes n k clock (refill now rl) Hr HnB Hin' Hk
                               ltac:(lia) Hhon)
    as (pre & Hres & Hpre & Hinp & HB).
  simpl. destruct (wait_loop n clock (refill now rl)) as [res tr].
  simpl in *. exists pre. done.
Qed.

(** C2, as stated, fails: the claim admits every [n <= B], and a
    negative [n] makes the deduction add tokens beyond the burst
    capacity. *)
Lemma acquire_negative_overfills :
  (-1 <= 3)%Z
  /\ nondecreasing_from 0 [0]
  /\ exists rl', (acquire (-1) [0] (RateLimiter_init (1 # 5) 3 0)).1
                 = Acquired rl'
                 /\ tokens rl' == 4
                 /\ ~ in_range rl'.
Proof.
  split; [lia|]. split; [simpl; split; [lra | exact I]|].
  eexists. split; [vm_compute; reflexivity|].
  split; [reflexivity|].
  unfold in_range. simpl. intros [_ H]. revert H. vm_compute.
  intros H. apply H. reflexivity.
Qed.

(** C2, amended. For a limiter constructed with burst capacity [B > 0]
    and rate [r > 0], every sequence of [acquire(n)] calls with
    [0 <= n <= B], under a clock that never goes back, keeps the token
    count in [0, B] at every assignment to it (the events of the trace)
    and when a call has returned; no call fails (the only exception the
    loop can raise, the division by a zero rate, does not occur); and
    once sleeps last as long as asked, a call that is given enough
    clock readings returns, having waited until at least [n] tokens
    were there and deducted exactly [n]. *)
Theorem acquire_keeps_tokens_in_range
        (r : Q) (B : Z) (t0 : Q) (calls : list (Z * list Q)) :
  (0 < B)%Z ->
  0 < r ->
  Forall (fun c : Z * list Q => (0 <= c.1 <= B)%Z) calls ->
  nondecreasing_from t0 (concat (List.map snd calls)) ->
  let rl0 := RateLimiter_init r B t0 in
  in_range rl0
  /\ Forall (event_in_range B) (acquire_all calls rl0).2
  /\ in_range (state_of (acquire_all calls rl0).1)
  /\ burst_size (state_of (acquire_all calls rl0).1) = B
  /\ (forall rl', (acquire_all calls rl0).1 <> ZeroDivision rl')
  /\ (forall (rl : RateLimiter) (n : Z) (clock : list Q),
        (acquire_all calls rl0).1 = Acquired rl ->
        (0 <= n <= B)%Z ->
        (enough_readings n r <= length clock)%nat ->
        acquire_sleeps_honoured n clock rl ->
        exists pre,
          (acquire n clock rl).1 = Acquired (consume n pre)
          /\ inject_Z n <= tokens pre
          /\ in_range pre
          /\ tokens (consume n pre) == tokens pre - inject_Z n).
Proof.
  intros HB Hr Hcalls Hclock rl0.
  assert (Hin0 : in_range rl0).
  { unfold in_range, rl0. simpl. split; [|lra].
    change (inject_Z 0 <= inject_Z B). rewrite <- Zle_Qle. lia. }
  destruct (acquire_all_in_range calls rl0 Hr Hin0 Hcalls Hclock)
    as (Hev & Hst & Hnz & Hrr & Hbb).
  split_and!; try done.
  intros rl n clock Hres Hn Hlen Hhon.
  rewrite Hres in Hst, Hrr, Hbb. simpl in *.
  rewrite <- Hrr in Hlen, Hr. rewrite <- Hbb in Hn.
  destruct (acquire_finishes n clock rl Hr Hn Hst Hlen Hhon)
    as (pre & H1 & H2 & H3).
  exists pre. split_and!; try done.
Qed.

Lemma acquire_keeps_tokens_in_range_witness :
  Forall (event_in_range 3)
         (acquire_all demo_calls (RateLimiter_init (1 # 5) 3 0)).2
  /\ in_range (state_of
                 (acquire_all demo_calls (RateLimiter_init (1 # 5) 3 0)).1).
Proof.
  assert (H1 : (0 < 3)%Z) by lia.
  assert (H2 : 0 < 1 # 5) by reflexivity.
  assert (H3 : Forall (fun c : Z * list Q => (0 <= c.1 <= 3)%Z) demo_calls).
  { unfold demo_calls. repeat constructor; simpl; lia. }
  assert (H4 : nondecreasing_from 0 (concat (List.map snd demo_calls))).
  { simpl. unfold Qle. simpl. lia. }
  destruct (acquire_keeps_tokens_in_range (1 # 5) 3 0 demo_calls
                                          H1 H2 H3 H4)
    as (_ & Hev & Hst & _).
  split; [exact Hev | exact Hst].
Defined.

End TokenBucketProperties.

(** ** The dual limiter *)
Section DualLimiterProperties.
Import DualLimiter.
Local Open Scope Q_scope.

(** C4. [acquire] takes its slot from the semaphore before anything
    else (with no free slot it stays parked and has touched nothing);
    then, if less than [1 / rate] has passed since the timestamp of the
    previous acquisition, it sleeps exactly the remainder, and only
    then records the new timestamp. [release] gives one slot back to
    the semaphore (one fewer in flight) and leaves the timestamp, the
    rate and the capacity as they were. The semaphore starts with
    [max_concurrent] free slots, and a call of [acquire] never leaves
    more than [max_concurrent] slots in flight. *)
Theorem dual_limiter_acquire_release
        (s : ConcurrentRateLimiter) (now now' : Q) :
  (semaphore s = 0%Z -> acquire now now' s = (Blocked, s, []))
  /\ (semaphore s <> 0%Z -> ~ rate_per_second s == 0 ->
      let elapsed := now - last_request_time s in
      let min_interval := 1 / rate_per_second s in
      acquire now now' s
      = (Granted, stamp now' (take_slot s),
         EvSlot
           :: (if TokenBucket.Qltb elapsed min_interval
               then [EvSleep (min_interval - elapsed)] else [])
           ++ [EvStamp now'])
      /\ (elapsed < min_interval <->
          TokenBucket.Qltb elapsed min_interval = true)
      /\ semaphore (acquire now now' s).1.2 = (semaphore s - 1)%Z
      /\ last_request_time (acquire now now' s).1.2 = now'
      /\ max_concurrent (acquire now now' s).1.2 = max_concurrent s
      /\ rate_per_second (acquire now now' s).1.2 = rate_per_second s)
  /\ semaphore (release s) = (semaphore s + 1)%Z
  /\ in_flight (release s) = (in_flight s - 1)%Z
  /\ last_request_time (release s) = last_request_time s
  /\ rate_per_second (release s) = rate_per_second s
  /\ max_concurrent (release s) = max_concurrent s
  /\ (forall mc r s0, ConcurrentRateLimiter_init mc r = Some s0 ->
        semaphore s0 = mc /\ max_concurrent s0 = mc /\ in_flight s0 = 0%Z)
  /\ ((0 <= semaphore s)%Z ->
      (0 <= semaphore (acquire now now' s).1.2)%Z
      /\ (in_flight (acquire now now' s).1.2
          <= max_concurrent (acquire now now' s).1.2)%Z).
Proof.
  split_and!; try reflexivity.
  - intros H. unfold acquire. by rewrite H.
  - intros Hs Hr elapsed min_interval.
    assert (E0 : Qeq_bool (rate_per_second s) 0 = false).
    { destruct (Qeq_bool (rate_per_second s) 0) eqn:E; [|reflexivity].
      apply Qeq_bool_iff in E. contradiction. }
    assert (Hacq : acquire now now' s
                   = (Granted, stamp now' (take_slot s),
                      EvSlot
                        :: (if TokenBucket.Qltb elapsed min_interval
                            then [EvSleep (min_interval - elapsed)] else [])
                        ++ [EvStamp now'])).
    { unfold acquire. apply Z.eqb_neq in Hs. rewrite Hs. simpl.
      rewrite E0. fold elapsed min_interval.
      by destruct (TokenBucket.Qltb elapsed min_interval). }
    rewrite Hacq. simpl. split_and!; try reflexivity.
    symmetry. apply Qltb_true.
  - unfold in_flight, release. simpl. lia.
  - intros mc r s0. unfold ConcurrentRateLimiter_init.
    destruct (mc <? 0)%Z; [discriminate|].
    intros [= <-]. unfold in_flight. simpl. split_and!; [done | done | lia].
  - intros Hs. unfold acquire, in_flight.
    destruct (semaphore s =? 0)%Z eqn:E; [simpl; lia|].
    apply Z.eqb_neq in E.
    destruct (Qeq_bool (rate_per_second (take_slot s)) 0); simpl;
      [lia|].
    destruct (TokenBucket.Qltb _ _); simpl; lia.
Qed.

Lemma dual_limiter_acquire_release_witness :
  acquire 101 102 demo_limiter
  = (Granted, stamp 102 (take_slot demo_limiter),
     [EvSlot; EvSleep 1; EvStamp 102]).
Proof.
  destruct (dual_limiter_acquire_release demo_limiter 101 102)
    as (_ & Hacq & _).
  destruct (Hacq ltac:(discriminate) ltac:(discriminate)) as (H & _).
  rewrite H. reflexivity.
Defined.

End DualLimiterProperties.

(** ** The batch writer *)
Section BatchWriterProperties.
Import BatchWriter.
Local Open Scope Q_scope.
Context {Item : Type}.

Lemma add_buffer (item : Item) (now : Q) (w : BatchWriter Item) :
  buffer (add item now w).1 = (buffer w ++ [item])%list.
Proof. reflexivity. Qed.

Lemma add_all_buffer (items : list (Item * Q)) :
  forall w : BatchWriter Item,
    buffer (add_all items w) = (buffer w ++ List.map fst items)%list
    /\ batch_size (add_all items w) = batch_size w
    /\ flush_interval (add_all items w) = flush_interval w.
Proof.
  induction items as [|[item now] items IH]; intros w.
  - simpl. by rewrite app_nil_r.
  - cbn [add_all]. destruct (IH (add item now w).1) as (Hb & Hs & Hf).
    rewrite Hb, Hs, Hf. simpl. by rewrite <- app_assoc.
Qed.

(** C5, amended. For every writer with size threshold [S >= 2] and
    time threshold [T > 0]: [add] appends the item, touches nothing
    else of the buffer and returns whether the buffer has reached [S]
    items or [T] has passed since the last flush signal; [get_batch]
    returns the buffer as it was and leaves it empty; after [S] items
    were added with no [get_batch] in between, the next [add] reports
    true; and after an [add] that reported true has been followed by
    [get_batch], the buffer is empty and an [add] made less than [T]
    later (an immediate one in particular) reports false. *)
Theorem batch_writer_flush_signal (w : BatchWriter Item) :
  (2 <= batch_size w)%Z ->
  0 < flush_interval w ->
  (forall item now,
      buffer (add item now w).1 = (buffer w ++ [item])%list
      /\ ((add item now w).2 = true <->
          (batch_size w <= Z.of_nat (length (buffer w ++ [item])))%Z
          \/ flush_interval w <= now - last_flush w))
  /\ (get_batch w).2 = buffer w
  /\ buffer (get_batch w).1 = []
  /\ last_flush (get_batch w).1 = last_flush w
  /\ (forall items item now,
        Z.of_nat (length items) = batch_size w ->
        (add item now (add_all items w)).2 = true)
  /\ (forall item now item' now',
        (add item now w).2 = true ->
        let w' := (get_batch (add item now w).1).1 in
        buffer w' = []
        /\ (now' - now < flush_interval w ->
            (add item' now' w').2 = false)
        /\ (add item' now w').2 = false).
Proof.
  intros HS HT.
  assert (Hfresh : forall item now item' now',
             (add item now w).2 = true ->
             now' - now < flush_interval w ->
             (add item' now' (get_batch (add item now w).1).1).2 = false).
  { intros item now item' now' Hflag Hlt.
    unfold add in *. simpl in *. rewrite Hflag. simpl.
    apply orb_false_iff. split.
    - apply Z.leb_gt. lia.
    - destruct (Qle_bool (flush_interval w) (now' - now)) eqn:E;
        [|reflexivity].
      apply Qle_bool_iff in E. lra. }
  split_and!; try reflexivity.
  - intros item now. split; [reflexivity|].
    unfold add. simpl. rewrite orb_true_iff, Z.leb_le, Qle_bool_iff.
    reflexivity.
  - intros items item now Hlen. unfold add. simpl.
    destruct (add_all_buffer items w) as (Hb & Hs & _).
    rewrite Hb, Hs. apply orb_true_iff. left. apply Z.leb_le.
    rewrite !length_app, length_map. simpl. lia.
  - intros item now item' now' Hflag w'. split_and!.
    + reflexivity.
    + intros Hlt. by apply Hfresh.
    + apply Hfresh; [exact Hflag | lra].
Qed.

End BatchWriterProperties.

Section BatchWriterExamples.
Import BatchWriter.
Local Open Scope Q_scope.

(** C5, as stated, fails. For the time threshold [T = 0]: with size
    threshold 2, after two items and a third [add] that reports true,
    [get_batch] empties the buffer, and the [add] that follows at the
    same instant reports true again. And for a positive threshold
    ([S = 2], [T = 3], writer created at time 0): [get_batch] does not
    start a new time window, so after an [add] at time 1 that reported
    false and a [get_batch] at time 5, the [add] that follows at once
    reports true. *)
Lemma batch_writer_no_fresh_window :
  let w0 : BatchWriter string := BatchWriter_init 2 0 0 in
  let w2 := add_all [("a", 0); ("b", 0)] w0 in
  let w3 := add "c" 0 w2 in
  let w4 := (get_batch w3.1).1 in
  let v1 := add "a" 1 demo_writer in
  let v2 := (get_batch v1.1).1 in
  ((2 <= batch_size w0)%Z
   /\ w3.2 = true
   /\ buffer w4 = []
   /\ (add "d" 0 w4).2 = true)
  /\ ((2 <= batch_size demo_writer)%Z
      /\ 0 < flush_interval demo_writer
      /\ v1.2 = false
      /\ buffer v2 = []
      /\ (add "b" 5 v2).2 = true).
Proof. vm_compute. split_and!; try reflexivity; discriminate. Qed.

Lemma batch_writer_flush_signal_witness :
  (add "c" 1 (add_all demo_items demo_writer)).2 = true
  /\ (add "d" 1
          (get_batch (add "c" 1 (add_all demo_items demo_writer)).1).1).2
     = false.
Proof.
  assert (H1 : (2 <= batch_size demo_writer)%Z) by (simpl; lia).
  assert (H2 : 0 < flush_interval demo_writer) by reflexivity.
  destruct (batch_writer_flush_signal demo_writer H1 H2)
    as (_ & _ & _ & _ & Hfull & _).
  split; [apply Hfull; reflexivity|].
  assert (H1' : (2 <= batch_size (add_all demo_items demo_writer))%Z)
    by (simpl; lia).
  assert (H2' : 0 < flush_interval (add_all demo_items demo_writer))
    by reflexivity.
  destruct (batch_writer_flush_signal
              (add_all demo_items demo_writer) H1' H2')
    as (_ & _ & _ & _ & _ & Hfresh).
  destruct (Hfresh "c" 1 "d" 1 eq_refl) as (_ & _ & H).
  exact H.
Defined.

End BatchWriterExamples.

(** ** The batch sync manager: planning *)
Section CreateBatchesProperties.
Import BatchSyncManager.

Lemma insert_by_date_perm (x : PriorityItem) (l : list PriorityItem) :
  Permutation (insert_by_date x l) (x :: l).
Proof.
  induction l as [|y l IH]; simpl; [reflexivity|].
  destruct (latest_date x <=? latest_date y)%Z; [reflexivity|].
  rewrite IH. apply perm_swap.
Qed.

Lemma sort_by_date_perm (l : list PriorityItem) :
  Permutation (sort_by_date l) l.
Proof.
  induction l as [|x l IH]; simpl; [reflexivity|].
  rewrite insert_by_date_perm. by constructor.
Qed.

Lemma insert_by_date_sorted (x : PriorityItem) (l : list PriorityItem) :
  StronglySorted date_le l -> StronglySorted date_le (insert_by_date x l).
Proof.
  induction l as [|y l IH]; simpl; intros Hs.
  - repeat constructor.
  - inversion Hs as [|? ? Hl Hy]; subst.
    destruct (latest_date x <=? latest_date y)%Z eqn:E.
    + apply Z.leb_le in E. constructor; [exact Hs|].
      constructor; [exact E|].
      eapply Forall_impl; [exact Hy|].
      intros z Hz. unfold date_le in *. lia.
    + apply Z.leb_gt in E. constructor; [by apply IH|].
      rewrite (insert_by_date_perm x l).
      constructor; [unfold date_le; lia | exact Hy].
Qed.

Lemma sort_by_date_sorted (l : list PriorityItem) :
  StronglySorted date_le (sort_by_date l).
Proof.
  induction l as [|x l IH]; simpl; [constructor|].
  by apply insert_by_date_sorted.
Qed.

(** Cutting a list into consecutive pieces of [b] items loses and
    reorders nothing. *)
Lemma chunks_concat {A : Type} (b : nat) :
  (0 < b)%nat ->
  forall (m : nat) (l : list A),
    (length l <= m * b)%nat ->
    concat (List.map (fun k => firstn b (skipn (k * b) l)) (seq 0 m)) = l.
Proof.
  intros Hb. induction m as [|m IH]; intros l Hlen.
  - destruct l; simpl in *; [reflexivity | lia].
  - rewrite <- cons_seq, <- seq_shift. simpl. rewrite List.map_map.
    transitivity (firstn b l ++ skipn b l)%list; [|apply firstn_skipn].
    f_equal. rewrite <- (IH (skipn b l)) at 1.
    + f_equal. apply List.map_ext. intros k.
      rewrite skipn_skipn. do 2 f_equal. lia.
    + rewrite length_skipn. lia.
Qed.

(** What the loop adds to the batches it already has. *)
Lemma create_loop_fields bs clock p sorted (starts : list Z) :
  forall acc : list Batch,
    let out := fold_left (append_batch bs clock p sorted) starts acc in
    List.map batch_id out
    = (List.map batch_id acc
       ++ List.map (batch_id_at bs clock p) starts)%list
    /\ List.map stocks out
       = (List.map stocks acc
          ++ List.map (fun i => slice sorted i (i + bs)) starts)%list.
Proof.
  induction starts as [|i starts IH]; intros acc; simpl.
  - by rewrite !app_nil_r.
  - destruct (IH (append_batch bs clock p sorted acc i)) as [H1 H2].
    rewrite H1, H2. unfold append_batch.
    rewrite !List.map_app. simpl. by rewrite <- !app_assoc.
Qed.

(** With a prefix that counts as given, the loop does not look at the
    clock except for [created_at]. *)
Lemma create_loop_plan bs c1 c2 p sorted (starts : list Z) :
  truthy p = true ->
  forall acc1 acc2 : list Batch,
    List.map batch_plan acc1 = List.map batch_plan acc2 ->
    List.map batch_plan (fold_left (append_batch bs c1 p sorted) starts acc1)
    = List.map batch_plan (fold_left (append_batch bs c2 p sorted) starts acc2).
Proof.
  intros Hp. induction starts as [|i starts IH]; intros acc1 acc2 Hacc;
    simpl; [exact Hacc|].
  apply IH. unfold append_batch, batch_id_at.
  rewrite Hp, !List.map_app, Hacc. simpl.
  assert (Hlen : length acc1 = length acc2).
  { rewrite <- (length_map batch_plan acc1), Hacc. apply length_map. }
  unfold batch_plan at 2 4. simpl. by rewrite Hlen.
Qed.

Lemma range0_positive (n : nat) (bs : Z) :
  (0 < bs)%Z ->
  range0 n bs
  = Some (List.map (fun k : nat => (Z.of_nat k * bs)%Z)
                   (seq 0 (Z.to_nat ((Z.of_nat n + bs - 1) / bs))))
  /\ (n <= Z.to_nat ((Z.of_nat n + bs - 1) / bs) * Z.to_nat bs)%nat.
Proof.
  intros Hbs. unfold range0.
  destruct (bs =? 0)%Z eqn:E0; [apply Z.eqb_eq in E0; lia|].
  destruct (bs <? 0)%Z eqn:E1; [apply Z.ltb_lt in E1; lia|].
  split; [reflexivity|].
  set (a := (Z.of_nat n + bs - 1)%Z).
  assert (Ha : (0 <= a / bs)%Z) by (apply Z.div_pos; lia).
  pose proof (Z.div_mod a bs ltac:(lia)) as Hdm.
  pose proof (Z.mod_pos_bound a bs Hbs) as Hmod.
  apply Nat2Z.inj_le. rewrite Nat2Z.inj_mul, !Z2Nat.id by lia.
  unfold a in *. nia.
Qed.

(** The pieces the loop cuts, for a positive batch size. *)
Lemma slices_concat (sorted : list PriorityItem) (bs : Z) :
  (0 < bs)%Z ->
  concat (List.map (fun i => slice sorted i (i + bs))
            (List.map (fun k : nat => (Z.of_nat k * bs)%Z)
               (seq 0 (Z.to_nat ((Z.of_nat (length sorted) + bs - 1) / bs)))))
  = sorted.
Proof.
  intros Hbs. rewrite List.map_map.
  destruct (range0_positive (length sorted) bs Hbs) as [_ Hlen].
  rewrite <- (chunks_concat (Z.to_nat bs) ltac:(lia) _ sorted Hlen) at 2.
  f_equal. apply List.map_ext. intros k. unfold slice.
  assert (H0 : (0 <= Z.of_nat k * bs)%Z) by nia.
  assert (Hk : Z.to_nat (Z.of_nat k * bs) = (k * Z.to_nat bs)%nat).
  { rewrite Z2Nat.inj_mul by lia. by rewrite Nat2Z.id. }
  rewrite Hk. f_equal. rewrite Z2Nat.inj_add by lia. rewrite Hk. lia.
Qed.

Lemma batch_ids_positive clock (p : string) (bs : Z) (m : nat) :
  (0 < bs)%Z ->
  truthy p = true ->
  List.map (batch_id_at bs clock p)
           (List.map (fun k : nat => (Z.of_nat k * bs)%Z) (seq 0 m))
  = List.map (numbered_id p) (seq 1 m).
Proof.
  intros Hbs Hp. rewrite <- seq_shift, !List.map_map.
  apply List.map_ext. intros k. unfold batch_id_at, numbered_id.
  rewrite Hp, Z.div_mul by lia. do 3 f_equal. lia.
Qed.

(** C10. When no active non-ST stock is left, [create_batches]
    returns the bare empty list, and unpacking that into two names
    raises; whenever such stocks exist it never returns a bare list,
    and for a non-zero batch size it returns the pair of the batch
    list and the prefix, which unpacks. *)
Theorem create_batches_empty_returns_bare_list
        (bs : Z) (clock : Clock) (ltd : Z) (db : Session) (force : bool)
        (prefix : option string) :
  (sync_targets db = [] ->
     create_batches bs clock ltd db force prefix = RetList []
     /\ unpack_pair (create_batches bs clock ltd db force prefix)
        = Some UnpackValueError)
  /\ (sync_targets db <> [] ->
        (forall l, create_batches bs clock ltd db force prefix <> RetList l)
        /\ (bs <> 0%Z ->
            exists batches p,
              create_batches bs clock ltd db force prefix
              = RetPair batches p
              /\ unpack_pair (create_batches bs clock ltd db force prefix)
                 = Some (UnpackedPair batches p))).
Proof.
  unfold create_batches. split.
  - intros ->. split; reflexivity.
  - intros Hne. destruct (sync_targets db) as [|s0 targets]; [done|].
    split.
    + intros l. by destruct (range0 _ bs).
    + intros Hbs. unfold range0. apply Z.eqb_neq in Hbs. rewrite Hbs.
      destruct (bs <? 0)%Z; eexists _, _; split; reflexivity.
Qed.

Lemma create_batches_empty_returns_bare_list_witness :
  create_batches 500 clock_a 739000 empty_db false None = RetList []
  /\ unpack_pair (create_batches 500 clock_a 739000 empty_db false None)
     = Some UnpackValueError.
Proof.
  destruct (create_batches_empty_returns_bare_list
              500 clock_a 739000 empty_db false None) as [Hempty _].
  apply Hempty. reflexivity.
Defined.

(** C6, as stated, fails. An empty prefix, though supplied, counts as
    absent: the ids are built from the clock and change from one call
    to the next. And with [force_full_sync] off, the same stocks with
    the same K-line dates give another plan once the provider reports
    another latest trade date. *)
Lemma create_batches_empty_prefix_uses_clock :
  batch_ids (create_batches 2 clock_a 739000 demo_db true (Some ""))
  = ["20260101_093000_1"; "20260101_093000_2"]
  /\ batch_ids (create_batches 2 clock_b 739000 demo_db true (Some ""))
     = ["20260101_093001_1"; "20260101_093001_2"]
  /\ batch_ids (create_batches 2 clock_a 739000 demo_db true (Some ""))
     <> [numbered_id "" 1; numbered_id "" 2]
  /\ result_plan (create_batches 2 clock_a 739000 demo_db true (Some ""))
     <> result_plan (create_batches 2 clock_b 739000 demo_db true (Some ""))
  /\ result_plan (create_batches 2 clock_a 739000 demo_db false (Some "p"))
     <> result_plan (create_batches 2 clock_a 739001 demo_db false (Some "p")).
Proof.
  split_and!; try (vm_compute; reflexivity); vm_compute; discriminate.
Qed.

(** C6, amended. For a fixed database (the same stocks, in the same
    order, with the same latest K-line dates), a fixed latest trade
    date and batch size, and every non-empty [batch_id_prefix], two
    calls with the same [force_full_sync] agree on everything but the
    creation times, whatever the clock shows: the same number of
    batches, the ids [prefix_1 .. prefix_N] in sequence, and the same
    items in the same order, which is ascending by latest K-line date
    with a missing date counted as [date.min] (the batches of a
    positive batch size cut the sorted list into consecutive pieces,
    and the sort only permutes the selected stocks). *)
Theorem create_batches_deterministic
        (bs ltd : Z) (db : Session) (force : bool) (p : string)
        (c1 c2 : Clock) :
  p <> "" ->
  let r1 := create_batches bs c1 ltd db force (Some p) in
  let r2 := create_batches bs c2 ltd db force (Some p) in
  let items := stock_priority db ltd force in
  result_plan r1 = result_plan r2
  /\ (forall batches p', r1 = RetPair batches p' ->
        p' = p
        /\ List.map batch_id batches
           = List.map (numbered_id p) (seq 1 (length batches))
        /\ StronglySorted date_le (concat (List.map stocks batches))
        /\ ((0 < bs)%Z ->
            concat (List.map stocks batches) = sort_by_date items))
  /\ Permutation (sort_by_date items) items
  /\ (forall it, In it items ->
        latest_date it
        = match _get_latest_kline_date db (ts_code (stock it)) with
          | Some d => d
          | None => date_min
          end).
Proof.
  intros Hp r1 r2 items.
  assert (Hpt : truthy p = true).
  { unfold truthy. apply negb_true_iff. by apply String.eqb_neq. }
  split_and!.
  - unfold r1, r2, create_batches. rewrite Hpt.
    destruct (sync_targets db) as [|s0 targets]; [reflexivity|].
    destruct (range0 _ bs) as [starts|]; [|reflexivity]. simpl.
    f_equal. f_equal. by apply create_loop_plan.
  - intros batches p' Hr. unfold r1, create_batches in Hr.
    rewrite Hpt in Hr.
    destruct (sync_targets db) as [|s0 targets]; [discriminate|].
    fold items in Hr. set (sorted := sort_by_date items) in *.
    destruct (Z.lt_trichotomy bs 0) as [Hneg | [Hzero | Hpos]].
    + unfold range0 in Hr.
      destruct (bs =? 0)%Z eqn:E0; [apply Z.eqb_eq in E0; lia|].
      destruct (bs <? 0)%Z eqn:E1; [|apply Z.ltb_ge in E1; lia].
      simpl in Hr. inversion Hr; subst. simpl.
      split_and!; try done; [constructor | lia].
    + subst bs. discriminate.
    + destruct (range0_positive (length sorted) bs Hpos) as [Hrange _].
      rewrite Hrange in Hr. injection Hr as Hb Hp'.
      match type of Hb with fold_left _ ?st _ = _ => set (starts := st) in * end.
      destruct (create_loop_fields bs c1 p sorted starts []) as [Hids Hst].
      simpl in Hids, Hst. rewrite Hb in Hids, Hst.
      assert (Hlen : length batches
                     = Z.to_nat ((Z.of_nat (length sorted) + bs - 1) / bs)).
      { rewrite <- (length_map batch_id batches), Hids. unfold starts.
        by rewrite !length_map, length_seq. }
      assert (Hcat : concat (List.map stocks batches) = sorted).
      { rewrite Hst. unfold starts. by apply slices_concat. }
      split_and!.
      * symmetry. exact Hp'.
      * rewrite Hids, Hlen. unfold starts. by apply batch_ids_positive.
      * rewrite Hcat. apply sort_by_date_sorted.
      * intros _. exact Hcat.
  - apply sort_by_date_perm.
  - intros it Hin. unfold items, stock_priority in Hin.
    apply in_map_iff in Hin as (s0 & <- & _). reflexivity.
Qed.

Lemma create_batches_deterministic_witness :
  result_plan (create_batches 2 clock_a 739000 demo_db true (Some "plan"))
  = result_plan (create_batches 2 clock_b 739000 demo_db true (Some "plan")).
Proof.
  destruct (create_batches_deterministic 2 739000 demo_db true "plan"
              clock_a clock_b ltac:(discriminate)) as [H _].
  exact H.
Defined.

End CreateBatchesProperties.

(** ** The batch sync manager: execution *)
Section ExecuteBatchProperties.
Import BatchSyncManager.

Lemma process_item_succeeds env batch total force i item st :
  callback_returns env ->
  item_succeeds env force i item ->
  exists count mode,
    process_item env batch total force i item st
    = (mkLoop
         (alter (item_update i (stock item)
                   (inject_Z (i - 1) / inject_Z total * 100)%Q
                   (item_message batch i total (stock item)))
                (batch_id batch) (store st))
         (succeeded st
            ++ [{| s_ts_code := ts_code (stock item);
                   s_name := name (stock item);
                   s_count := count; s_sync_mode := mode |}])%list
         (failed st) (skipped st),
       None).
Proof.
  intros Hcb (Hskip & msg & count & mode & Hsync).
  exists count, mode. unfold process_item, callback_returns in *.
  destruct (progress_callback env) as [cb|].
  - rewrite Hcb. simpl. by rewrite Hskip, Hsync.
  - simpl. by rewrite Hskip, Hsync.
Qed.

Lemma process_item_raises env batch total force i item st cls text :
  callback_returns env ->
  item_raises env force i item cls text ->
  process_item env batch total force i item st
  = (mkLoop
       (alter (item_update i (stock item)
                 (inject_Z (i - 1) / inject_Z total * 100)%Q
                 (item_message batch i total (stock item)))
              (batch_id batch) (store st))
       (succeeded st)
       (failed st
          ++ [{| f_ts_code := ts_code (stock item);
                 f_name := name (stock item);
                 f_error := cls ++ ": " ++ text |}])%list
       (skipped st),
     None).
Proof.
  intros Hcb (Hskip & Hsync).
  unfold process_item, callback_returns in *.
  destruct (progress_callback env) as [cb|].
  - rewrite Hcb. simpl. by rewrite Hskip, Hsync.
  - simpl. by rewrite Hskip, Hsync.
Qed.

(** The loop never removes the entry of its batch from the store. *)
Lemma process_item_keeps_entry env batch total force i item st :
  is_Some (store st !! batch_id batch) ->
  is_Some (store (process_item env batch total force i item st).1
             !! batch_id batch).
Proof.
  intros Hsome.
  assert (Halt : forall f,
             is_Some (alter f (batch_id batch) (store st) !! batch_id batch)).
  { intros f. rewrite lookup_alter_eq. by apply fmap_is_Some. }
  assert (Hexc : forall s e st',
             is_Some (store st' !! batch_id batch) ->
             is_Some (store (on_item_exception s e st').1 !! batch_id batch)).
  { intros s0 [] st' H; exact H. }
  unfold process_item.
  destruct (match progress_callback env with
            | Some cb => cb _ _
            | None => None
            end) as [e|].
  - by apply Hexc.
  - destruct (skip_recent env force item); simpl; [apply Halt|].
    destruct (sync_stock_kline_to_db env i _ force) as [[] ? ? ?|e]; simpl;
      try apply Halt.
    apply Hexc. simpl. apply Halt.
Qed.

Lemma run_items_keeps_entry env batch total force (items : list PriorityItem) :
  forall i st,
    is_Some (store st !! batch_id batch) ->
    is_Some (store (run_items env batch total force i items st).1
               !! batch_id batch).
Proof.
  induction items as [|item items IH]; intros i st Hsome; simpl;
    [exact Hsome|].
  pose proof (process_item_keeps_entry env batch total force i item st Hsome)
    as Hstep.
  destruct (process_item env batch total force i item st) as [st' [e|]];
    simpl in *; [exact Hstep|].
  by apply IH.
Qed.

(** A batch that returns has reached a terminal status, which is
    [completed] exactly when nothing failed, with progress 100. *)
Lemma execute_batch_terminal env progress_store batch force res store' :
  execute_batch env progress_store batch force = (ExecReturned res, store') ->
  exists p,
    get_batch_execution_progress (batch_id batch) store' = Some p
    /\ bp_progress p = 100%Q
    /\ (bp_status p = "completed" <-> r_failed_count res = 0%Z)
    /\ (bp_status p = "completed_with_errors" <-> r_failed_count res <> 0%Z)
    /\ bp_failed_count p = r_failed_count res
    /\ bp_succeeded_count p = r_succeeded_count res.
Proof.
  unfold execute_batch, get_batch_execution_progress.
  set (total := Z.of_nat (length (stocks batch))).
  set (st0 := mkLoop _ [] [] 0).
  assert (Hsome0 : is_Some (store st0 !! batch_id batch)).
  { unfold st0. simpl. rewrite lookup_insert_eq. by eexists. }
  pose proof (run_items_keeps_entry env batch total force (stocks batch)
                                    1%Z st0 Hsome0) as [p0 Hp0].
  destruct (run_items env batch total force 1 (stocks batch) st0)
    as [st [e|]]; [discriminate|].
  simpl in Hp0. intros Heq. injection Heq as <- <-.
  exists (final_update env batch total st p0).
  rewrite lookup_alter_eq, Hp0. simpl.
  split_and!; try reflexivity.
  - destruct (Z.of_nat (length (failed st)) =? 0)%Z eqn:E.
    + apply Z.eqb_eq in E. tauto.
    + apply Z.eqb_neq in E. split; [discriminate | contradiction].
  - destruct (Z.of_nat (length (failed st)) =? 0)%Z eqn:E.
    + apply Z.eqb_eq in E. split; [discriminate | contradiction].
    + apply Z.eqb_neq in E. tauto.
Qed.

(** C7. A batch of five items whose third item raises an [Exception]
    while the other four are synced (none skipped): the exception is
    caught, items four and five are still processed, the call returns
    with one failure and four successes, the stored progress entry is
    [completed_with_errors] and reads progress 100 afterwards. For any
    batch that returns, the stored status is [completed] exactly when
    there was no failure, and [completed_with_errors] otherwise. *)
Theorem execute_batch_partial_failure
        (env : Env) (progress_store : gmap string BatchProgress)
        (batch : Batch) (force : bool)
        (i1 i2 i3 i4 i5 : PriorityItem) (cls text : string) :
  stocks batch = [i1; i2; i3; i4; i5] ->
  callback_returns env ->
  item_succeeds env force 1 i1 ->
  item_succeeds env force 2 i2 ->
  item_raises env force 3 i3 cls text ->
  item_succeeds env force 4 i4 ->
  item_succeeds env force 5 i5 ->
  (exists res store',
      execute_batch env progress_store batch force
      = (ExecReturned res, store')
      /\ r_failed_count res = 1%Z
      /\ r_succeeded_count res = 4%Z
      /\ r_skipped res = 0%Z
      /\ r_success res = false
      /\ List.map s_ts_code (r_succeeded res)
         = List.map (fun it => ts_code (stock it)) [i1; i2; i4; i5]
      /\ r_failed res
         = [{| f_ts_code := ts_code (stock i3); f_name := name (stock i3);
               f_error := cls ++ ": " ++ text |}]
      /\ exists p,
           get_batch_execution_progress (batch_id batch) store' = Some p
           /\ bp_status p = "completed_with_errors"
           /\ bp_progress p = 100%Q
           /\ bp_failed_count p = 1%Z
           /\ bp_succeeded_count p = 4%Z
           /\ bp_current_index p = 5%Z)
  /\ (forall env' store0 batch' force' res' store'',
        execute_batch env' store0 batch' force' = (ExecReturned res', store'') ->
        exists p,
          get_batch_execution_progress (batch_id batch') store'' = Some p
          /\ bp_progress p = 100%Q
          /\ (bp_status p = "completed" <-> r_failed_count res' = 0%Z)
          /\ (bp_status p = "completed_with_errors"
              <-> r_failed_count res' <> 0%Z)).
Proof.
  intros Hst Hcb H1 H2 H3 H4 H5. split.
  - unfold execute_batch, get_batch_execution_progress. rewrite Hst.
    cbn [length run_items].
    set (total := Z.of_nat 5).
    match goal with |- context [mkLoop ?m [] [] 0] => set (st0 := mkLoop m [] [] 0) end.
    destruct (process_item_succeeds env batch total force 1 i1 st0 Hcb H1)
      as (n1 & m1 & ->).
    match goal with
    | |- context [process_item env batch total force ?i i2 ?st] =>
        destruct (process_item_succeeds env batch total force i i2 st Hcb H2)
          as (n2 & m2 & ->)
    end.
    match goal with
    | |- context [process_item env batch total force ?i i3 ?st] =>
        rewrite (process_item_raises env batch total force i i3 st
                   cls text Hcb H3)
    end.
    match goal with
    | |- context [process_item env batch total force ?i i4 ?st] =>
        destruct (process_item_succeeds env batch total force i i4 st Hcb H4)
          as (n4 & m4 & ->)
    end.
    match goal with
    | |- context [process_item env batch total force ?i i5 ?st] =>
        destruct (process_item_succeeds env batch total force i i5 st Hcb H5)
          as (n5 & m5 & ->)
    end.
    eexists _, _. split; [reflexivity|].
    simpl. split_and!; try reflexivity.
    rewrite !lookup_alter_eq, lookup_insert_eq. simpl.
    eexists. split; [reflexivity|]. simpl. split_and!; reflexivity.
  - intros env' store0 batch' force' res' store'' Hex.
    destruct (execute_batch_terminal _ _ _ _ _ _ Hex)
      as (p & Hp & Hprog & Hc & Hce & _).
    exists p. split_and!; assumption.
Qed.

Lemma execute_batch_partial_failure_witness :
  exists res store',
    execute_batch demo_env ∅ demo_batch false = (ExecReturned res, store')
    /\ r_failed_count res = 1%Z
    /\ r_succeeded_count res = 4%Z
    /\ (bp_status <$> get_batch_execution_progress "plan_1" store')
       = Some "completed_with_errors".
Proof.
  destruct (execute_batch_partial_failure demo_env ∅ demo_batch false
              (demo_item "000001.SZ") (demo_item "000002.SZ")
              (demo_item "000006.SZ") (demo_item "000007.SZ")
              (demo_item "000008.SZ") "ConnectionError" "timed out"
              eq_refl I
              (conj eq_refl (ex_intro _ _ (ex_intro _ _ (ex_intro _ _ eq_refl))))
              (conj eq_refl (ex_intro _ _ (ex_intro _ _ (ex_intro _ _ eq_refl))))
              (conj eq_refl eq_refl)
              (conj eq_refl (ex_intro _ _ (ex_intro _ _ (ex_intro _ _ eq_refl))))
              (conj eq_refl (ex_intro _ _ (ex_intro _ _ (ex_intro _ _ eq_refl)))))
    as [(res & store' & Hex & Hf & Hs & _ & _ & _ & _ & p & Hp & Hstat & _) _].
  exists res, store'. split_and!; try assumption.
  change (get_batch_execution_progress (batch_id demo_batch) store')
    with (get_batch_execution_progress "plan_1" store') in Hp.
  rewrite Hp. simpl. by rewrite Hstat.
Defined.

End ExecuteBatchProperties.


(* ===================================================================== *)
(** * Part III: further properties of the code                            *)
(* ===================================================================== *)

(** ** The task queue and its endpoints *)
Section TaskQueueFurther.
Import ImprovedTaskQueue.

(** X1. Pausing a RUNNING task and resuming it gives back a RUNNING task
    whose controller is unpaused with its event set and its cancellation
    flag as before; both calls return true, and nothing of the task but
    the message and the controller's pause state is touched. A second
    [pause_task] on the paused task returns false and changes nothing. *)
Theorem pause_then_resume_restores (q : Queue) (tid : string)
        (t : TaskInfo) (c : CancellableTask) :
  tasks q !! tid = Some t ->
  status t = RUNNING ->
  controller t = Some c ->
  let q1 := (pause_task tid q).1 in
  let q2 := (resume_task tid q1).1 in
  (pause_task tid q).2 = true
  /\ status <$> tasks q1 !! tid = Some PAUSED
  /\ (fun t' => is_paused <$> controller t') <$> tasks q1 !! tid
     = Some (Some true)
  /\ pause_task tid q1 = (q1, false)
  /\ (resume_task tid q1).2 = true
  /\ tasks q2 !! tid
     = Some (set_message "任务已恢复"
               (set_controller
                  (Some {| ct_task_id := ct_task_id c;
                           _should_cancel := _should_cancel c;
                           _is_paused := false;
                           _pause_event := true |}) t))
  /\ (forall other, other <> tid -> tasks q2 !! other = tasks q !! other)
  /\ queue q2 = queue q
  /\ exec_log q2 = exec_log q.
Proof.
  intros Ht Hs Hc. simpl.
  assert (Hp : pause_task tid q
               = (with_tasks
                    (<[tid := set_message "任务已暂停"
                                (set_status PAUSED
                                   (set_controller (Some (pause c)) t))]>
                       (tasks q)) q, true)).
  { unfold pause_task. rewrite Ht, Hc, Hs. reflexivity. }
  rewrite Hp. simpl.
  unfold pause_task, resume_task. simpl. rewrite !lookup_insert_eq. simpl.
  rewrite lookup_insert_eq. split_and!; try reflexivity.
  - f_equal. destruct t; simpl in *. subst. reflexivity.
  - intros other Hne. by rewrite !lookup_insert_ne.
Qed.

Lemma pause_then_resume_restores_witness :
  (resume_task "t1" (pause_task "t1" demo_running_queue).1).2 = true
  /\ status <$> tasks (resume_task "t1" (pause_task "t1" demo_running_queue).1).1
                !! "t1"
     = Some RUNNING.
Proof.
  destruct (pause_then_resume_restores demo_running_queue "t1"
              demo_running_task (CancellableTask_init "t1")
              ltac:(vm_compute; reflexivity) eq_refl eq_refl)
    as (_ & _ & _ & _ & Hr & Ht & _).
  split; [exact Hr|]. rewrite Ht. reflexivity.
Defined.

(** X2. [cancel_task] returns true exactly for a known task that is
    PENDING, or RUNNING with a controller; in every other case (unknown
    id, PAUSED, SUCCESS, FAILED, CANCELLED) it returns false and leaves
    the queue as it was. In particular a paused task cannot be
    cancelled. *)
Theorem cancel_task_accepts_iff (q : Queue) (tid : string) :
  ((cancel_task tid q).2 = true <->
   exists t, tasks q !! tid = Some t
             /\ (status t = PENDING
                 \/ (status t = RUNNING /\ is_Some (controller t))))
  /\ ((cancel_task tid q).2 = false -> (cancel_task tid q).1 = q).
Proof.
  unfold cancel_task.
  destruct (tasks q !! tid) as [t|] eqn:Ht.
  - assert (Hyes : status t = PENDING
                   \/ (status t = RUNNING /\ is_Some (controller t)) ->
                   exists t', Some t = Some t'
                     /\ (status t' = PENDING
                         \/ (status t' = RUNNING /\ is_Some (controller t'))))
      by (intros H; by exists t).
    assert (Hno : ~ (status t = PENDING
                     \/ (status t = RUNNING /\ is_Some (controller t))) ->
                  ~ exists t', Some t = Some t'
                      /\ (status t' = PENDING
                          \/ (status t' = RUNNING
                              /\ is_Some (controller t'))))
      by (intros H (t' & [= <-] & H'); by apply H).
    destruct (status t) eqn:Hs; destruct (controller t) as [c|] eqn:Hc;
      simpl.
    all: split; [split|].
    all: try (intros _; apply Hyes; first [by left | right; split; [done | by eexists]]).
    all: try (intros H; exfalso; revert H; apply Hno;
              intros [H | [H [? H']]]; congruence).
    all: try (intros H; first [reflexivity | discriminate]).
  - simpl. split; [|done]. split; [done|]. by intros (t & ? & _).
Qed.

Lemma cancel_task_accepts_iff_witness :
  (cancel_task "t1" (demo_queue returning_executor)).2 = true
  /\ (cancel_task "nobody" (demo_queue returning_executor)).1
     = demo_queue returning_executor.
Proof.
  split.
  - apply (cancel_task_accepts_iff (demo_queue returning_executor) "t1").
    exists demo_pending_task.
    split; [vm_compute; reflexivity | left; reflexivity].
  - apply (cancel_task_accepts_iff (demo_queue returning_executor) "nobody").
    vm_compute; reflexivity.
Defined.

Lemma has_running_task_of_type_spec (ty : string) (q : Queue) :
  has_running_task_of_type ty q = true <->
  exists tid t, tasks q !! tid = Some t
                /\ task_type t = ty
                /\ TaskManagementApi.is_live (status t).
Proof.
  unfold has_running_task_of_type, TaskManagementApi.is_live.
  rewrite existsb_exists. split.
  - intros ([tid t] & Hin & Hf). exists tid, t.
    apply list_elem_of_In, elem_of_map_to_list in Hin. simpl in Hf.
    apply andb_true_iff in Hf as [Hty Hst]. apply String.eqb_eq in Hty.
    rewrite !orb_true_iff, !bool_decide_eq_true in Hst.
    split_and!; [done | done | tauto].
  - intros (tid & t & Hlook & Hty & Hst). exists (tid, t). split.
    + by apply list_elem_of_In, elem_of_map_to_list.
    + simpl. apply andb_true_iff. split; [by apply String.eqb_eq|].
      rewrite !orb_true_iff, !bool_decide_eq_true. tauto.
Qed.

(** X3. [has_running_task_of_type] answers true exactly when some task
    of that type is PENDING, RUNNING or PAUSED; a type all of whose
    tasks have finished (or that was never submitted) gets false. *)
Theorem has_running_task_of_type_iff (ty : string) (q : Queue) :
  (has_running_task_of_type ty q = true <->
   exists tid t, tasks q !! tid = Some t
                 /\ task_type t = ty
                 /\ TaskManagementApi.is_live (status t))
  /\ (has_running_task_of_type ty q = false <->
      forall tid t, tasks q !! tid = Some t -> task_type t = ty ->
                    TaskManagementApi.is_terminal (status t)).
Proof.
  split; [apply has_running_task_of_type_spec|].
  pose proof (has_running_task_of_type_spec ty q) as Hspec.
  unfold TaskManagementApi.is_live, TaskManagementApi.is_terminal in *.
  split.
  - intros Hf tid t Hlook Hty.
    destruct (status t) eqn:Hs; auto;
      exfalso; rewrite (proj2 Hspec) in Hf; try discriminate;
      exists tid, t; rewrite Hs; auto.
  - intros Hall. destruct (has_running_task_of_type ty q) eqn:E;
      [|reflexivity].
    destruct (proj1 Hspec eq_refl) as (tid & t & Hlook & Hty & Hlive).
    specialize (Hall tid t Hlook Hty).
    destruct Hlive as [H | [H | H]]; rewrite H in Hall;
      destruct Hall as [? | [? | ?]]; discriminate.
Qed.

Lemma has_running_task_of_type_iff_witness :
  has_running_task_of_type "sync_kline" (demo_queue returning_executor) = true
  /\ forall tid t,
       tasks (Queue_init 2) !! tid = Some t -> task_type t = "sync_kline" ->
       TaskManagementApi.is_terminal (status t).
Proof.
  split.
  - apply (has_running_task_of_type_iff "sync_kline"
             (demo_queue returning_executor)).
    exists "t1", demo_pending_task.
    split_and!; [vm_compute; reflexivity | reflexivity | left; reflexivity].
  - apply (has_running_task_of_type_iff "sync_kline" (Queue_init 2)).
    vm_compute; reflexivity.
Defined.

(** X4. [submit] registers the task under its new id as PENDING with a
    fresh controller (no cancellation requested, not paused), puts its
    entry at the tail of the queue behind everything already waiting,
    starts the queue, touches no other task, and from then on
    [has_running_task_of_type] answers true for its type. *)
Theorem submit_registers_pending (q : Queue) (new_id ty : string) (now : Z)
        (ps : gmap string string) (executor : Executor) :
  let q' := (submit new_id now ty ps executor q).1 in
  (submit new_id now ty ps executor q).2 = new_id
  /\ status <$> get_task new_id q' = Some PENDING
  /\ controller <$> get_task new_id q'
     = Some (Some (CancellableTask_init new_id))
  /\ List.map fst (queue q') = (List.map fst (queue q) ++ [new_id])%list
  /\ is_running q' = true
  /\ exec_log q' = exec_log q
  /\ (forall other, other <> new_id -> get_task other q' = get_task other q)
  /\ has_running_task_of_type ty q' = true.
Proof.
  simpl. unfold get_task, submit. simpl. rewrite lookup_insert_eq. simpl.
  split_and!; try reflexivity.
  - rewrite List.map_app. reflexivity.
  - intros other Hne. by rewrite lookup_insert_ne.
  - apply has_running_task_of_type_spec. eexists new_id, _. simpl.
    rewrite lookup_insert_eq. split_and!; try reflexivity. by left.
Qed.

Lemma submit_registers_pending_witness :
  get_task "t0" (submit "t1" 0 "sync_kline" ∅ returning_executor
                   (Queue_init 2)).1
  = get_task "t0" (Queue_init 2).
Proof.
  destruct (submit_registers_pending (Queue_init 2) "t1" "sync_kline" 0 ∅
              returning_executor) as (_ & _ & _ & _ & _ & _ & H & _).
  apply H. discriminate.
Defined.

Lemma popped_not_current (tid : string) (cur : gset string) :
  tid ∉ ({[tid]} ∪ cur) ∖ {[tid]}.
Proof.
  intros [_ H]%elem_of_difference. apply H. by apply elem_of_singleton.
Qed.

(** What a pass of the worker does when the head entry is runnable. *)
Lemma worker_iteration_runs (now : Z) (q : Queue) (tid : string)
      (executor : Executor) (rest : list (string * Executor))
      (t t2 : TaskInfo) (c : CancellableTask) (out : Outcome) :
  queue q = (tid, executor) :: rest ->
  tasks q !! tid = Some t ->
  controller t = Some c ->
  check_cancelled c = false ->
  executor (mark_running now t) = (t2, out) ->
  worker_iteration now q
  = (with_log (exec_log q ++ [tid])%list
       (with_current (({[tid]} ∪ current_tasks q) ∖ {[tid]})
          (with_tasks (<[tid := (after_executor now t2 out).1]> (tasks q))
             (with_queue rest q))),
     (after_executor now t2 out).2).
Proof.
  intros Hq Ht Hc Hnc Hex. unfold worker_iteration.
  rewrite Hq. simpl. rewrite Ht, Hc, Hnc, Hex.
  by destruct (after_executor now t2 out).
Qed.

Lemma after_executor_terminal (now : Z) (t2 : TaskInfo) (out : Outcome) :
  (forall text, out <> Raises (ExcBaseOnly text)) ->
  (after_executor now t2 out).2 = Continue
  /\ TaskManagementApi.is_terminal (status (after_executor now t2 out).1)
  /\ completed_at (after_executor now t2 out).1 = Some now
  /\ (status (after_executor now t2 out).1 = SUCCESS <->
      out = Returns
      /\ exists c2, controller t2 = Some c2 /\ check_cancelled c2 = false)
  /\ (status (after_executor now t2 out).1 = SUCCESS ->
      progress (after_executor now t2 out).1 = 100%Q)
  /\ (out = Returns ->
      (exists c2, controller t2 = Some c2 /\ check_cancelled c2 = true) ->
      status (after_executor now t2 out).1 = CANCELLED).
Proof.
  intros Hout. unfold TaskManagementApi.is_terminal, after_executor.
  destruct out as [|[|cls text|text]];
    [destruct (controller t2) as [c2|] eqn:Hc2;
     [destruct (check_cancelled c2) eqn:Hcc|]| | |by destruct (Hout text)];
    simpl; split_and!;
    try reflexivity; try (by auto); try (intros; congruence).
  all: try (split; [discriminate | intros (H & c' & Hc' & Hcc'); congruence]).
  all: try (intros _ (c' & Hc' & Hcc'); congruence).
  split; [|reflexivity]. intros _. split; [reflexivity|]. by exists c2.
Qed.

(** X5. When a worker runs a task and the executor returns or raises
    anything but a bare [BaseException], the pass ends with the task in a
    terminal status with its completion time set, and the task is no
    longer among the current tasks. The status is SUCCESS exactly when
    the executor returned and the cancellation flag is clear at that
    moment (the progress is then 100); an executor that returns after a
    cancellation request leaves the task CANCELLED. *)
Theorem worker_pass_ends_terminal (now : Z) (q : Queue) (tid : string)
        (executor : Executor) (rest : list (string * Executor))
        (t t2 : TaskInfo) (c : CancellableTask) (out : Outcome) :
  queue q = (tid, executor) :: rest ->
  tasks q !! tid = Some t ->
  controller t = Some c ->
  check_cancelled c = false ->
  executor (mark_running now t) = (t2, out) ->
  (forall text, out <> Raises (ExcBaseOnly text)) ->
  let q' := (worker_iteration now q).1 in
  exists t3,
    tasks q' !! tid = Some t3
    /\ (worker_iteration now q).2 = Continue
    /\ TaskManagementApi.is_terminal (status t3)
    /\ completed_at t3 = Some now
    /\ (tid ∉ current_tasks q')
    /\ (status t3 = SUCCESS <->
        out = Returns
        /\ exists c2, controller t2 = Some c2 /\ check_cancelled c2 = false)
    /\ (status t3 = SUCCESS -> progress t3 = 100%Q)
    /\ (out = Returns ->
        (exists c2, controller t2 = Some c2 /\ check_cancelled c2 = true) ->
        status t3 = CANCELLED).
Proof.
  intros Hq Ht Hc Hnc Hex Hout. simpl.
  rewrite (worker_iteration_runs now q tid executor rest t t2 c out
             Hq Ht Hc Hnc Hex). simpl.
  rewrite lookup_insert_eq.
  destruct (after_executor_terminal now t2 out Hout)
    as (H1 & H2 & H3 & H4 & H5 & H6).
  exists (after_executor now t2 out).1.
  split_and!; try assumption; [reflexivity | apply popped_not_current].
Qed.

Lemma worker_pass_ends_terminal_witness :
  exists t3,
    tasks (worker_iteration 1 (demo_queue returning_executor)).1 !! "t1"
    = Some t3
    /\ status t3 = SUCCESS.
Proof.
  destruct (worker_pass_ends_terminal 1 (demo_queue returning_executor) "t1"
              returning_executor [] demo_pending_task
              (mark_running 1 demo_pending_task)
              (CancellableTask_init "t1") Returns
              eq_refl ltac:(vm_compute; reflexivity) eq_refl eq_refl eq_refl
              ltac:(discriminate))
    as (t3 & Ht3 & _ & _ & _ & _ & Hiff & _).
  exists t3. split; [exact Ht3|].
  apply Hiff. split; [reflexivity|].
  exists (CancellableTask_init "t1"). split; reflexivity.
Defined.

(** X6. When the executor raises a [BaseException] that is not an
    [Exception] ([KeyboardInterrupt], [SystemExit]), no handler of the
    worker takes it: the worker stops with that exception, the task is
    left exactly as the executor left it (so still RUNNING if the
    executor did not touch the status, with no completion time and no
    error text written), the entries behind it stay in the queue, and
    only the [finally] clause has run. *)
Theorem worker_crashes_on_base_exception (now : Z) (q : Queue)
        (tid : string) (executor : Executor)
        (rest : list (string * Executor)) (t t2 : TaskInfo)
        (c : CancellableTask) (text : string) (clock : list Z) :
  queue q = (tid, executor) :: rest ->
  tasks q !! tid = Some t ->
  controller t = Some c ->
  check_cancelled c = false ->
  executor (mark_running now t) = (t2, Raises (ExcBaseOnly text)) ->
  is_running q = true ->
  let q' := (_worker (now :: clock) q).1 in
  (_worker (now :: clock) q).2 = Crashed (ExcBaseOnly text)
  /\ tasks q' !! tid = Some t2
  /\ queue q' = rest
  /\ (tid ∉ current_tasks q')
  /\ (status t2 = RUNNING ->
      status <$> tasks q' !! tid = Some RUNNING)
  /\ status (mark_running now t) = RUNNING.
Proof.
  intros Hq Ht Hc Hnc Hex Hrun. simpl. rewrite Hrun.
  rewrite (worker_iteration_runs now q tid executor rest t t2 c _
             Hq Ht Hc Hnc Hex). simpl.
  rewrite lookup_insert_eq.
  split_and!; try reflexivity; [apply popped_not_current|].
  intros H. simpl. by rewrite H.
Qed.

Lemma worker_crashes_on_base_exception_witness :
  (_worker [1%Z; 2%Z; 3%Z] (demo_queue TaskManagementApi.killed_executor)).2
  = Crashed (ExcBaseOnly "KeyboardInterrupt")
  /\ status <$> tasks (_worker [1%Z; 2%Z; 3%Z]
                         (demo_queue TaskManagementApi.killed_executor)).1
                !! "t1"
     = Some RUNNING.
Proof.
  destruct (worker_crashes_on_base_exception 1
              (demo_queue TaskManagementApi.killed_executor) "t1"
              TaskManagementApi.killed_executor [] demo_pending_task
              (mark_running 1 demo_pending_task)
              (CancellableTask_init "t1") "KeyboardInterrupt" [2%Z; 3%Z]
              eq_refl ltac:(vm_compute; reflexivity) eq_refl eq_refl eq_refl
              eq_refl)
    as (H1 & _ & _ & _ & H2 & _).
  split; [exact H1 | exact (H2 eq_refl)].
Defined.

(** A pass of the worker takes the head entry off the queue, if there
    is one, and calls at most its executor. *)
Lemma worker_iteration_shape (now : Z) (q : Queue) :
  (queue q = [] /\ worker_iteration now q = (q, Continue))
  \/ (exists tid executor rest,
        queue q = (tid, executor) :: rest
        /\ queue (worker_iteration now q).1 = rest
        /\ is_running (worker_iteration now q).1 = is_running q
        /\ (exec_log (worker_iteration now q).1 = exec_log q
            \/ exec_log (worker_iteration now q).1
               = (exec_log q ++ [tid])%list)).
Proof.
  unfold worker_iteration.
  destruct (queue q) as [|[tid executor] rest] eqn:Hq; [by left|].
  right. exists tid, executor, rest. split; [reflexivity|]. simpl.
  destruct (tasks q !! tid) as [t|]; [|by auto].
  destruct (controller t) as [c|]; [|by auto].
  destruct (check_cancelled c); [by auto|].
  destruct (executor (mark_running now t)) as [t2 out].
  destruct (after_executor now t2 out) as [t3 ctl]. simpl. by auto.
Qed.

(** X7. Executors are called in the order of the queue: whatever a
    worker does with the clock readings it gets, the entries it has
    consumed are a prefix of the queue, and the executors it has called
    are, in order, among the ids of that prefix (each entry at most
    once). *)
Theorem worker_runs_in_queue_order (clock : list Z) :
  forall q : Queue,
    exists (consumed : list (string * Executor)) (called : list string),
      queue q = (consumed ++ queue (_worker clock q).1)%list
      /\ exec_log (_worker clock q).1 = (exec_log q ++ called)%list
      /\ called `sublist_of` List.map fst consumed.
Proof.
  induction clock as [|now clock IH]; intros q; simpl.
  - exists [], []. by rewrite app_nil_r.
  - destruct (is_running q); [|exists [], []; by rewrite app_nil_r].
    destruct (worker_iteration_shape now q)
      as [[Hq Hw] | (tid & ex & rest & Hq & Hq' & _ & Hlog)].
    + rewrite Hw. apply IH.
    + destruct (worker_iteration now q) as [q1 ctl] eqn:Hstep.
      simpl in Hq', Hlog.
      assert (Hone : exists called1,
                 exec_log q1 = (exec_log q ++ called1)%list
                 /\ called1 `sublist_of` [tid]).
      { destruct Hlog as [-> | ->].
        - exists []. rewrite app_nil_r. split; [done|]. apply sublist_nil_l.
        - exists [tid]. done. }
      destruct Hone as (called1 & Hlog1 & Hsub1).
      destruct ctl as [| |e]; simpl.
      * destruct (IH q1) as (consumed & called & Hc & Hl & Hs).
        exists ((tid, ex) :: consumed), (called1 ++ called)%list.
        split_and!.
        -- rewrite Hq. simpl. f_equal. by rewrite <- Hq', <- Hc.
        -- rewrite Hl, Hlog1. by rewrite app_assoc.
        -- change (List.map fst ((tid, ex) :: consumed))
             with ([tid] ++ List.map fst consumed)%list.
           by apply sublist_app.
      * exists [(tid, ex)], called1. split_and!; [by rewrite Hq, Hq' | done | done].
      * exists [(tid, ex)], called1. split_and!; [by rewrite Hq, Hq' | done | done].
Qed.

(** The worker never calls the executor of a task that is not in the
    task map, and never puts such a task into the map. *)
Lemma worker_skips_unknown (clock : list Z) (tid : string) :
  forall q : Queue,
    tasks q !! tid = None ->
    tasks (_worker clock q).1 !! tid = None
    /\ invocations tid (_worker clock q).1 = invocations tid q.
Proof.
  assert (Hstep : forall now q,
             tasks q !! tid = None ->
             tasks (worker_iteration now q).1 !! tid = None
             /\ invocations tid (worker_iteration now q).1
                = invocations tid q).
  { intros now q Hnone. unfold worker_iteration, invocations.
    destruct (queue q) as [|[hd ex] rest]; [done|]. simpl.
    destruct (decide (hd = tid)) as [->|Hne].
    - rewrite Hnone. done.
    - destruct (tasks q !! hd) as [t|]; [|done].
      destruct (controller t) as [c|]; [|done].
      destruct (check_cancelled c); simpl.
      + by rewrite lookup_insert_ne.
      + destruct (ex (mark_running now t)) as [t2 out].
        destruct (after_executor now t2 out) as [t3 ctl]. simpl.
        rewrite lookup_insert_ne by done. split; [done|].
        rewrite count_occ_snoc. destruct (string_dec hd tid); [done | lia]. }
  induction clock as [|now clock IH]; intros q Hnone; simpl; [done|].
  destruct (is_running q); [|done].
  destruct (Hstep now q Hnone) as [H1 H2].
  destruct (worker_iteration now q) as [q1 [| |e]]; simpl in *; try done.
  destruct (IH q1 H1) as [H3 H4]. split; [done | congruence].
Qed.

(** X8. Deleting the record of a task that is not running (the DELETE
    endpoint) answers 200 and removes it from the task map while its
    entry stays in the queue; a worker that later reaches the entry
    drops it: the executor of the deleted task is never called and the
    task never reappears. A running task is refused with 400 and an
    unknown id with 404, both without any change. *)
Theorem deleted_task_never_runs (q : Queue) (tid : string) :
  (forall t, tasks q !! tid = Some t -> status t <> RUNNING ->
     let q1 := (TaskManagementApi.delete_task tid q).1 in
     (TaskManagementApi.delete_task tid q).2
     = TaskManagementApi.Response 200 "任务记录已删除"
     /\ get_task tid q1 = None
     /\ queue q1 = queue q
     /\ (forall other, other <> tid -> get_task other q1 = get_task other q)
     /\ forall clock,
          invocations tid (_worker clock q1).1 = invocations tid q
          /\ get_task tid (_worker clock q1).1 = None)
  /\ (forall t, tasks q !! tid = Some t -> status t = RUNNING ->
        TaskManagementApi.delete_task tid q
        = (q, TaskManagementApi.Response 400 "无法删除正在执行的任务"))
  /\ (tasks q !! tid = None ->
      TaskManagementApi.delete_task tid q = (q, TaskManagementApi.NotFound)).
Proof.
  unfold TaskManagementApi.delete_task, get_task. split_and!.
  - intros t Ht Hs. rewrite Ht.
    assert (E : String.eqb (TaskManagementApi.status_value (status t))
                           "running" = false)
      by (destruct (status t); done).
    rewrite E. simpl. rewrite lookup_delete_eq.
    split_and!; try reflexivity.
    + intros other Hne. by rewrite lookup_delete_ne.
    + intros clock.
      destruct (worker_skips_unknown clock tid
                  (with_tasks (delete tid (tasks q)) q)) as [H1 H2].
      { simpl. apply lookup_delete_eq. }
      split; [exact H2 | exact H1].
  - intros t Ht Hs. rewrite Ht, Hs. reflexivity.
  - intros Ht. by rewrite Ht.
Qed.

Lemma deleted_task_never_runs_witness :
  get_task "t1"
    (TaskManagementApi.delete_task "t1" (demo_queue returning_executor)).1
  = None
  /\ invocations "t1"
       (_worker [1%Z; 2%Z]
          (TaskManagementApi.delete_task "t1"
             (demo_queue returning_executor)).1).1
     = 0%nat.
Proof.
  destruct (deleted_task_never_runs (demo_queue returning_executor) "t1")
    as (Hdel & _ & _).
  destruct (Hdel demo_pending_task ltac:(vm_compute; reflexivity)
              ltac:(discriminate)) as (_ & Hnone & _ & _ & Hrun).
  split; [exact Hnone|].
  destruct (Hrun [1%Z; 2%Z]) as [Hinv _]. rewrite Hinv. reflexivity.
Defined.

(** X9. The cancel endpoint answers 200 exactly for a task that is
    PENDING, or RUNNING with a controller. A paused task is refused with
    400 and stays as it is: it has to be resumed before it can be
    cancelled. A finished task is refused with 400 before the queue is
    asked, an unknown id with 404. *)
Theorem cancel_endpoint_answers (q : Queue) (tid : string) :
  (forall t, tasks q !! tid = Some t ->
     ((TaskManagementApi.cancel_task tid q).2
      = TaskManagementApi.Response 200 "任务取消成功" <->
      status t = PENDING \/ (status t = RUNNING /\ is_Some (controller t)))
     /\ (status t = PAUSED ->
         TaskManagementApi.cancel_task tid q
         = (q, TaskManagementApi.Response 400 "任务无法取消"))
     /\ (TaskManagementApi.is_terminal (status t) ->
         TaskManagementApi.cancel_task tid q
         = (q, TaskManagementApi.Response 400
                 ("任务已" ++ TaskManagementApi.status_value (status t)
                    ++ "，无法取消"))))
  /\ (tasks q !! tid = None ->
      TaskManagementApi.cancel_task tid q = (q, TaskManagementApi.NotFound)).
Proof.
  unfold TaskManagementApi.cancel_task, get_task, cancel_task,
    TaskManagementApi.is_terminal.
  split.
  - intros t Ht. rewrite Ht.
    destruct (status t) eqn:Hs; destruct (controller t) as [c|] eqn:Hc;
      simpl; split_and!;
      try (intros [H | [H | H]]; first [reflexivity | discriminate]);
      try (intros H; first [reflexivity | discriminate]).
    all: split;
      [intros H; first [discriminate
                       | by left
                       | right; split; [reflexivity | by eexists]]
      |intros [H | [H [? H']]]; first [reflexivity | congruence]].
  - intros Ht. by rewrite Ht.
Qed.

Lemma cancel_endpoint_answers_witness :
  (TaskManagementApi.cancel_task "t1" demo_running_queue).2
  = TaskManagementApi.Response 200 "任务取消成功".
Proof.
  destruct (cancel_endpoint_answers demo_running_queue "t1") as [H _].
  destruct (H demo_running_task ltac:(vm_compute; reflexivity)) as (Hiff & _).
  apply Hiff. right. split; [reflexivity | by eexists].
Defined.

End TaskQueueFurther.

Section TaskQueueDrain.
Import ImprovedTaskQueue.

(** X10. A started worker whose executors never let a bare
    [BaseException] out does not stop by itself and works the queue off:
    given at least as many passes as there are entries, it leaves the
    queue empty and is still running (polling) at the end. *)
Theorem worker_drains_queue (clock : list Z) :
  forall q : Queue,
    is_running q = true ->
    Forall (fun entry : string * Executor =>
              TaskManagementApi.well_behaved entry.2) (queue q) ->
    (length (queue q) <= length clock)%nat ->
    queue (_worker clock q).1 = []
    /\ (_worker clock q).2 = StillRunning
    /\ is_running (_worker clock q).1 = true.
Proof.
  induction clock as [|now clock IH]; intros q Hrun Hwb Hlen; simpl.
  - destruct (queue q); [done | simpl in Hlen; lia].
  - rewrite Hrun.
    assert (Hstep : exists q1,
               worker_iteration now q = (q1, Continue)
               /\ is_running q1 = true
               /\ queue q1 = tl (queue q)).
    { unfold worker_iteration.
      destruct (queue q) as [|[tid ex] rest] eqn:Hq; [by exists q|].
      inversion Hwb as [|? ? Hex _]; subst. simpl in *.
      destruct (tasks q !! tid) as [t|]; [|by eexists].
      destruct (controller t) as [c|]; [|by eexists].
      destruct (check_cancelled c); [by eexists|].
      specialize (Hex (mark_running now t)).
      destruct (ex (mark_running now t)) as [t2 out]. simpl in Hex.
      unfold after_executor.
      destruct out as [|[|cls text|text]];
        [destruct (controller t2) as [c2|];
         [destruct (check_cancelled c2)|]| | |by destruct (Hex text)];
        simpl; by eexists. }
    destruct Hstep as (q1 & -> & Hrun1 & Hq1).
    apply IH; [exact Hrun1| |].
    + rewrite Hq1. destruct (queue q); [done|].
      by inversion Hwb.
    + rewrite Hq1. destruct (queue q); simpl in *; lia.
Qed.

Lemma worker_drains_queue_witness :
  queue (_worker [1%Z; 2%Z] (demo_queue returning_executor)).1 = []
  /\ (_worker [1%Z; 2%Z] (demo_queue returning_executor)).2 = StillRunning.
Proof.
  destruct (worker_drains_queue [1%Z; 2%Z] (demo_queue returning_executor)
              eq_refl) as (H1 & H2 & _).
  - repeat constructor. intros t text. discriminate.
  - simpl. lia.
  - split; [exact H1 | exact H2].
Defined.

End TaskQueueDrain.

(** ** The token bucket: what it grants *)
Section TokenBucketFurther.
Import TokenBucket.
Local Open Scope Q_scope.

Lemma refill_budget (now : Q) (rl : RateLimiter) :
  tokens (refill now rl)
  <= tokens rl + requests_per_second rl * (now - last_update rl).
Proof.
  unfold refill. simpl.
  pose proof (Q.le_min_r (inject_Z (burst_size rl))
                (tokens rl + (now - last_update rl) * requests_per_second rl)).
  lra.
Qed.

(** A call that returns has paid for its tokens out of what was in the
    bucket and what the elapsed time has earned. *)
Lemma wait_loop_budget (n : Z) (clock : list Q) :
  forall rl rl',
    (wait_loop n clock rl).1 = Acquired rl' ->
    requests_per_second rl' = requests_per_second rl
    /\ tokens rl' + inject_Z n
       <= tokens rl + requests_per_second rl * (last_update rl' - last_update rl).
Proof.
  induction clock as [|now clock IH]; intros rl rl'; simpl.
  - destruct (Qltb (tokens rl) (inject_Z n));
      [destruct (Qeq_bool (requests_per_second rl) 0)|]; simpl;
      try discriminate.
    intros [= <-]. simpl. split; [reflexivity | lra].
  - destruct (Qltb (tokens rl) (inject_Z n));
      [destruct (Qeq_bool (requests_per_second rl) 0)|]; simpl;
      try discriminate.
    + specialize (IH (refill now rl) rl').
      pose proof (refill_budget now rl) as Hrb.
      destruct (wait_loop n clock (refill now rl)) as [res tr].
      intros Hres. destruct (IH Hres) as [Hr Hb]. split; [exact Hr|].
      change (requests_per_second (refill now rl))
        with (requests_per_second rl) in Hb.
      change (last_update (refill now rl)) with now in Hb.
      lra.
    + intros [= <-]. simpl. split; [reflexivity | lra].
Qed.

Lemma acquire_budget (n : Z) (clock : list Q) (rl rl' : RateLimiter) :
  (acquire n clock rl).1 = Acquired rl' ->
  requests_per_second rl' = requests_per_second rl
  /\ tokens rl' + inject_Z n
     <= tokens rl + requests_per_second rl * (last_update rl' - last_update rl).
Proof.
  destruct clock as [|now clock]; simpl; [discriminate|].
  pose proof (wait_loop_budget n clock (refill now rl) rl') as Hw.
  pose proof (refill_budget now rl) as Hrb.
  destruct (wait_loop n clock (refill now rl)) as [res tr].
  intros Hres. destruct (Hw Hres) as [Hr Hb]. split; [exact Hr|].
  change (requests_per_second (refill now rl))
    with (requests_per_second rl) in Hb.
  change (last_update (refill now rl)) with now in Hb.
  lra.
Qed.

Lemma acquire_all_budget (calls : list (Z * list Q)) :
  forall rl rl',
    (acquire_all calls rl).1 = Acquired rl' ->
    requests_per_second rl' = requests_per_second rl
    /\ tokens rl' + inject_Z (requested calls)
       <= tokens rl + requests_per_second rl * (last_update rl' - last_update rl).
Proof.
  induction calls as [|[n clock] calls IH]; intros rl rl'; simpl.
  - intros [= <-]. unfold requested. simpl. split; [reflexivity|].
    change (inject_Z 0) with 0. lra.
  - pose proof (acquire_budget n clock rl) as Hone.
    destruct (acquire n clock rl) as [[rl1|rl1|rl1] tr]; simpl;
      try discriminate.
    destruct (Hone rl1 eq_refl) as [Hr1 Hb1].
    specialize (IH rl1 rl').
    destruct (acquire_all calls rl1) as [res tr']. simpl in *.
    intros Hres. destruct (IH Hres) as [Hr Hb]. split; [congruence|].
    unfold requested in *. simpl. rewrite inject_Z_plus.
    rewrite Hr1 in Hb. lra.
Qed.

(** X11. The limiter enforces its rate. When every call of a sequence on
    a freshly constructed limiter ([B > 0], [r > 0], each call asking
    for [0 <= n <= B] tokens, clock never going back) has returned, the
    tokens granted in total are at most the burst plus what the rate
    yields over the time from construction to the last refill:
    [sum n <= B + r * (last_update - t0)]. *)
Theorem acquire_respects_rate
        (r : Q) (B : Z) (t0 : Q) (calls : list (Z * list Q))
        (rl' : RateLimiter) :
  (0 < B)%Z ->
  0 < r ->
  Forall (fun c : Z * list Q => (0 <= c.1 <= B)%Z) calls ->
  nondecreasing_from t0 (concat (List.map snd calls)) ->
  (acquire_all calls (RateLimiter_init r B t0)).1 = Acquired rl' ->
  inject_Z (requested calls) <= inject_Z B + r * (last_update rl' - t0).
Proof.
  intros HB Hr Hcalls Hclock Hres.
  set (rl0 := RateLimiter_init r B t0) in *.
  assert (Hin0 : in_range rl0).
  { unfold in_range, rl0. simpl. split; [|lra].
    change (inject_Z 0 <= inject_Z B). rewrite <- Zle_Qle. lia. }
  destruct (acquire_all_in_range calls rl0 Hr Hin0 Hcalls Hclock)
    as (_ & Hst & _).
  rewrite Hres in Hst. simpl in Hst. destruct Hst as [Hlo _].
  destruct (acquire_all_budget calls rl0 rl' Hres) as [_ Hb].
  unfold rl0 in Hb. simpl in Hb. lra.
Qed.

Lemma acquire_respects_rate_witness :
  inject_Z (requested demo_calls)
  <= inject_Z 3
     + (1 # 5)
       * (last_update
            (state_of (acquire_all demo_calls (RateLimiter_init (1 # 5) 3 0)).1)
          - 0).
Proof.
  assert (H1 : (0 < 3)%Z) by lia.
  assert (H2 : 0 < 1 # 5) by reflexivity.
  assert (H3 : Forall (fun c : Z * list Q => (0 <= c.1 <= 3)%Z) demo_calls).
  { unfold demo_calls. repeat constructor; simpl; lia. }
  assert (H4 : nondecreasing_from 0 (concat (List.map snd demo_calls))).
  { simpl. unfold Qle. simpl. lia. }
  exact (acquire_respects_rate (1 # 5) 3 0 demo_calls _ H1 H2 H3 H4 eq_refl).
Defined.

(** X12. A call that asks for more tokens than the burst capacity never
    returns: refills are capped at the capacity, so however long the
    clock runs the call is still waiting (or, with a zero rate, has
    raised). *)
Theorem acquire_beyond_burst_never_returns
        (n : Z) (clock : list Q) (rl : RateLimiter) :
  (burst_size rl < n)%Z ->
  forall rl', (acquire n clock rl).1 <> Acquired rl'.
Proof.
  intros HB.
  assert (HBq : inject_Z (burst_size rl) < inject_Z n)
    by (rewrite <- Zlt_Qlt; exact HB).
  assert (Hloop : forall c r0,
             burst_size r0 = burst_size rl ->
             tokens r0 <= inject_Z (burst_size rl) ->
             forall rl', (wait_loop n c r0).1 <> Acquired rl').
  { induction c as [|now c IH]; intros r0 Hb Htk rl'; simpl.
    - assert (E : Qltb (tokens r0) (inject_Z n) = true)
        by (apply Qltb_true; lra).
      rewrite E. destruct (Qeq_bool (requests_per_second r0) 0); discriminate.
    - assert (E : Qltb (tokens r0) (inject_Z n) = true)
        by (apply Qltb_true; lra).
      rewrite E. destruct (Qeq_bool (requests_per_second r0) 0);
        [discriminate|].
      specialize (IH (refill now r0) Hb).
      destruct (wait_loop n c (refill now r0)) as [res tr]. simpl in *.
      apply IH. rewrite <- Hb. apply Q.le_min_l. }
  intros rl'. destruct clock as [|now clock]; simpl; [discriminate|].
  specialize (Hloop clock (refill now rl) eq_refl (Q.le_min_l _ _) rl').
  by destruct (wait_loop n clock (refill now rl)).
Qed.

Lemma acquire_beyond_burst_never_returns_witness :
  ~ exists rl', (acquire 4 demo_clock (RateLimiter_init (1 # 5) 3 0)).1
                = Acquired rl'.
Proof.
  assert (Hburst : (burst_size (RateLimiter_init (1 # 5) 3 0) < 4)%Z)
    by (simpl; lia).
  exact (fun H : exists rl', _ =>
           match H with
           | ex_intro _ rl' Heq =>
               acquire_beyond_burst_never_returns 4 demo_clock
                 (RateLimiter_init (1 # 5) 3 0) Hburst rl' Heq
           end).
Defined.

(** X13. With a zero rate the limiter does not wait: the first call that
    finds the bucket short after its refill raises [ZeroDivisionError]
    (computing [needed / rate]) without sleeping, whereas a call that
    finds enough tokens returns at once, with no sleep and exactly its
    tokens deducted. *)
Theorem acquire_zero_rate_raises
        (n : Z) (now : Q) (clock : list Q) (rl : RateLimiter) :
  (requests_per_second rl == 0 ->
   tokens (refill now rl) < inject_Z n ->
   acquire n (now :: clock) rl
   = (ZeroDivision (refill now rl), [refill_event now rl]))
  /\ (inject_Z n <= tokens (refill now rl) ->
      acquire n (now :: clock) rl
      = (Acquired (consume n (refill now rl)),
         [refill_event now rl;
          EvDeduct (tokens (refill now rl) - inject_Z n)]))
  /\ (requests_per_second rl == 0 -> tokens rl <= inject_Z (burst_size rl) ->
      tokens (refill now rl) == tokens rl).
Proof.
  split_and!.
  - intros Hr Hlt. unfold acquire.
    destruct clock; cbn [wait_loop];
      rewrite (proj2 (Qltb_true _ _) Hlt);
      change (requests_per_second (refill now rl))
        with (requests_per_second rl);
      by rewrite (proj2 (Qeq_bool_iff _ _) Hr).
  - intros Hle. unfold acquire.
    destruct clock; cbn [wait_loop];
      by rewrite (proj2 (Qltb_false _ _) Hle).
  - intros Hr Hle. unfold refill. simpl. rewrite Hr.
    rewrite Q.min_r; lra.
Qed.

Lemma acquire_zero_rate_raises_witness :
  acquire 1 [5] {| requests_per_second := 0; burst_size := 3;
                   tokens := 0; last_update := 0 |}
  = (ZeroDivision {| requests_per_second := 0; burst_size := 3;
                     tokens := Qmin (inject_Z 3) (0 + (5 - 0) * 0);
                     last_update := 5 |},
     [refill_event 5 {| requests_per_second := 0; burst_size := 3;
                        tokens := 0; last_update := 0 |}]).
Proof.
  destruct (acquire_zero_rate_raises 1 5 []
              {| requests_per_second := 0; burst_size := 3;
                 tokens := 0; last_update := 0 |}) as (H & _ & _).
  apply H; reflexivity.
Defined.

End TokenBucketFurther.

(** ** The dual limiter: spacing and slots *)
Section DualLimiterFurther.
Import DualLimiter.
Local Open Scope Q_scope.

(** X14. Two consecutive grants are at least [1 / rate] apart: when a
    slot is free, the rate is positive and the sleep inside [acquire]
    lasts at least as long as asked, the call is granted and the
    timestamp it records is at least [1 / rate_per_second] later than
    the one of the previous grant. *)
Theorem dual_limiter_spacing (s : ConcurrentRateLimiter) (now now' : Q) :
  semaphore s <> 0%Z ->
  0 < rate_per_second s ->
  now + slept now s <= now' ->
  (acquire now now' s).1.1 = Granted
  /\ 1 / rate_per_second s
     <= last_request_time (acquire now now' s).1.2 - last_request_time s.
Proof.
  intros Hs Hr Hsleep. unfold acquire, slept in *.
  apply Z.eqb_neq in Hs. rewrite Hs. simpl.
  destruct (Qeq_bool (rate_per_second s) 0) eqn:E0.
  { apply Qeq_bool_iff in E0. lra. }
  set (m := 1 / rate_per_second s) in *.
  destruct (TokenBucket.Qltb (now - last_request_time s) m) eqn:E; simpl.
  - split; [reflexivity | lra].
  - apply Qltb_false in E. split; [reflexivity | lra].
Qed.

Lemma dual_limiter_spacing_witness :
  (acquire 101 102 demo_limiter).1.1 = Granted
  /\ 1 / rate_per_second demo_limiter
     <= last_request_time (acquire 101 102 demo_limiter).1.2
        - last_request_time demo_limiter.
Proof.
  apply (dual_limiter_spacing demo_limiter 101 102).
  - discriminate.
  - reflexivity.
  - unfold Qle. simpl. lia.
Defined.

Lemma acquire_zero_rate_leaks (s : ConcurrentRateLimiter) (now now' : Q) :
  rate_per_second s == 0 ->
  semaphore s <> 0%Z ->
  acquire now now' s = (ZeroDivision, take_slot s, [EvSlot]).
Proof.
  intros Hr Hs. unfold acquire. apply Z.eqb_neq in Hs. rewrite Hs.
  change (rate_per_second (take_slot s)) with (rate_per_second s).
  by rewrite (proj2 (Qeq_bool_iff _ _) Hr).
Qed.

(** X15. Slots are given back only by [release]. After a granted
    [acquire], [release] restores the number of free slots. But with a
    zero rate every [acquire] that finds a free slot takes it and then
    raises [ZeroDivisionError] (computing [1.0 / rate]) with the slot
    still taken and the timestamp unchanged: after as many such calls as
    there were free slots, every further [acquire] blocks. *)
Theorem dual_limiter_slot_accounting
        (s : ConcurrentRateLimiter) (now now' : Q) :
  (semaphore s <> 0%Z -> ~ rate_per_second s == 0 ->
   (acquire now now' s).1.1 = Granted
   /\ semaphore (release (acquire now now' s).1.2) = semaphore s
   /\ in_flight (release (acquire now now' s).1.2) = in_flight s)
  /\ (semaphore s <> 0%Z -> rate_per_second s == 0 ->
      acquire now now' s = (ZeroDivision, take_slot s, [EvSlot])
      /\ semaphore (acquire now now' s).1.2 = (semaphore s - 1)%Z
      /\ last_request_time (acquire now now' s).1.2 = last_request_time s)
  /\ (rate_per_second s == 0 -> (0 <= semaphore s)%Z ->
      forall readings : list (Q * Q),
        length readings = Z.to_nat (semaphore s) ->
        semaphore (acquire_each readings s) = 0%Z
        /\ forall t t', (acquire t t' (acquire_each readings s)).1.1 = Blocked).
Proof.
  split_and!.
  - intros Hs Hr. unfold acquire, in_flight, release.
    apply Z.eqb_neq in Hs. rewrite Hs. simpl.
    destruct (Qeq_bool (rate_per_second s) 0) eqn:E0.
    { apply Qeq_bool_iff in E0. contradiction. }
    destruct (TokenBucket.Qltb _ _); simpl; split_and!;
      try reflexivity; lia.
  - intros Hs Hr. rewrite (acquire_zero_rate_leaks s now now' Hr Hs).
    split_and!; reflexivity.
  - intros Hr Hs readings. revert s Hr Hs.
    induction readings as [|[t1 t2] readings IH]; intros s Hr Hs Hlen.
    + simpl in *. assert (H0 : semaphore s = 0%Z) by lia.
      split; [exact H0|]. intros t t'. unfold acquire. by rewrite H0.
    + simpl in Hlen.
      assert (Hne : semaphore s <> 0%Z) by lia.
      simpl. rewrite (acquire_zero_rate_leaks s t1 t2 Hr Hne). simpl.
      apply IH; simpl; [exact Hr | lia | lia].
Qed.

Lemma dual_limiter_slot_accounting_witness :
  semaphore (acquire_each [(0, 0); (1, 1)] stalled_limiter) = 0%Z
  /\ (acquire 2 2 (acquire_each [(0, 0); (1, 1)] stalled_limiter)).1.1
     = Blocked.
Proof.
  destruct (dual_limiter_slot_accounting stalled_limiter 0 0)
    as (_ & _ & H).
  destruct (H ltac:(reflexivity) ltac:(simpl; lia) [(0, 0); (1, 1)] eq_refl)
    as [H1 H2].
  split; [exact H1 | exact (H2 2 2)].
Defined.

End DualLimiterFurther.

(** ** The batch writer: nothing lost, nothing twice *)
Section BatchWriterFurther.
Import BatchWriter.
Local Open Scope Q_scope.
Context {Item : Type}.

(** X16. The writer loses and duplicates nothing: after any sequence of
    [add] and [get_batch] calls, the batches handed out, in order,
    followed by what is still buffered, are exactly what was buffered at
    the start followed by the items added, in the order of the calls. *)
Theorem batch_writer_conserves_items (ops : list (Op (Item := Item))) :
  forall w : BatchWriter Item,
    (concat (run_ops ops w).2 ++ buffer (run_ops ops w).1)%list
    = (buffer w ++ added ops)%list.
Proof.
  induction ops as [|[item now|] ops IH]; intros w; simpl.
  - by rewrite app_nil_r.
  - rewrite IH. simpl. by rewrite <- app_assoc.
  - specialize (IH {| batch_size := batch_size w;
                      flush_interval := flush_interval w;
                      buffer := [];
                      last_flush := last_flush w |}).
    destruct (run_ops ops _) as [w' batches]. simpl in *.
    by rewrite <- app_assoc, IH.
Qed.

(** What one result pushed by [_sync_single_stock] does to the writer
    and to the batches flushed so far. *)
Lemma add_and_flush_step (item : Item) (now : Q) (w : BatchWriter Item)
      (flushed : list (list Item)) :
  (1 <= batch_size w)%Z ->
  (Z.of_nat (length (buffer w)) < batch_size w)%Z ->
  Forall (fun b => (1 <= Z.of_nat (length b) <= batch_size w)%Z) flushed ->
  let st := add_and_flush item now (w, flushed) in
  batch_size st.1 = batch_size w
  /\ (Z.of_nat (length (buffer st.1)) < batch_size w)%Z
  /\ Forall (fun b => (1 <= Z.of_nat (length b) <= batch_size w)%Z) st.2
  /\ (concat st.2 ++ buffer st.1)%list
     = (concat flushed ++ buffer w ++ [item])%list.
Proof.
  intros HS Hlen Hfl. unfold add_and_flush, add, get_batch. simpl.
  set (flag := (batch_size w <=? Z.of_nat (length (buffer w ++ [item])))%Z
               || Qle_bool (flush_interval w) (now - last_flush w)).
  assert (Hl : length (buffer w ++ [item]) = S (length (buffer w)))
    by (rewrite length_app; simpl; lia).
  destruct flag eqn:E; simpl.
  - split_and!; [reflexivity | lia | |].
    + apply Forall_app. split; [exact Hfl|]. repeat constructor; lia.
    + rewrite concat_app. simpl. by rewrite !app_nil_r.
  - unfold flag in E. apply orb_false_iff in E as [E _].
    apply Z.leb_gt in E.
    split_and!; [reflexivity | exact E | exact Hfl | reflexivity].
Qed.

(** X17. The way the sync service uses the writer (add, flush at once
    when told to, flush the rest at the end) writes every result exactly
    once and in order: for a writer that starts empty with a size
    threshold [S >= 1], the flushed batches concatenated are the results
    pushed, the buffer ends empty, no empty batch is ever flushed, and no
    batch has more than [S] items. *)
Theorem sync_flushes_each_item_once
        (items : list (Item * Q)) (w : BatchWriter Item) :
  (1 <= batch_size w)%Z ->
  buffer w = [] ->
  concat (sync_all items w).2 = List.map fst items
  /\ buffer (sync_all items w).1 = []
  /\ Forall (fun b => (1 <= Z.of_nat (length b) <= batch_size w)%Z)
            (sync_all items w).2.
Proof.
  intros HS Hempty.
  assert (Hfold : forall (its : list (Item * Q)) (st : BatchWriter Item * list (list Item)),
             batch_size st.1 = batch_size w ->
             (Z.of_nat (length (buffer st.1)) < batch_size w)%Z ->
             Forall (fun b => (1 <= Z.of_nat (length b) <= batch_size w)%Z) st.2 ->
             let st' := fold_left (fun st x => add_and_flush x.1 x.2 st) its st in
             batch_size st'.1 = batch_size w
             /\ (Z.of_nat (length (buffer st'.1)) < batch_size w)%Z
             /\ Forall (fun b => (1 <= Z.of_nat (length b) <= batch_size w)%Z) st'.2
             /\ (concat st'.2 ++ buffer st'.1)%list
                = (concat st.2 ++ buffer st.1 ++ List.map fst its)%list).
  { induction its as [|[item now] its IH]; intros [w0 fl] Hb Hlen Hfl.
    - simpl. split_and!; try done. by rewrite app_nil_r.
    - simpl in Hb, Hlen, Hfl. cbn [fold_left].
      change (add_and_flush (item, now).1 (item, now).2 (w0, fl))
        with (add_and_flush item now (w0, fl)).
      destruct (add_and_flush_step item now w0 fl) as (H1 & H2 & H3 & H4);
        rewrite ?Hb; try done.
      rewrite Hb in H1, H2, H3.
      destruct (add_and_flush item now (w0, fl)) as [w1 fl1] eqn:Est.
      cbn [fst snd] in H1, H2, H3, H4.
      destruct (IH (w1, fl1) H1 H2 H3) as (K1 & K2 & K3 & K4).
      cbn [fst snd] in K4 |- *.
      split_and!; try done.
      rewrite K4. cbn [List.map fst]. rewrite app_assoc, H4.
      by rewrite <- !app_assoc. }
  destruct (Hfold items (w, []) eq_refl) as (K1 & K2 & K3 & K4).
  { simpl. rewrite Hempty. simpl. lia. }
  { constructor. }
  unfold sync_all.
  destruct (fold_left _ items (w, [])) as [w1 fl1]. simpl in *.
  rewrite Hempty in K4. simpl in K4.
  unfold final_flush, get_batch. simpl.
  destruct (buffer w1) as [|x rest] eqn:Hbuf; simpl.
  - split_and!; [by rewrite app_nil_r in K4 | reflexivity | exact K3].
  - split_and!; [|reflexivity|].
    + rewrite concat_app. simpl. by rewrite app_nil_r.
    + apply Forall_app. split; [exact K3|].
      repeat constructor; simpl in *; lia.
Qed.

End BatchWriterFurther.

Section BatchWriterFurtherExamples.
Import BatchWriter.
Local Open Scope Q_scope.

Lemma sync_flushes_each_item_once_witness :
  concat (sync_all (demo_items ++ [("c", 2)]) demo_writer).2 = ["a"; "b"; "c"]
  /\ buffer (sync_all (demo_items ++ [("c", 2)]) demo_writer).1 = [].
Proof.
  destruct (sync_flushes_each_item_once (demo_items ++ [("c", 2)]) demo_writer
              ltac:(simpl; lia) eq_refl) as (H1 & H2 & _).
  split; [exact H1 | exact H2].
Defined.

End BatchWriterFurtherExamples.

(** ** The stock rows of [sync_stock_list] *)
Section StockListProperties.
Import Stdlib.Strings.Ascii StockList.

Lemma split_not_nil sep s : split sep s <> [].
Proof.
  destruct s as [|c s]; simpl; [done|].
  destruct (Ascii.eqb c sep); [done|]. by destruct (split sep s).
Qed.

Lemma split_bare sep s :
  contains_char sep s = false -> split sep s = [s].
Proof.
  induction s as [|c s IH]; simpl; [done|].
  destruct (Ascii.eqb c sep); simpl; [done|]. intros H. by rewrite (IH H).
Qed.

Lemma split_app sep a b :
  contains_char sep a = false ->
  split sep (a ++ String sep b) = a :: split sep b.
Proof.
  induction a as [|c a IH]; simpl.
  - intros _. by rewrite Ascii.eqb_refl.
  - destruct (Ascii.eqb c sep); simpl; [done|]. intros H. by rewrite (IH H).
Qed.

Lemma startswith_688_6 code :
  startswith code "688" = true -> startswith code "6" = true.
Proof.
  unfold startswith. destruct code as [|c code]; cbn [String.prefix]; [done|].
  destruct (Ascii.ascii_dec "6"%char c); [by destruct code | done].
Qed.

(** X18. [_get_board_from_code] never answers the STAR market
    ('科创板'): its test [startswith('688')] comes after
    [startswith('6')], so every code that begins with 688 is filed under
    the Shanghai main board; the answer is always one of the four other
    boards or the empty string. *)
Theorem board_never_star_market (ts_code : string) :
  _get_board_from_code ts_code <> "科创板"
  /\ (startswith (first_field ts_code) "688" = true ->
      _get_board_from_code ts_code = "沪主板")
  /\ In (_get_board_from_code ts_code)
        ["沪主板"; "深主板"; "创业板"; "北交所"; EmptyString].
Proof.
  unfold _get_board_from_code.
  pose proof (startswith_688_6 (first_field ts_code)) as H688.
  destruct (startswith (first_field ts_code) "6") eqn:E6.
  { split_and!; [discriminate | done | by left]. }
  assert (startswith (first_field ts_code) "688" = false) as ->
    by (destruct (startswith (first_field ts_code) "688");
        [by specialize (H688 eq_refl) | done]).
  destruct (startswith (first_field ts_code) "0");
    [split_and!; [discriminate | done | right; by left]|].
  destruct (startswith (first_field ts_code) "30");
    [split_and!; [discriminate | done | right; right; by left]|].
  destruct (startswith (first_field ts_code) "8");
    split_and!; try discriminate; try done; simpl; tauto.
Qed.

Lemma board_never_star_market_witness :
  _get_board_from_code "688981.SH" = "沪主板".
Proof.
  destruct (board_never_star_market "688981.SH") as (_ & H & _).
  apply H. reflexivity.
Defined.

(** X19. A code that the provider gives without a suffix gets [.SH]
    when it begins with 6 and [.SZ] otherwise; the stored row then
    splits back into that code as symbol and that suffix as market, the
    board is the one of the bare code, and the market name is never
    Beijing ('北京'), whatever the board. A code that already has a dot
    is stored as it is. *)
Theorem stock_data_of_bare_code (row_code row_name : string) :
  (contains_char "."%char row_code = false ->
   let d := stock_data row_code row_name in
   sd_symbol d = row_code
   /\ sd_market d = (if startswith row_code "6" then "SH" else "SZ")
   /\ sd_ts_code d = row_code ++ "." ++ sd_market d
   /\ sd_board d = _get_board_from_code row_code
   /\ sd_market_name d
      = (if startswith row_code "6" then "上海" else "深圳"))
  /\ (contains_char "."%char row_code = true ->
      sd_ts_code (stock_data row_code row_name) = row_code).
Proof.
  split; intros Hdot; unfold stock_data, with_suffix; rewrite Hdot; simpl;
    [|reflexivity].
  assert (Hsplit : forall m, contains_char "."%char m = false ->
             split "."%char (row_code ++ String "."%char m) = [row_code; m])
    by (intros m Hm; by rewrite split_app, (split_bare _ _ Hm)).
  assert (Hbare : first_field row_code = row_code)
    by (unfold first_field; by rewrite (split_bare _ _ Hdot)).
  unfold _get_board_from_code, first_field, last_field.
  destruct (startswith row_code "6");
    (rewrite Hsplit by reflexivity); simpl;
    fold (first_field row_code); rewrite ?Hbare; split_and!; reflexivity.
Qed.

Lemma stock_data_of_bare_code_witness :
  sd_board (stock_data "830799" "艾融软件") = "北交所"
  /\ sd_market (stock_data "830799" "艾融软件") = "SZ"
  /\ sd_market_name (stock_data "830799" "艾融软件") = "深圳".
Proof.
  destruct (stock_data_of_bare_code "830799" "艾融软件") as [H _].
  destruct (H eq_refl) as (_ & Hm & _ & Hb & Hn).
  split_and!; [rewrite Hb; reflexivity | exact Hm | exact Hn].
Defined.

End StockListProperties.


(** ** The batch sync manager: the shape of a plan *)
Section CreateBatchesFurther.
Import BatchSyncManager.

Lemma create_loop_prefix bs clock p sorted (starts : list Z) :
  forall acc : list Batch,
    exists more,
      fold_left (append_batch bs clock p sorted) starts acc
      = (acc ++ more)%list
      /\ length more = length starts.
Proof.
  induction starts as [|i starts IH]; intros acc; simpl.
  - exists []. by rewrite app_nil_r.
  - destruct (IH (append_batch bs clock p sorted acc i)) as (more & -> & Hl).
    unfold append_batch. eexists (_ :: more).
    split; [by rewrite <- app_assoc | simpl; by rewrite Hl].
Qed.

(** The batch the loop creates for the [k]-th start index. *)
Lemma create_loop_lookup bs clock p sorted (starts : list Z) :
  forall (acc : list Batch) (k : nat) (i : Z),
    starts !! k = Some i ->
    fold_left (append_batch bs clock p sorted) starts acc
      !! (length acc + k)%nat
    = Some {| batch_id := batch_id_at bs clock p i;
              batch_index := Z.of_nat (length acc + k) + 1;
              total_batches := (Z.of_nat (length sorted) + bs - 1) / bs;
              stocks := slice sorted i (i + bs);
              stock_count := Z.of_nat (length (slice sorted i (i + bs)));
              status := "pending";
              created_at := datetime_now clock |}.
Proof.
  induction starts as [|i0 starts IH]; intros acc k i Hk; [done|].
  destruct k as [|k]; simpl in Hk |- *.
  - injection Hk as ->.
    destruct (create_loop_prefix bs clock p sorted starts
                (append_batch bs clock p sorted acc i)) as (more & -> & _).
    unfold append_batch. rewrite <- app_assoc.
    rewrite !Nat.add_0_r. simpl. by apply list_lookup_middle.
  - specialize (IH (append_batch bs clock p sorted acc i0) k i Hk).
    assert (Hlen : length (append_batch bs clock p sorted acc i0)
                   = S (length acc)).
    { unfold append_batch. rewrite length_app. simpl. lia. }
    rewrite Hlen in IH.
    replace (length acc + S k)%nat with (S (length acc) + k)%nat by lia.
    exact IH.
Qed.

Lemma stock_priority_selected db ltd force :
  List.map stock (stock_priority db ltd force) = selected db ltd force.
Proof.
  unfold stock_priority, selected. rewrite List.map_map. simpl.
  rewrite List.map_id. destruct force; simpl.
  - induction (sync_targets db) as [|s l IH]; simpl; [done | by rewrite <- IH].
  - reflexivity.
Qed.

(** What a successful call with a positive batch size returns. *)
Lemma create_batches_positive bs clock ltd db force prefix batches p' :
  (0 < bs)%Z ->
  create_batches bs clock ltd db force prefix = RetPair batches p' ->
  let sorted := sort_by_date (stock_priority db ltd force) in
  let m := Z.to_nat ((Z.of_nat (length sorted) + bs - 1) / bs) in
  batches
  = fold_left (append_batch bs clock p' sorted)
              (List.map (fun k : nat => (Z.of_nat k * bs)%Z) (seq 0 m)) []
  /\ length batches = m
  /\ concat (List.map stocks batches) = sorted.
Proof.
  intros Hbs Hr. simpl. unfold create_batches in Hr.
  destruct (sync_targets db) as [|s0 targets]; [discriminate|].
  destruct (range0_positive
              (length (sort_by_date (stock_priority db ltd force))) bs Hbs)
    as [Hrange _].
  rewrite Hrange in Hr. injection Hr as Hb Hp. subst p'.
  split; [by rewrite <- Hb|].
  match type of Hb with
  | fold_left (append_batch _ _ ?p ?so) ?st _ = _ =>
      destruct (create_loop_prefix bs clock p so st []) as (more & Hm & Hl);
      destruct (create_loop_fields bs clock p so st []) as [_ Hst]
  end.
  simpl in Hst. rewrite Hb in Hm, Hst. simpl in Hm. subst more.
  split.
  - rewrite Hl. by rewrite length_map, length_seq.
  - rewrite Hst. by apply slices_concat.
Qed.

(** X20. The shape of a plan made with a positive batch size: there are
    [ceil(n / batch_size)] batches for the [n] selected stocks; the
    [k]-th batch (counting from 0) carries [batch_index = k + 1], the
    number of batches as [total_batches], its own length as
    [stock_count] and the status [pending]; it holds
    [min(batch_size, n - k * batch_size)] stocks, so every batch is
    non-empty and all but the last are full. *)
Theorem create_batches_shape
        (bs : Z) (clock : Clock) (ltd : Z) (db : Session) (force : bool)
        (prefix : option string) (batches : list Batch) (p' : string) :
  (0 < bs)%Z ->
  create_batches bs clock ltd db force prefix = RetPair batches p' ->
  let n := Z.of_nat (length (selected db ltd force)) in
  Z.of_nat (length batches) = ((n + bs - 1) / bs)%Z
  /\ forall (k : nat) (b : Batch),
       batches !! k = Some b ->
       batch_index b = (Z.of_nat k + 1)%Z
       /\ total_batches b = Z.of_nat (length batches)
       /\ stock_count b = Z.of_nat (length (stocks b))
       /\ Z.of_nat (length (stocks b)) = Z.min bs (n - Z.of_nat k * bs)
       /\ (1 <= Z.of_nat (length (stocks b)))%Z
       /\ status b = "pending".
Proof.
  intros Hbs Hr.
  destruct (create_batches_positive bs clock ltd db force prefix batches p'
              Hbs Hr) as (Hb & Hlen & _).
  set (sorted := sort_by_date (stock_priority db ltd force)) in *.
  assert (Hn : length sorted = length (selected db ltd force)).
  { unfold sorted. rewrite (Permutation_length (sort_by_date_perm _)).
    rewrite <- stock_priority_selected. by rewrite length_map. }
  simpl. rewrite <- Hn.
  set (a := (Z.of_nat (length sorted) + bs - 1)%Z) in *.
  assert (Ha : (0 <= a / bs)%Z) by (apply Z.div_pos; unfold a; lia).
  split; [rewrite Hlen; lia|].
  intros k b Hk.
  assert (Hklt : (k < Z.to_nat (a / bs))%nat).
  { rewrite <- Hlen. by eapply lookup_lt_Some. }
  assert (Hstart : List.map (fun k : nat => (Z.of_nat k * bs)%Z)
                            (seq 0 (Z.to_nat (a / bs))) !! k
                   = Some (Z.of_nat k * bs)%Z).
  { rewrite list_lookup_fmap. rewrite lookup_seq_lt by exact Hklt.
    reflexivity. }
  pose proof (create_loop_lookup bs clock p' sorted _ [] k _ Hstart) as Hlook.
  simpl in Hlook. rewrite <- Hb in Hlook. rewrite Hk in Hlook.
  injection Hlook as ->. simpl.
  assert (Hmul : (bs * (a / bs) <= a)%Z) by (apply Z.mul_div_le; lia).
  assert (Hkb : (Z.of_nat k * bs + bs <= bs * (a / bs))%Z) by nia.
  assert (H0 : (0 <= Z.of_nat k * bs)%Z) by nia.
  assert (Hsl : Z.of_nat (length (slice sorted (Z.of_nat k * bs)
                                        (Z.of_nat k * bs + bs)))
                = Z.min bs (Z.of_nat (length sorted) - Z.of_nat k * bs)).
  { unfold slice. rewrite length_take, length_drop.
    rewrite Z2Nat.inj_add by lia. unfold a in *. lia. }
  unfold a in *. split_and!; try reflexivity.
  - rewrite Hlen. lia.
  - exact Hsl.
  - rewrite Hsl. lia.
Qed.

Lemma create_batches_shape_witness :
  exists batches p',
    create_batches 2 clock_a 739000 demo_db true (Some "plan")
    = RetPair batches p'
    /\ Z.of_nat (length batches) = 2%Z.
Proof.
  eexists _, _. split; [reflexivity|].
  destruct (create_batches_shape 2 clock_a 739000 demo_db true (Some "plan")
              _ _ ltac:(lia) eq_refl) as [H _].
  exact H.
Defined.

(** X21. A plan made with a positive batch size contains every selected
    stock exactly once: the stocks of its batches are a rearrangement of
    the active, non-ST stocks of the database, without those whose
    latest K-line date has reached the latest trade date unless the sync
    is forced. No stock outside that selection is planned, none of it is
    left out, and the number of planned stocks is the sum of the
    [stock_count]s. *)
Theorem create_batches_covers_selection
        (bs : Z) (clock : Clock) (ltd : Z) (db : Session) (force : bool)
        (prefix : option string) (batches : list Batch) (p' : string) :
  (0 < bs)%Z ->
  create_batches bs clock ltd db force prefix = RetPair batches p' ->
  Permutation (planned batches) (selected db ltd force)
  /\ (forall s, In s (planned batches) <->
               In s (stock_rows db)
               /\ is_active s = true
               /\ is_st s = false
               /\ (force = true
                   \/ forall d, _get_latest_kline_date db (ts_code s) = Some d ->
                                (d < ltd)%Z))
  /\ Z.of_nat (length (planned batches))
     = fold_right Z.add 0%Z (List.map stock_count batches).
Proof.
  intros Hbs Hr.
  destruct (create_batches_positive bs clock ltd db force prefix batches p'
              Hbs Hr) as (Hb & Hlen & Hcat).
  assert (Hperm : Permutation (planned batches) (selected db ltd force)).
  { unfold planned. rewrite Hcat, <- stock_priority_selected.
    apply Permutation_map, sort_by_date_perm. }
  split_and!; [exact Hperm| |].
  - intros s. rewrite (Permutation_in' (eq_refl s) Hperm).
    unfold selected, sync_targets. rewrite !filter_In.
    unfold is_fresh.
    rewrite orb_true_iff, !negb_true_iff. split.
    + intros (((Hin & Hact) & Hst) & Hsel). split_and!; try done.
      destruct Hsel as [Hf | Hf]; [by left | right].
      intros d Hd. rewrite Hd in Hf. by apply Z.leb_gt in Hf.
    + intros (Hin & Hact & Hst & Hsel). split_and!; try done.
      destruct Hsel as [Hf | Hf]; [by left | right].
      destruct (_get_latest_kline_date db (ts_code s)) as [d|]; [|done].
      apply Z.leb_gt. by apply Hf.
  - unfold planned. rewrite length_map.
    assert (Hcount : Forall (fun b => stock_count b
                                       = Z.of_nat (length (stocks b)))
                            batches).
    { apply list.Forall_forall. intros b Hin.
      apply list_elem_of_lookup in Hin as [k Hk].
      assert (Hklt : (k < length batches)%nat) by (by eapply lookup_lt_Some).
      rewrite Hlen in Hklt.
      set (sorted := sort_by_date (stock_priority db ltd force)) in *.
      set (m := Z.to_nat ((Z.of_nat (length sorted) + bs - 1) / bs)) in *.
      assert (Hstart : List.map (fun k : nat => (Z.of_nat k * bs)%Z) (seq 0 m)
                         !! k = Some (Z.of_nat k * bs)%Z).
      { rewrite list_lookup_fmap, lookup_seq_lt by exact Hklt. reflexivity. }
      pose proof (create_loop_lookup bs clock p' sorted _ [] k _ Hstart)
        as Hlook.
      simpl in Hlook. rewrite <- Hb in Hlook. rewrite Hk in Hlook.
      by injection Hlook as ->. }
    clear Hb Hlen Hcat Hperm Hr.
    induction batches as [|b batches IH]; simpl; [reflexivity|].
    inversion Hcount as [|? ? Hb0 Hrest]; subst.
    rewrite length_app, Nat2Z.inj_add, Hb0, IH by exact Hrest. reflexivity.
Qed.

Lemma create_batches_covers_selection_witness :
  exists batches p',
    create_batches 2 clock_a 739000 demo_db false (Some "plan")
    = RetPair batches p'
    /\ Permutation (planned batches) (selected demo_db 739000 false).
Proof.
  eexists _, _. split; [reflexivity|].
  destruct (create_batches_covers_selection 2 clock_a 739000 demo_db false
              (Some "plan") _ _ ltac:(lia) eq_refl) as [H _].
  exact H.
Defined.

(** X22. [get_sync_progress] splits the sync targets in two: every
    active non-ST stock is counted either as needing an update or as up
    to date, never both; the sample lists are the first ten of each
    kind; and the number it reports as needing an update is the number
    of stocks a plan without [force_full_sync] selects for the same
    latest trade date. *)
Theorem get_sync_progress_partitions (ltd : Z) (db : Session) :
  let r := get_sync_progress ltd db in
  (sp_need_update r + sp_up_to_date r = sp_total_stocks r)%Z
  /\ sp_total_stocks r = Z.of_nat (length (sync_targets db))
  /\ sp_need_update r = Z.of_nat (length (selected db ltd false))
  /\ (length (sp_need_update_list r) <= 10)%nat
  /\ (length (sp_up_to_date_list r) <= 10)%nat
  /\ Z.of_nat (length (sp_need_update_list r))
     = Z.min 10 (sp_need_update r)
  /\ Z.of_nat (length (sp_up_to_date_list r))
     = Z.min 10 (sp_up_to_date r).
Proof.
  unfold get_sync_progress, selected. simpl.
  set (mk := fun s : Stock =>
               {| ss_ts_code := ts_code s; ss_name := name s;
                  ss_latest_date := _get_latest_kline_date db (ts_code s) |}).
  assert (Hcount : forall l : list Stock,
             length (List.filter (needs_update ltd) (List.map mk l))
             = length (List.filter (fun s => negb (is_fresh db ltd s)) l)
             /\ (length (List.filter (needs_update ltd) (List.map mk l))
                 + length (List.filter (is_up_to_date ltd) (List.map mk l))
                 = length l)%nat).
  { induction l as [|s l [IH1 IH2]]; simpl; [done|].
    unfold needs_update, is_up_to_date, is_fresh in *. simpl.
    destruct (_get_latest_kline_date db (ts_code s)) as [d|]; simpl.
    - destruct (Z.ltb_spec d ltd), (Z.leb_spec ltd d); simpl; lia.
    - lia. }
  destruct (Hcount (sync_targets db)) as [H1 H2].
  split_and!; try reflexivity.
  - lia.
  - by rewrite H1.
  - rewrite length_take. lia.
  - rewrite length_take. lia.
  - rewrite length_take. lia.
  - rewrite length_take. lia.
Qed.

End CreateBatchesFurther.

(** ** The batch sync manager: running a batch *)
Section ExecuteBatchFurther.
Import BatchSyncManager.

Lemma on_item_exception_accounts s e st st' :
  on_item_exception s e st = (st', None) ->
  accounted st' = (accounted st + 1)%Z /\ skipped st' = skipped st.
Proof.
  unfold on_item_exception, accounted.
  destruct e; intros [= <-]; simpl. rewrite length_app. simpl. lia.
Qed.

(** An item that does not end the call is counted exactly once, and as
    skipped exactly when the callback returned and the item is recent. *)
Lemma process_item_accounts env batch total force i item st st' :
  process_item env batch total force i item st = (st', None) ->
  accounted st' = (accounted st + 1)%Z
  /\ (callback_returns env ->
      skipped st'
      = (skipped st + if skip_recent env force item then 1 else 0)%Z)
  /\ (skipped st <= skipped st')%Z.
Proof.
  unfold process_item, callback_returns.
  destruct (progress_callback env) as [cb|];
    [destruct (cb _ _) as [e|] eqn:Ecb|];
    try (destruct (skip_recent env force item);
         [|destruct (sync_stock_kline_to_db env i _ force)
             as [[] ? ? ?|e]]);
    try (intros [= <-]; unfold accounted; simpl; rewrite ?length_app; simpl;
         split_and!; try lia; intros; lia);
    intros H; destruct (on_item_exception_accounts _ _ _ _ H) as [H1 H2];
    unfold accounted in *; simpl in *;
    (split_and!; try lia; intros Hcb;
     first [rewrite Hcb in Ecb; discriminate | lia]).
Qed.

Lemma run_items_accounts env batch total force (items : list PriorityItem) :
  forall i st st',
    run_items env batch total force i items st = (st', None) ->
    accounted st' = (accounted st + Z.of_nat (length items))%Z
    /\ (callback_returns env ->
        skipped st'
        = (skipped st
           + Z.of_nat (length (recent_items env force items)))%Z)
    /\ (skipped st <= skipped st')%Z.
Proof.
  induction items as [|item items IH]; intros i st st'; simpl.
  - intros [= <-]. split_and!; [lia | intros _; lia | lia].
  - destruct (process_item env batch total force i item st)
      as [st1 [e|]] eqn:Estep; [discriminate|].
    destruct (process_item_accounts _ _ _ _ _ _ _ _ Estep) as (H1 & H2 & H3).
    intros Hrun. destruct (IH _ _ _ Hrun) as (K1 & K2 & K3).
    split_and!; [lia | | lia]. intros Hcb. rewrite (K2 Hcb), (H2 Hcb).
    unfold recent_items. simpl.
    destruct (skip_recent env force item); simpl; lia.
Qed.

(** X23. Every item of a batch that returns is accounted for exactly
    once: succeeded, failed and skipped add up to the number of items,
    the two counts are the lengths of the two lists, and [success] is
    set exactly when nothing failed. *)
Theorem execute_batch_accounts_for_every_item
        (env : Env) (progress_store : gmap string BatchProgress)
        (batch : Batch) (force : bool) (res : BatchResult)
        (store' : gmap string BatchProgress) :
  execute_batch env progress_store batch force = (ExecReturned res, store') ->
  (r_succeeded_count res + r_failed_count res + r_skipped res
   = r_total res)%Z
  /\ r_total res = Z.of_nat (length (stocks batch))
  /\ r_succeeded_count res = Z.of_nat (length (r_succeeded res))
  /\ r_failed_count res = Z.of_nat (length (r_failed res))
  /\ (0 <= r_skipped res)%Z
  /\ (r_success res = true <-> r_failed res = []).
Proof.
  unfold execute_batch.
  destruct (run_items env batch _ force 1 (stocks batch) _)
    as [st [e|]] eqn:Erun; [discriminate|].
  intros [= <- <-]. simpl.
  destruct (run_items_accounts _ _ _ _ _ _ _ _ Erun) as (Hacc & _ & Hsk).
  unfold accounted in Hacc. simpl in Hacc, Hsk.
  split_and!; try reflexivity; try lia.
  destruct (failed st); simpl; split; done.
Qed.

Lemma execute_batch_accounts_for_every_item_witness :
  exists res store',
    execute_batch demo_env ∅ demo_batch false = (ExecReturned res, store')
    /\ (r_succeeded_count res + r_failed_count res + r_skipped res
        = r_total res)%Z.
Proof.
  assert (E : exists res store',
             execute_batch demo_env ∅ demo_batch false
             = (ExecReturned res, store'))
    by (vm_compute; eexists _, _; reflexivity).
  destruct E as (res & store' & E). exists res, store'. split; [exact E|].
  destruct (execute_batch_accounts_for_every_item demo_env ∅ demo_batch false
              res store' E) as [H _].
  exact H.
Defined.




Lemma run_items_entry_running env batch total force
      (items : list PriorityItem) :
  forall i st,
    entry_running (batch_id batch) (store st) ->
    entry_running (batch_id batch)
                  (store (run_items env batch total force i items st).1)
    /\ forall e, (run_items env batch total force i items st).2 = Some e ->
                 forall cls text, e <> ExcException cls text.
Proof.
  assert (Halt : forall m f,
             entry_running (batch_id batch) m ->
             (forall p, bp_status (f p) = bp_status p
                        /\ bp_end_time (f p) = bp_end_time p) ->
             entry_running (batch_id batch) (alter f (batch_id batch) m)).
  { intros m f (p & Hp & Hs & He) Hf. exists (f p).
    rewrite lookup_alter_eq, Hp. destruct (Hf p) as [-> ->]. done. }
  assert (Hexc : forall s e st,
             entry_running (batch_id batch) (store st) ->
             entry_running (batch_id batch) (store (on_item_exception s e st).1)
             /\ forall e', (on_item_exception s e st).2 = Some e' ->
                           forall cls text, e' <> ExcException cls text).
  { intros s [] st H; simpl; split; try done; intros e' [= <-]; done. }
  assert (Hstep : forall i item st,
             entry_running (batch_id batch) (store st) ->
             entry_running (batch_id batch)
               (store (process_item env batch total force i item st).1)
             /\ forall e, (process_item env batch total force i item st).2
                          = Some e ->
                          forall cls text, e <> ExcException cls text).
  { intros i item st Hrun. unfold process_item.
    destruct (match progress_callback env with
              | Some cb => cb _ _
              | None => None
              end) as [e|]; [by apply Hexc|].
    assert (Hrun1 : entry_running (batch_id batch)
                      (alter (item_update i (stock item)
                                (inject_Z (i - 1) / inject_Z total * 100)%Q
                                (item_message batch i total (stock item)))
                             (batch_id batch) (store st)))
      by (apply Halt; [exact Hrun | done]).
    destruct (skip_recent env force item); simpl; [done|].
    destruct (sync_stock_kline_to_db env i _ force) as [[] ? ? ?|e]; simpl;
      try done.
    by apply Hexc. }
  induction items as [|item items IH]; intros i st Hrun; simpl; [done|].
  destruct (Hstep i item st Hrun) as [H1 H2].
  destruct (process_item env batch total force i item st) as [st1 [e|]];
    simpl in *; [split; [exact H1 | intros e' [= <-]; by apply H2]|].
  by apply IH.
Qed.

(** X25. An exception of an item that is not an [Exception]
    ([KeyboardInterrupt], [SystemExit], [asyncio.CancelledError]) is not
    caught by the loop: the call raises it, and the progress entry of
    the batch is never finalised: it stays in the store with the status
    [running] and without an end time. A call only ever raises such an
    exception, never an [Exception]. *)
Theorem execute_batch_interrupted_stays_running
        (env : Env) (progress_store : gmap string BatchProgress)
        (batch : Batch) (force : bool) (e : PyExc)
        (store' : gmap string BatchProgress) :
  execute_batch env progress_store batch force = (ExecRaised e, store') ->
  (forall cls text, e <> ExcException cls text)
  /\ exists p,
       get_batch_execution_progress (batch_id batch) store' = Some p
       /\ bp_status p = "running"
       /\ bp_end_time p = None.
Proof.
  unfold execute_batch, get_batch_execution_progress.
  set (total := Z.of_nat (length (stocks batch))).
  set (st0 := mkLoop _ [] [] 0).
  assert (H0 : entry_running (batch_id batch) (store st0)).
  { unfold st0. simpl. eexists. rewrite lookup_insert_eq. done. }
  destruct (run_items_entry_running env batch total force (stocks batch)
              1%Z st0 H0) as [Hrun Hexc].
  destruct (run_items env batch total force 1 (stocks batch) st0)
    as [st [e'|]]; [|discriminate].
  intros [= <- <-]. simpl in *. split; [by apply Hexc | exact Hrun].
Qed.

Lemma execute_batch_interrupted_stays_running_witness :
  exists p,
    get_batch_execution_progress "plan_1"
      (execute_batch interrupted_env ∅ demo_batch false).2 = Some p
    /\ bp_status p = "running".
Proof.
  destruct (execute_batch_interrupted_stays_running interrupted_env ∅
              demo_batch false (ExcBaseOnly "KeyboardInterrupt") _ eq_refl)
    as (_ & p & Hp & Hs & _).
  exists p. split; [exact Hp | exact Hs].
Defined.

Lemma run_items_frame env batch total force (items : list PriorityItem)
      (other : string) :
  other <> batch_id batch ->
  forall i st,
    store (run_items env batch total force i items st).1 !! other
    = store st !! other.
Proof.
  intros Hne.
  assert (Hstep : forall i item st,
             store (process_item env batch total force i item st).1 !! other
             = store st !! other).
  { intros i item st. unfold process_item.
    assert (Hexc : forall s e st', store (on_item_exception s e st').1
                                   = store st') by (by intros s []).
    destruct (match progress_callback env with
              | Some cb => cb _ _
              | None => None
              end) as [e|]; [by rewrite Hexc|].
    destruct (skip_recent env force item); simpl;
      [by rewrite lookup_alter_ne|].
    destruct (sync_stock_kline_to_db env i _ force) as [[] ? ? ?|e]; simpl;
      rewrite ?Hexc; simpl; by rewrite lookup_alter_ne. }
  induction items as [|item items IH]; intros i st; simpl; [done|].
  pose proof (Hstep i item st) as H1.
  destruct (process_item env batch total force i item st) as [st1 [e|]];
    simpl in *; [exact H1|].
  by rewrite IH.
Qed.

(** X26. A call of [execute_batch], however it ends, touches no progress
    entry but the one of its own batch id; clearing that id afterwards
    leaves the store as it was before the call without that id, and
    asking for the progress of the cleared id then finds nothing. *)
Theorem execute_batch_touches_own_entry_only
        (env : Env) (progress_store : gmap string BatchProgress)
        (batch : Batch) (force : bool) :
  let store' := (execute_batch env progress_store batch force).2 in
  (forall other, other <> batch_id batch ->
     get_batch_execution_progress other store'
     = get_batch_execution_progress other progress_store)
  /\ clear_batch_progress (batch_id batch) store'
     = delete (batch_id batch) progress_store
  /\ get_batch_execution_progress (batch_id batch)
       (clear_batch_progress (batch_id batch) store') = None.
Proof.
  simpl.
  assert (Hframe : forall other, other <> batch_id batch ->
             (execute_batch env progress_store batch force).2 !! other
             = progress_store !! other).
  { intros other Hne. unfold execute_batch.
    pose proof (run_items_frame env batch (Z.of_nat (length (stocks batch)))
                  force (stocks batch) other Hne 1%Z
                  (mkLoop (<[batch_id batch :=
                               initial_progress env batch
                                 (Z.of_nat (length (stocks batch)))]>
                             progress_store) [] [] 0)) as Hrun.
    destruct (run_items env batch _ force 1 (stocks batch) _) as [st [e|]];
      simpl in *.
    - rewrite Hrun. by rewrite lookup_insert_ne.
    - rewrite lookup_alter_ne by done. rewrite Hrun.
      by rewrite lookup_insert_ne. }
  unfold get_batch_execution_progress, clear_batch_progress.
  split_and!.
  - exact Hframe.
  - apply map_eq. intros k. destruct (decide (k = batch_id batch)) as [->|Hne].
    + by rewrite !lookup_delete_eq.
    + rewrite !lookup_delete_ne by done. by apply Hframe.
  - apply lookup_delete_eq.
Qed.

Lemma execute_batch_touches_own_entry_only_witness :
  get_batch_execution_progress "plan_2"
    (execute_batch demo_env ∅ demo_batch false).2
  = get_batch_execution_progress "plan_2" ∅.
Proof.
  destruct (execute_batch_touches_own_entry_only demo_env ∅ demo_batch false)
    as (H & _).
  apply H. discriminate.
Defined.

End ExecuteBatchFurther.
